(** * SLA and escalation engine of the ticketing backend

    A shallow embedding of [server/src/services/ticketService.ts]
    (class [TicketService]), of the in-memory store it runs on
    ([server/src/config/database.ts], class [DatabaseService]) and of the
    functions of the classifier the service calls when it creates a ticket
    ([server/src/services/aiService.ts]: [analyzeSentiment],
    [categorizeTicket], [extractKeywords], [generateSmartReplies]).

    Conventions of the embedding.
    - A Number is an IEEE 754 binary64 value, with the arithmetic of the
      Standard Library's [SpecFloat].  The budgets [responseTimeHours] and
      [resolutionTimeHours], the hours [addWorkingHours] adds and the two
      "time remaining" results of [calculateSLA] are Numbers.  Counters
      that the code only adds 1 to and compares ([escalationLevel], the
      ticket counter) and the page and limit of a query are whole numbers,
      in [Z].
    - A stored timestamp is its time value, a whole number of milliseconds
      since the epoch, in [Z].  A [Date] object that the code makes from it
      or computes is a [Date]: a time value within the range the standard
      allows, or the invalid date.
    - [Date.prototype.getHours] and [setHours] work on local time, by the
      algorithms of the standard ([LocalTime], [UTC], [MakeTime],
      [MakeDate], [TimeClip]).  The local zone is the argument [tz]: its
      offset from UTC at each instant and for each reading of the wall
      clock, so that a zone may change its clocks.
    - The packages [sentiment] and [natural] and the engine's
      [toLowerCase] are not looked into.  They are the fields of a
      [Platform], the argument [platform]; a call into a package answers
      or throws.
    - Every call of a service method reads the wall clock; the reading is the
      argument [now] of the embedded method.  [uuidv4()] is the argument
      [newId].
    - The service mutates the store and writes to the console.  Both are
      threaded through a small state-and-exception monad [M]; an exception
      keeps the state reached when it was thrown.
    - An optional field ([?:] in the interface) is an [option]; a template
      string stored in a note is kept as a constructor with its arguments. *)

From Stdlib Require Import ZArith Lia Ascii SpecFloat.
From stdpp Require Import base decidable option list strings sorting pretty.

Local Open Scope Z_scope.

(** ** JavaScript numbers: IEEE 754 binary64 *)

Module JsNumber.

(** A Number is a binary64 value.  The arithmetic is the Standard Library's
    specification of IEEE 754 ([SpecFloat]) at precision 53 and maximal
    exponent 1024: every operation is correctly rounded, to nearest, ties to
    even. *)
Definition number : Type := spec_float.

Definition prec : Z := 53.
Definition emax : Z := 1024.

(** The Number nearest to an integer; an integer below [2^53] in magnitude
    is a Number itself. *)
Definition ofZ (z : Z) : number := binary_normalize prec emax z 0 false.

Definition NaN : number := S754_nan.

Definition add : number → number → number := SFadd prec emax.
Definition sub : number → number → number := SFsub prec emax.
Definition mul : number → number → number := SFmul prec emax.
Definition div : number → number → number := SFdiv prec emax.

(** [x < y] and [x <= y]: false as soon as one side is [NaN]. *)
Definition ltb : number → number → bool := SFltb.
Definition leb : number → number → bool := SFleb.

Definition isNaN (x : number) : bool :=
  match x with
  | S754_nan => true
  | _ => false
  end.

Definition isFinite (x : number) : bool :=
  match x with
  | S754_zero _ | S754_finite _ _ _ => true
  | S754_infinity _ | S754_nan => false
  end.

(** [ToIntegerOrInfinity] of a finite Number: the fraction is cut off,
    towards zero.  [None] for [NaN] and the infinities. *)
Definition truncate (x : number) : option Z :=
  match x with
  | S754_zero _ => Some 0
  | S754_finite s m e => Some (cond_Zopp s (Z.shiftl (Zpos m) e))
  | S754_infinity _ | S754_nan => None
  end.

(** [Math.max(0, x)] *)
Definition max0 (x : number) : number :=
  match x with
  | S754_nan => NaN
  | _ => if ltb (S754_zero false) x then x else S754_zero false
  end.

(** The literal [0.5]. *)
Definition half : number := S754_finite false 4503599627370496 (-53).

End JsNumber.

(** ** JavaScript dates *)

Module JsDate.

Import JsNumber.

Definition msPerSecond : Z := 1000.
Definition msPerMinute : Z := 60000.
Definition msPerHour : Z := 3600000.
Definition msPerDay : Z := 86400000.

(** A [Date] by its time value: a whole number of milliseconds since the
    epoch, at most [8.64e15] in magnitude, or [NaN], the Invalid Date. *)
Inductive Date :=
  | InvalidDate
  | DateAt (t : Z).

Definition maxTime : Z := 8640000000000000.

(** [TimeClip] *)
Definition TimeClip (time : number) : Date :=
  match truncate time with
  | Some t => if Z.abs t <=? maxTime then DateAt t else InvalidDate
  | None => InvalidDate
  end.

(** [new Date(value)] of a stored date with time value [t].  A time value
    outside the range of [Date] is the time value of no date; it is read as
    the Invalid Date. *)
Definition newDate (t : Z) : Date :=
  if Z.abs t <=? maxTime then DateAt t else InvalidDate.

(** [date.getTime()] *)
Definition getTime (d : Date) : number :=
  match d with
  | DateAt t => ofZ t
  | InvalidDate => NaN
  end.

(** [a <= b] on two dates: the comparison of their time values, false when
    one of them is invalid. *)
Definition dateLe (a b : Date) : bool :=
  match a, b with
  | DateAt x, DateAt y => x <=? y
  | _, _ => false
  end.

(** The local time zone of the process: the offset of local time from UTC,
    in milliseconds, in force at an instant ([offsetAt], which [LocalTime]
    adds) and at a local clock reading ([offsetOfLocal], which [UTC]
    subtracts).  The two differ around a change of the clocks. *)
Record Zone := {
  offsetAt : Z → Z;
  offsetOfLocal : Z → Z
}.

(** A zone that never changes its clocks. *)
Definition fixedOffset (offset : Z) : Zone :=
  {| offsetAt := λ _, offset; offsetOfLocal := λ _, offset |}.

Definition utc : Zone := fixedOffset 0.

(** A zone that changes its clocks once, at the instant [at_], from the
    offset [before] to the offset [after].  A local reading that occurs
    twice or not at all is read with the offset before the change. *)
Definition clockChange (at_ before after : Z) : Zone :=
  {| offsetAt := λ t, if t <? at_ then before else after;
     offsetOfLocal := λ t, if t <? at_ + Z.max before after then before
                           else after |}.

Definition LocalTime (z : Zone) (t : Z) : Z := t + offsetAt z t.

(** [UTC(t)] of a local time value: not finite, [NaN]. *)
Definition UTC (z : Zone) (t : number) : number :=
  match truncate t with
  | Some local => sub t (ofZ (offsetOfLocal z local))
  | None => NaN
  end.

Definition Day (t : Z) : Z := t / msPerDay.
Definition HourFromTime (t : Z) : Z := (t / msPerHour) mod 24.
Definition MinFromTime (t : Z) : Z := (t / msPerMinute) mod 60.
Definition SecFromTime (t : Z) : Z := (t / msPerSecond) mod 60.
Definition msFromTime (t : Z) : Z := t mod msPerSecond.

(** [MakeTime]: an argument that is not finite gives [NaN]; the fractions
    of the arguments are cut off; the sum is computed in Number
    arithmetic. *)
Definition MakeTime (hour min sec ms : number) : number :=
  match truncate hour, truncate min, truncate sec, truncate ms with
  | Some h, Some m, Some s, Some milli =>
      add (add (add (mul (ofZ h) (ofZ msPerHour))
                    (mul (ofZ m) (ofZ msPerMinute)))
               (mul (ofZ s) (ofZ msPerSecond)))
          (ofZ milli)
  | _, _, _, _ => NaN
  end.

(** [MakeDate] *)
Definition MakeDate (day time : number) : number :=
  if isFinite day && isFinite time
  then let tv := add (mul day (ofZ msPerDay)) time in
       if isFinite tv then tv else NaN
  else NaN.

(** [date.getHours()]: the hour of the day in local time. *)
Definition getHours (z : Zone) (d : Date) : number :=
  match d with
  | DateAt t => ofZ (HourFromTime (LocalTime z t))
  | InvalidDate => NaN
  end.

(** [date.setHours(hour)]: the hour field of the local time is replaced by
    the whole part of [hour], the minutes, seconds and milliseconds are
    kept, an hour outside 0..23 carries into the day, and the local reading
    so obtained is turned back into an instant.  An invalid date stays
    invalid; a result outside the range of [Date] is the Invalid Date. *)
Definition setHours (z : Zone) (d : Date) (hour : number) : Date :=
  match d with
  | InvalidDate => InvalidDate
  | DateAt t =>
      let local := LocalTime z t in
      TimeClip
        (UTC z (MakeDate (ofZ (Day local))
                  (MakeTime hour (ofZ (MinFromTime local))
                     (ofZ (SecFromTime local)) (ofZ (msFromTime local)))))
  end.

End JsDate.

(** ** Types ([server/src/types/index.ts]) *)

Module Types.

Import JsNumber JsDate.

Inductive TicketStatus :=
  | OPEN | IN_PROGRESS | ON_HOLD | ESCALATED | RESOLVED | CLOSED | CANCELLED.

Inductive TicketCategory :=
  | COMPLAINT | SERVICE_REQUEST | INQUIRY | HOUSEKEEPING
  | FOOD_BEVERAGE | FRONT_DESK | MAINTENANCE | IT_SUPPORT.

Inductive UserRole := ADMIN | MANAGER | AGENT.

Inductive Channel := ch_email | ch_whatsapp | ch_sms | ch_internal.

Inductive Audience := to_guest | to_internal.

#[global] Instance TicketStatus_eq_dec : EqDecision TicketStatus.
Proof. solve_decision. Defined.

#[global] Instance TicketCategory_eq_dec : EqDecision TicketCategory.
Proof. solve_decision. Defined.

#[global] Instance UserRole_eq_dec : EqDecision UserRole.
Proof. solve_decision. Defined.

#[global] Instance Channel_eq_dec : EqDecision Channel.
Proof. solve_decision. Defined.

#[global] Instance Audience_eq_dec : EqDecision Audience.
Proof. solve_decision. Defined.

Record DaySchedule := {
  isWorkingDay : bool;
  startTime : option string;
  endTime : option string
}.

Record WorkingHours := {
  monday : DaySchedule;
  tuesday : DaySchedule;
  wednesday : DaySchedule;
  thursday : DaySchedule;
  friday : DaySchedule;
  saturday : DaySchedule;
  sunday : DaySchedule
}.

Record SLAConfig := {
  responseTimeHours : number;
  resolutionTimeHours : number;
  workingHours : WorkingHours;
  holidays : list Z;
  isPaused : bool;
  pauseReason : option string;
  pausedAt : option Z;
  resumedAt : option Z
}.

Record EscalationRecord := {
  level : Z;
  escalatedTo : string;
  escalatedBy : string;
  reason : string;
  escalatedAt : Z
}.

(** The text of an internal note.  The service itself stores four
    templates; [NoteText] is any other content. *)
Inductive NoteContent :=
  | StatusChangedTo (s : TicketStatus) (why : string)
  | AssignedToAgent (agentId : string)
  | EscalatedToLevel (lvl : Z) (why : string)
  | MergedTickets (ticketNumbers : list Z)
  | NoteText (s : string).

Record InternalNote := {
  content : NoteContent;
  addedBy : string;
  addedAt : Z
}.

Record TicketResponse := {
  body : string;
  sentBy : string;
  sentTo : Audience;
  channel : Channel;
  isAutomated : bool;
  sentAt : Z
}.

(** The fields of [Ticket] that the service reads or writes.  The ticket
    number [TKT-n] is kept as [n]. *)
Record Ticket := {
  id : string;
  ticketNumber : Z;
  description : string;
  category : TicketCategory;
  status : TicketStatus;
  assignedTo : option string;
  department : string;
  internalNotes : list InternalNote;
  responses : list TicketResponse;
  slaConfig : SLAConfig;
  escalationHistory : list EscalationRecord;
  isEscalated : bool;
  escalationLevel : Z;
  createdAt : Z;
  updatedAt : Z;
  resolvedAt : option Z;
  closedAt : option Z
}.

Record User := {
  userId : string;
  userDepartment : string;
  role : UserRole;
  isActive : bool
}.

(** A row of the [escalationRules] collection.  The two built-in fallback
    rules carry no department. *)
Record EscalationRule := {
  ruleDepartment : option string;
  ruleLevel : Z;
  escalateTo : string;
  timeoutHours : Z
}.

(** A row of the [slaConfigs] collection: a policy tagged with the
    department it belongs to. *)
Record SLAConfigRow := {
  configDepartment : string;
  config : SLAConfig
}.

(** [Partial<Ticket>]: an object that may carry any field of [Ticket].  A
    field that is absent is [None].  An optional field of [Ticket] may be
    present with the value [undefined], which is [Some None]. *)
Record TicketUpdates := {
  u_id : option string;
  u_ticketNumber : option Z;
  u_description : option string;
  u_category : option TicketCategory;
  u_status : option TicketStatus;
  u_assignedTo : option (option string);
  u_department : option string;
  u_internalNotes : option (list InternalNote);
  u_responses : option (list TicketResponse);
  u_slaConfig : option SLAConfig;
  u_escalationHistory : option (list EscalationRecord);
  u_isEscalated : option bool;
  u_escalationLevel : option Z;
  u_createdAt : option Z;
  u_updatedAt : option Z;
  u_resolvedAt : option (option Z);
  u_closedAt : option (option Z)
}.

Record SLACalculationResult := {
  responseDeadline : Date;
  resolutionDeadline : Date;
  isWithinResponseSLA : bool;
  isWithinResolutionSLA : bool;
  responseTimeRemaining : number;
  resolutionTimeRemaining : number
}.

End Types.

Import Types.

(** ** The store ([server/src/config/database.ts]) *)

Module Database.

Import JsNumber.

Record Collections := {
  tickets : list Ticket;
  users : list User;
  slaConfigs : list SLAConfigRow;
  escalationRules : list EscalationRule
}.

Definition withTickets (c : Collections) (ts : list Ticket) : Collections :=
  {| tickets := ts; users := users c; slaConfigs := slaConfigs c;
     escalationRules := escalationRules c |}.

(** [{ ...item, ...updates, updatedAt: new Date() }]: every field the
    updates carry replaces the one of the item, [updatedAt] excepted, which
    is set last. *)
Definition spread (item : Ticket) (u : TicketUpdates) (now : Z) : Ticket :=
  {| id := default (id item) (u_id u);
     ticketNumber := default (ticketNumber item) (u_ticketNumber u);
     description := default (description item) (u_description u);
     category := default (category item) (u_category u);
     status := default (status item) (u_status u);
     assignedTo := default (assignedTo item) (u_assignedTo u);
     department := default (department item) (u_department u);
     internalNotes := default (internalNotes item) (u_internalNotes u);
     responses := default (responses item) (u_responses u);
     slaConfig := default (slaConfig item) (u_slaConfig u);
     escalationHistory := default (escalationHistory item) (u_escalationHistory u);
     isEscalated := default (isEscalated item) (u_isEscalated u);
     escalationLevel := default (escalationLevel item) (u_escalationLevel u);
     createdAt := default (createdAt item) (u_createdAt u);
     updatedAt := now;
     resolvedAt := default (resolvedAt item) (u_resolvedAt u);
     closedAt := default (closedAt item) (u_closedAt u) |}.

(** [findIndex(item => item.id === id)] *)
Definition findIndex (i : string) (ts : list Ticket) : option (nat * Ticket) :=
  list_find (λ item, id item = i) ts.

(** [findById]: [find(item => item.id === id) || null] *)
Definition findById (c : Collections) (i : string) : option Ticket :=
  snd <$> findIndex i (tickets c).

(** [findBy] on the tickets collection: [filter(predicate)] *)
Definition findBy (c : Collections) (predicate : Ticket → bool) : list Ticket :=
  filter (λ t, predicate t = true) (tickets c).

(** [update]: the first row with the identifier is replaced by the spread of
    the old row and the updates; no such row, [null] and no change. *)
Definition update (c : Collections) (i : string) (u : TicketUpdates) (now : Z)
  : Collections * option Ticket :=
  match findIndex i (tickets c) with
  | None => (c, None)
  | Some (index, item) =>
      let item' := spread item u now in
      (withTickets c (<[index := item']> (tickets c)), Some item')
  end.

(** [create]: the new row gets its identifier and both timestamps, and is
    pushed at the end of the collection.  The caller passes the row without
    them; [newId] is the fresh uuid. *)
Definition create (c : Collections) (newId : string) (data : Ticket) (now : Z)
  : Collections * Ticket :=
  let newItem :=
    {| id := newId;
       ticketNumber := ticketNumber data;
       description := description data;
       category := category data;
       status := status data;
       assignedTo := assignedTo data;
       department := department data;
       internalNotes := internalNotes data;
       responses := responses data;
       slaConfig := slaConfig data;
       escalationHistory := escalationHistory data;
       isEscalated := isEscalated data;
       escalationLevel := escalationLevel data;
       createdAt := now;
       updatedAt := now;
       resolvedAt := resolvedAt data;
       closedAt := closedAt data |} in
  (withTickets c (tickets c ++ [newItem]), newItem).

(** [delete]: the first row with the identifier is spliced out; no such row,
    [false] and no change. *)
Definition delete (c : Collections) (i : string) : Collections * bool :=
  match findIndex i (tickets c) with
  | None => (c, false)
  | Some (index, _) => (withTickets c (base.delete index (tickets c)), true)
  end.

(** [Array.prototype.slice(start, end)]: a negative index counts from the
    end, both indices are clamped to the array, and an end before the
    start gives the empty array. *)
Definition slice {A} (l : list A) (start finish : Z) : list A :=
  let len := Z.of_nat (length l) in
  let clamp (k : Z) := if k <? 0 then Z.max (len + k) 0 else Z.min k len in
  let from := clamp start in
  let to := clamp finish in
  take (Z.to_nat (Z.max (to - from) 0)) (drop (Z.to_nat from) l).

(** [Array.prototype.sort(compare)].  For a consistent comparator the sort
    is stable, so its result is the one of inserting the elements, last
    first, each before the first element it does not sort after.  For a
    comparator that is not consistent the standard leaves the order to the
    engine, and the order of this insertion is one of those it allows. *)
Fixpoint insertBy {A} (compare : A → A → Z) (x : A) (l : list A) : list A :=
  match l with
  | [] => [x]
  | y :: rest =>
      if compare x y <=? 0 then x :: y :: rest
      else y :: insertBy compare x rest
  end.

Definition sort {A} (compare : A → A → Z) (l : list A) : list A :=
  foldr (insertBy compare) [] l.

(** What a row holds under the field a query sorts by, as the comparison
    sees it: nothing ([undefined], the row has no such field, as an open
    ticket has no [resolvedAt]); a number (a [Date] is compared by its time
    value, which is [NaN] for an invalid one; a boolean by 0 or 1); or a
    string (an enum member, or a date of a row that was reloaded from its
    JSON file, which is an ISO string there). *)
Inductive SortValue :=
  | SvUndefined
  | SvNumber (x : number)
  | SvString (s : string).

(** The order of two strings under [<]: by their first different
    character. *)
Definition stringLt (s s' : string) : bool :=
  match String.compare s s' with
  | Lt => true
  | _ => false
  end.

(** [ToNumber]: [undefined] is [NaN]; what a string reads as is left to
    [stringToNumber], the standard's [StringToNumber], which answers [NaN]
    for a string that reads as no number. *)
Definition ToNumber (stringToNumber : string → number) (v : SortValue)
  : number :=
  match v with
  | SvUndefined => NaN
  | SvNumber x => x
  | SvString s => stringToNumber s
  end.

(** [a < b]: two strings are compared as strings; anything else as numbers,
    and no comparison with [NaN] holds. *)
Definition lessThan (stringToNumber : string → number) (a b : SortValue)
  : bool :=
  match a, b with
  | SvString s, SvString s' => stringLt s s'
  | _, _ => ltb (ToNumber stringToNumber a) (ToNumber stringToNumber b)
  end.

(** The options of [findWithPagination].  [sortBy] names a field; it is
    given as the projection of that field, and not at all when the name is
    absent or empty.  A [sortOrder] other than ['desc'] sorts ascending. *)
Record PaginationOptions := {
  page : Z;
  limit : Z;
  sortBy : option (Ticket → SortValue);
  sortDesc : bool;
  filterBy : option (Ticket → bool)
}.

(** The comparator [findWithPagination] passes to [sort]; [a > b] is
    [b < a]. *)
Definition compareBy (stringToNumber : string → number)
    (key : Ticket → SortValue) (desc : bool) (a b : Ticket) : Z :=
  let aVal := key a in
  let bVal := key b in
  if desc
  then (if lessThan stringToNumber bVal aVal then -1
        else if lessThan stringToNumber aVal bVal then 1 else 0)
  else (if lessThan stringToNumber aVal bVal then -1
        else if lessThan stringToNumber bVal aVal then 1 else 0).

(** [Math.ceil(total / limit)]; the quotient by zero is no finite number. *)
Definition ceilDiv (total limit_ : Z) : option Z :=
  if limit_ =? 0 then None else Some (- ((- total) / limit_)).

Record Page := {
  data : list Ticket;
  pageNumber : Z;
  pageLimit : Z;
  total : Z;
  totalPages : option Z
}.

(** [findWithPagination] on the tickets collection.  Without a filter the
    array that is sorted is the stored one, and [sort] works in place: the
    collection comes back reordered. *)
Definition findWithPagination (stringToNumber : string → number)
    (c : Collections) (o : PaginationOptions) : Collections * Page :=
  let filtered :=
    match filterBy o with
    | Some f => filter (λ t, f t = true) (tickets c)
    | None => tickets c
    end in
  let sorted :=
    match sortBy o with
    | Some key => sort (compareBy stringToNumber key (sortDesc o)) filtered
    | None => filtered
    end in
  let c' :=
    match filterBy o with
    | Some _ => c
    | None => withTickets c sorted
    end in
  let total_ := Z.of_nat (length sorted) in
  let startIndex := (page o - 1) * limit o in
  let endIndex := startIndex + limit o in
  (c', {| data := slice sorted startIndex endIndex;
          pageNumber := page o;
          pageLimit := limit o;
          total := total_;
          totalPages := ceilDiv total_ (limit o) |}).

End Database.

Import Database.

(** ** Exceptions *)

Module Exceptions.

(** What is thrown: the two errors of [escalateTicket], and whatever a
    package throws, by its message. *)
Inductive Error :=
  | MaxEscalationLevelReached
  | TypeError
  | OtherError (message : string).

#[global] Instance Error_eq_dec : EqDecision Error.
Proof. solve_decision. Defined.

(** How a call ends. *)
Inductive Outcome (A : Type) :=
  | Return (a : A)
  | Throw (e : Error).

Arguments Return {A} a.
Arguments Throw {A} e.

(** One call after another: the first error ends the sequence. *)
Definition andThen {A B} (o : Outcome A) (k : A → Outcome B) : Outcome B :=
  match o with
  | Return a => k a
  | Throw e => Throw e
  end.

(** [xs.map(f)] for an [f] that may throw. *)
Fixpoint mapThrowing {A B} (f : A → Outcome B) (xs : list A)
  : Outcome (list B) :=
  match xs with
  | [] => Return []
  | x :: rest =>
      andThen (f x) (λ y, andThen (mapThrowing f rest) (λ ys, Return (y :: ys)))
  end.

End Exceptions.

Import Exceptions.

(** ** The classifier ([server/src/services/aiService.ts]) *)

Module AiService.

Import JsNumber.

Local Open Scope string_scope.

(** What the classifier is built on and this development does not look
    into: [String.prototype.toLowerCase] of the engine, and the packages
    [sentiment] and [natural].  A call of a package may throw.
    - [analyze text]: the score of [sentiment.analyze(text)];
    - [tokenize text]: [natural.WordTokenizer.tokenize(text)], [None] when
      the answer is falsy;
    - [stem token]: [natural.PorterStemmer.stem(token)]. *)
Record Platform := {
  toLowerCase : string → string;
  analyze : string → Outcome number;
  tokenize : string → Outcome (option (list string));
  stem : string → Outcome string
}.

(** [s.includes(sub)] *)
Fixpoint includes (s sub : string) : bool :=
  if String.prefix sub s then true
  else match s with
       | EmptyString => false
       | String _ rest => includes rest sub
       end.

(** [analyzeSentiment(text)] *)
Definition analyzeSentiment (platform : Platform) (text : string)
  : Outcome number :=
  analyze platform text.

(** [tokenizeAndStem(text)] *)
Definition tokenizeAndStem (platform : Platform) (text : string)
  : Outcome (list string) :=
  andThen (tokenize platform text) (λ answer,
    let tokens := default [] answer in
    mapThrowing (stem platform) tokens).

(** [categoryKeywords], in the order of [Object.entries]. *)
Definition categoryKeywords : list (TicketCategory * list string) :=
  [ (HOUSEKEEPING,
     [ "room"; "clean"; "dirty"; "towel"; "bed"; "bathroom"; "shower";
       "toilet"; "housekeeping"; "maid"; "vacuum"; "dust"; "linen";
       "pillow"; "blanket" ]);
    (FOOD_BEVERAGE,
     [ "food"; "restaurant"; "meal"; "breakfast"; "dinner"; "lunch"; "drink";
       "kitchen"; "chef"; "waiter"; "service"; "taste"; "cold"; "hot";
       "menu" ]);
    (FRONT_DESK,
     [ "check-in"; "check-out"; "reception"; "desk"; "key"; "card";
       "booking"; "reservation"; "bill"; "invoice"; "payment"; "front desk";
       "lobby" ]);
    (MAINTENANCE,
     [ "broken"; "repair"; "fix"; "maintenance"; "leak"; "light"; "ac";
       "air conditioning"; "heating"; "plumbing"; "electrical"; "elevator" ]);
    (IT_SUPPORT,
     [ "wifi"; "internet"; "tv"; "television"; "phone"; "technology";
       "computer"; "connection"; "network"; "password"; "login" ]) ].

Record CategorizationResult := {
  bestCategory : TicketCategory;
  confidence : number;
  matchedKeywords : list string
}.

(** One turn of the loop of [categorizeTicket]. *)
Definition betterMatch (tokens : list string) (bestMatch : CategorizationResult)
    (entry : TicketCategory * list string) : CategorizationResult :=
  let '(category_, keywords) := entry in
  let matches :=
    filter (λ keyword,
              existsb (λ token, includes token keyword || includes keyword token)
                      tokens = true)
           keywords in
  let confidence_ :=
    div (ofZ (Z.of_nat (length matches))) (ofZ (Z.of_nat (length keywords))) in
  if ltb (confidence bestMatch) confidence_
  then {| bestCategory := category_; confidence := confidence_;
          matchedKeywords := matches |}
  else bestMatch.

(** [categorizeTicket(content)]: the first category whose share of matched
    keywords is the largest, INQUIRY when nothing matches. *)
Definition categorizeTicket (platform : Platform) (content : string)
  : Outcome CategorizationResult :=
  andThen (tokenizeAndStem platform (toLowerCase platform content)) (λ tokens,
    Return (foldl (betterMatch tokens)
                  {| bestCategory := INQUIRY; confidence := ofZ 0;
                     matchedKeywords := [] |}
                  categoryKeywords)).

(** [extractKeywords(content)], as far as it can fail: the content is
    tokenized and stemmed; counting and ranking the tokens then cannot
    throw, and what they give goes into the field [keywords] of the ticket,
    which is none of the fields kept here. *)
Definition extractKeywords (platform : Platform) (content : string)
  : Outcome unit :=
  andThen (tokenizeAndStem platform (toLowerCase platform content)) (λ _,
    Return tt).

(** [generateSmartReplies(category, content)]: three canned replies per
    category; the content is not looked at.  The table has a row for every
    category, so the [|| replies[INQUIRY]] fallback never applies. *)
Definition generateSmartReplies (c : TicketCategory) (content : string)
  : list string :=
  match c with
  | COMPLAINT =>
      [ "Thank you for bringing this to our attention. We sincerely apologize for the inconvenience caused.";
        "We take your feedback seriously and are investigating this matter immediately.";
        "Your concerns are valid, and we are committed to resolving this issue promptly." ]
  | SERVICE_REQUEST =>
      [ "We've received your service request and will attend to it shortly.";
        "Our team is on the way to assist you with your request.";
        "Thank you for your request. We'll have someone address this within the hour." ]
  | HOUSEKEEPING =>
      [ "We apologize for the housekeeping issue. Our team will rectify this immediately.";
        "Housekeeping has been notified and will attend to your room right away.";
        "We're sorry about the cleanliness concern. This will be addressed within 30 minutes." ]
  | FOOD_BEVERAGE =>
      [ "We apologize for the dining experience issue. Our chef and management team will review this.";
        "Thank you for your feedback about our food service. We're taking immediate action to improve.";
        "We're sorry the meal didn't meet your expectations. We'd like to make this right for you." ]
  | FRONT_DESK =>
      [ "We apologize for any inconvenience at check-in/check-out. Our front desk manager will assist you.";
        "Thank you for your patience. We're working to resolve this front desk matter immediately.";
        "We understand your concern and our front office team is addressing this right away." ]
  | MAINTENANCE =>
      [ "We apologize for the maintenance issue. Our technical team has been dispatched to fix this.";
        "Maintenance has been notified and will resolve this issue as quickly as possible.";
        "We're sorry for the inconvenience. Our maintenance team will have this fixed shortly." ]
  | IT_SUPPORT =>
      [ "We apologize for the technical difficulties. Our IT team is working to resolve this immediately.";
        "Thank you for reporting the connectivity issue. We're addressing this right away.";
        "We understand how frustrating technical issues can be. Our IT support is on the case." ]
  | INQUIRY =>
      [ "Thank you for your inquiry. We're happy to provide you with the information you need.";
        "We appreciate your question and will provide you with a detailed response shortly.";
        "Thank you for reaching out. We'll ensure you get the assistance you need." ]
  end.

End AiService.

(** ** State and exceptions *)

Module Effects.

Inductive SLAKind := response_warning | resolution_warning.

(** What the service writes to the console; each line stands for the
    notification the method would send. *)
Inductive LogLine :=
  | TicketCreated (ticketNo : Z)
  | NotifyAssignment (ticketNo : Z) (agentId : string)
  | EscalationNotification (ticketNo : Z) (lvl : Z)
  | GuestResponse (ticketNo : Z) (ch : Channel)
  | SLAWarning (ticketNo : Z) (kind : SLAKind)
  | EscalationFailed (ticketNo : Z) (e : Error).

#[global] Instance SLAKind_eq_dec : EqDecision SLAKind.
Proof. solve_decision. Defined.

(** The service's world: the store, the ticket counter of the service
    instance and the console. *)
Record World := {
  db : Collections;
  ticketCounter : Z;
  console : list LogLine
}.

Definition M (A : Type) : Type := World → World * Outcome A.

Definition ret {A} (a : A) : M A := λ w, (w, Return a).

Definition throw {A} (e : Error) : M A := λ w, (w, Throw e).

(** A call that reads and writes nothing of the world. *)
Definition lift {A} (o : Outcome A) : M A := λ w, (w, o).

Definition bind {A B} (m : M A) (k : A → M B) : M B :=
  λ w, match m w with
       | (w', Return a) => k a w'
       | (w', Throw e) => (w', Throw e)
       end.

(** [try { m } catch (error) { h error }] *)
Definition tryCatch {A} (m : M A) (h : Error → M A) : M A :=
  λ w, match m w with
       | (w', Return a) => (w', Return a)
       | (w', Throw e) => h e w'
       end.

Definition getDb : M Collections := λ w, (w, Return (db w)).

Definition putDb (c : Collections) : M unit :=
  λ w, ({| db := c; ticketCounter := ticketCounter w; console := console w |},
        Return tt).

Definition log (l : LogLine) : M unit :=
  λ w, ({| db := db w; ticketCounter := ticketCounter w;
           console := console w ++ [l] |}, Return tt).

(** [this.ticketCounter++] *)
Definition nextTicketNumber : M Z :=
  λ w, ({| db := db w; ticketCounter := ticketCounter w + 1;
           console := console w |}, Return (ticketCounter w)).

(** [db.update('tickets', id, updates)] *)
Definition dbUpdate (i : string) (u : TicketUpdates) (now : Z)
  : M (option Ticket) :=
  λ w, let '(c, r) := update (db w) i u now in
       ({| db := c; ticketCounter := ticketCounter w; console := console w |},
        Return r).

(** [for (const x of xs) { body x }] *)
Fixpoint forOf {A} (xs : list A) (body : A → M unit) : M unit :=
  match xs with
  | [] => ret tt
  | x :: rest => bind (body x) (λ _, forOf rest body)
  end.

Definition when (b : bool) (m : M unit) : M unit :=
  if b then m else ret tt.

End Effects.

Import Effects.

Declare Scope service_scope.
Delimit Scope service_scope with service.
Notation "'let*' x ':=' m 'in' k" := (bind m (λ x, k))
  (at level 10, x name, m at level 100, k at level 200) : service_scope.

(** ** The ticket service ([server/src/services/ticketService.ts]) *)

Module TicketService.

Import JsNumber JsDate AiService.

Local Open Scope service_scope.

(** JavaScript truthiness of an optional string: [undefined] and the empty
    string are falsy. *)
Definition truthy (s : option string) : option string :=
  match s with
  | Some EmptyString => None
  | other => other
  end.

Record CreateTicketData := {
  data_description : string;
  data_category : option TicketCategory;
  data_department : option string;
  data_assignedTo : option string
}.

Definition getTicketById (i : string) : M (option Ticket) :=
  let* c := getDb in ret (findById c i).

Definition getDepartmentByCategory (c : TicketCategory) : string :=
  match c with
  | HOUSEKEEPING => "Housekeeping"
  | FOOD_BEVERAGE => "Food & Beverage"
  | FRONT_DESK => "Front Desk"
  | MAINTENANCE => "Maintenance"
  | IT_SUPPORT => "IT Support"
  | COMPLAINT => "Front Desk"
  | SERVICE_REQUEST => "Front Desk"
  | INQUIRY => "Front Desk"
  end%string.

Definition everyDay (d : DaySchedule) (sun : DaySchedule) : WorkingHours :=
  {| monday := d; tuesday := d; wednesday := d; thursday := d; friday := d;
     saturday := d; sunday := sun |}.

Definition getDefaultSLAConfig : SLAConfig :=
  {| responseTimeHours := ofZ 2;
     resolutionTimeHours := ofZ 24;
     workingHours :=
       everyDay {| isWorkingDay := true; startTime := Some "09:00"%string;
                   endTime := Some "18:00"%string |}
                {| isWorkingDay := false; startTime := None; endTime := None |};
     holidays := [];
     isPaused := false;
     pauseReason := None;
     pausedAt := None;
     resumedAt := None |}.

Definition getSLAConfig (c : Collections) (dept : string) : SLAConfig :=
  let configs :=
    filter (λ r, configDepartment r = dept ∨ configDepartment r = "default"%string)
           (slaConfigs c) in
  match list_find (λ r, configDepartment r = dept) configs with
  | Some (_, r) => config r
  | None =>
      match list_find (λ r, configDepartment r = "default"%string) configs with
      | Some (_, r) => config r
      | None => getDefaultSLAConfig
      end
  end.

Definition getDefaultAgentForDepartment (c : Collections) (dept : string)
  : option string :=
  let agents :=
    filter (λ u, userDepartment u = dept ∧ role u = AGENT ∧ isActive u = true)
           (users c) in
  match agents with
  | a :: _ => Some (userId a)
  | [] => None
  end.

Definition fallbackRules : list EscalationRule :=
  [ {| ruleDepartment := None; ruleLevel := 1; escalateTo := "manager"%string;
       timeoutHours := 4 |};
    {| ruleDepartment := None; ruleLevel := 2; escalateTo := "admin"%string;
       timeoutHours := 8 |} ].

(** The department's escalation ladder: the stored rules of the department
    and of ['default'], in store order, and the two built-in rules when
    there is none. *)
Definition getEscalationRules (c : Collections) (dept : string)
  : list EscalationRule :=
  let rules :=
    filter (λ r, ruleDepartment r = Some dept
                 ∨ ruleDepartment r = Some "default"%string)
           (escalationRules c) in
  match rules with
  | [] => fallbackRules
  | _ => rules
  end.

(** The stub of the source: the hours are added to the hour field of the
    start date; the policy is not looked at. *)
Definition addWorkingHours (tz : Zone) (startDate : Date) (hours : number)
    (sla : SLAConfig) : Date :=
  let endDate := startDate in
  setHours tz endDate (add (getHours tz endDate) hours).

Definition notifyAssignment (t : Ticket) (agentId : string) : M unit :=
  log (NotifyAssignment (ticketNumber t) agentId).

Definition sendEscalationNotifications (t : Ticket) (r : EscalationRecord)
  : M unit :=
  log (EscalationNotification (ticketNumber t) (level r)).

Definition sendGuestResponse (t : Ticket) (text : string) (ch : Channel)
  : M unit :=
  log (GuestResponse (ticketNumber t) ch).

Definition sendSLAWarning (t : Ticket) (kind : SLAKind) : M unit :=
  log (SLAWarning (ticketNumber t) kind).

Definition addInternalNote (now : Z) (ticketId : string) (text : NoteContent)
    (by_ : string) : M bool :=
  let* found := getTicketById ticketId in
  match found with
  | None => ret false
  | Some ticket =>
      let note := {| content := text; addedBy := by_; addedAt := now |} in
      let* updatedTicket :=
        dbUpdate ticketId
          {| u_status := None; u_assignedTo := None;
             u_internalNotes := Some (internalNotes ticket ++ [note]);
             u_responses := None; u_escalationHistory := None;
             u_isEscalated := None; u_escalationLevel := None;
             u_resolvedAt := None; u_closedAt := None;
             u_id := None; u_ticketNumber := None; u_description := None;
             u_category := None; u_department := None; u_slaConfig := None;
             u_createdAt := None; u_updatedAt := None |} now in
      ret (bool_decide (is_Some updatedTicket))
  end.

Definition addTicketResponse (now : Z) (ticketId : string) (text : string)
    (by_ : string) (to : Audience) (ch : Channel) (automated : bool) : M bool :=
  let* found := getTicketById ticketId in
  match found with
  | None => ret false
  | Some ticket =>
      let response :=
        {| body := text; sentBy := by_; sentTo := to; channel := ch;
           isAutomated := automated; sentAt := now |} in
      let* updatedTicket :=
        dbUpdate ticketId
          {| u_status := None; u_assignedTo := None; u_internalNotes := None;
             u_responses := Some (responses ticket ++ [response]);
             u_escalationHistory := None; u_isEscalated := None;
             u_escalationLevel := None; u_resolvedAt := None;
             u_closedAt := None;
             u_id := None; u_ticketNumber := None; u_description := None;
             u_category := None; u_department := None; u_slaConfig := None;
             u_createdAt := None; u_updatedAt := None |} now in
      let* _ := when (bool_decide (to = to_guest ∧ ch ≠ ch_internal))
                     (sendGuestResponse ticket text ch) in
      ret (bool_decide (is_Some updatedTicket))
  end.

Definition sendAutoResponse (now : Z) (t : Ticket) : M unit :=
  let smartReplies := AiService.generateSmartReplies (category t) (description t) in
  match smartReplies with
  | first :: _ =>
      let* _ := addTicketResponse now (id t) first "system" to_guest ch_email true in
      ret tt
  | [] => ret tt
  end.

(** [createTicket].  [newId] is the uuid the store draws.  The counter is
    advanced first; the description is then analysed, and an error of the
    analysis ends the call before anything is stored.  The priority
    ([data.priority || aiService.determinePriority(...)], which reads strings
    only and cannot throw) goes into a field that is not kept here, as do
    [data.sourceData.reviewRating] and [data.guestDetails.name]; the request
    carries both objects, which the routes see to. *)
Definition createTicket (platform : Platform) (now : Z) (newId : string)
    (data : CreateTicketData) : M Ticket :=
  let* number := nextTicketNumber in
  let* sentimentAnalysis :=
    lift (analyzeSentiment platform (data_description data)) in
  let* categorization :=
    match data_category data with
    | Some given => ret given
    | None =>
        let* result := lift (categorizeTicket platform (data_description data)) in
        ret (bestCategory result)
    end in
  let* keywords := lift (extractKeywords platform (data_description data)) in
  let dept := default (getDepartmentByCategory categorization)
                      (truthy (data_department data)) in
  let* c := getDb in
  let sla := getSLAConfig c dept in
  let assignee := match truthy (data_assignedTo data) with
                  | Some a => Some a
                  | None => getDefaultAgentForDepartment c dept
                  end in
  let ticket :=
    {| id := EmptyString;
       ticketNumber := number;
       description := data_description data;
       category := categorization;
       status := OPEN;
       assignedTo := assignee;
       department := dept;
       internalNotes := [];
       responses := [];
       slaConfig := sla;
       escalationHistory := [];
       isEscalated := false;
       escalationLevel := 0;
       createdAt := 0;
       updatedAt := 0;
       resolvedAt := None;
       closedAt := None |} in
  let '(c', savedTicket) := create c newId ticket now in
  let* _ := putDb c' in
  let* _ := sendAutoResponse now savedTicket in
  let* _ := match truthy assignee with
            | Some a => notifyAssignment savedTicket a
            | None => ret tt
            end in
  let* _ := log (TicketCreated number) in
  ret savedTicket.

Definition updateTicketStatus (now : Z) (ticketId : string) (s : TicketStatus)
    (updatedBy : string) (why : option string) : M (option Ticket) :=
  let updates :=
    {| u_status := Some s; u_assignedTo := None; u_internalNotes := None;
       u_responses := None; u_escalationHistory := None; u_isEscalated := None;
       u_escalationLevel := None;
       u_resolvedAt := if decide (s = RESOLVED) then Some (Some now) else None;
       u_closedAt := if decide (s = RESOLVED) then None
                     else if decide (s = CLOSED) then Some (Some now)
                          else None;
       u_id := None; u_ticketNumber := None; u_description := None;
       u_category := None; u_department := None; u_slaConfig := None;
       u_createdAt := None; u_updatedAt := None |} in
  let* updatedTicket := dbUpdate ticketId updates now in
  let* _ := match updatedTicket, truthy why with
            | Some _, Some r =>
                let* _ := addInternalNote now ticketId (StatusChangedTo s r) updatedBy in
                ret tt
            | _, _ => ret tt
            end in
  ret updatedTicket.

Definition assignTicket (now : Z) (ticketId agentId assignedBy : string)
  : M (option Ticket) :=
  let* ticket :=
    dbUpdate ticketId
      {| u_status := Some IN_PROGRESS; u_assignedTo := Some (Some agentId);
         u_internalNotes := None; u_responses := None;
         u_escalationHistory := None; u_isEscalated := None;
         u_escalationLevel := None; u_resolvedAt := None;
         u_closedAt := None;
         u_id := None; u_ticketNumber := None; u_description := None;
         u_category := None; u_department := None; u_slaConfig := None;
         u_createdAt := None; u_updatedAt := None |} now in
  let* _ := match ticket with
            | Some t =>
                let* _ := addInternalNote now ticketId (AssignedToAgent agentId)
                                          assignedBy in
                notifyAssignment t agentId
            | None => ret tt
            end in
  ret ticket.

(** [escalationRules[escalationLevel - 1]]: [undefined] outside the array. *)
Definition ruleAt (rules : list EscalationRule) (index : Z)
  : option EscalationRule :=
  if index <? 0 then None else rules !! Z.to_nat index.

Definition escalateTicket (now : Z) (ticketId escalatedBy_ why : string)
  : M (option Ticket) :=
  let* found := getTicketById ticketId in
  match found with
  | None => ret None
  | Some ticket =>
      let escalationLevel_ := escalationLevel ticket + 1 in
      let* c := getDb in
      let rules := getEscalationRules c (department ticket) in
      if Z.of_nat (length rules) <? escalationLevel_
      then throw MaxEscalationLevelReached
      else
        match ruleAt rules (escalationLevel_ - 1) with
        | None => throw TypeError
        | Some nextLevelRule =>
            let escalationRecord :=
              {| level := escalationLevel_;
                 escalatedTo := escalateTo nextLevelRule;
                 escalatedBy := escalatedBy_;
                 reason := why;
                 escalatedAt := now |} in
            let* updatedTicket :=
              dbUpdate ticketId
                {| u_status := Some ESCALATED;
                   u_assignedTo := Some (Some (escalateTo nextLevelRule));
                   u_internalNotes := None;
                   u_responses := None;
                   u_escalationHistory :=
                     Some (escalationHistory ticket ++ [escalationRecord]);
                   u_isEscalated := Some true;
                   u_escalationLevel := Some escalationLevel_;
                   u_resolvedAt := None;
                   u_closedAt := None;
                   u_id := None; u_ticketNumber := None; u_description := None;
                   u_category := None; u_department := None; u_slaConfig := None;
                   u_createdAt := None; u_updatedAt := None |} now in
            let* _ := match updatedTicket with
                      | Some t =>
                          let* _ := sendEscalationNotifications t escalationRecord in
                          let* _ := addInternalNote now ticketId
                                      (EscalatedToLevel escalationLevel_ why)
                                      escalatedBy_ in
                          ret tt
                      | None => ret tt
                      end in
            ret updatedTicket
        end
  end.

(** [Math.max(0, (deadline.getTime() - now.getTime()) / (1000 * 60 * 60))]:
    hours, a Number. *)
Definition hoursRemaining (deadline : Date) (now : Z) : number :=
  max0 (div (sub (getTime deadline) (ofZ now)) (ofZ (1000 * 60 * 60))).

Definition calculateSLA (tz : Zone) (now : Z) (ticket : Ticket)
  : SLACalculationResult :=
  let created := newDate (createdAt ticket) in
  let sla := slaConfig ticket in
  let responseDeadline_ := addWorkingHours tz created (responseTimeHours sla) sla in
  let resolutionDeadline_ := addWorkingHours tz created (resolutionTimeHours sla) sla in
  {| responseDeadline := responseDeadline_;
     resolutionDeadline := resolutionDeadline_;
     isWithinResponseSLA :=
       match responses ticket with
       | first :: _ => dateLe (newDate (sentAt first)) responseDeadline_
       | [] => dateLe (DateAt now) responseDeadline_
       end;
     isWithinResolutionSLA :=
       match resolvedAt ticket with
       | Some resolved => dateLe (newDate resolved) resolutionDeadline_
       | None => dateLe (DateAt now) resolutionDeadline_
       end;
     responseTimeRemaining := hoursRemaining responseDeadline_ now;
     resolutionTimeRemaining := hoursRemaining resolutionDeadline_ now |}.

(** The statuses the sweep selects:
    [[OPEN, IN_PROGRESS].includes(ticket.status)]. *)
Definition isOpen (t : Ticket) : bool :=
  bool_decide (status t ∈ [OPEN; IN_PROGRESS]).

(** What the sweep does with one ticket of its snapshot. *)
Definition sweepTicket (tz : Zone) (now : Z) (ticket : Ticket) : M unit :=
  let slaResult := calculateSLA tz now ticket in
  let* _ :=
    when (leb (resolutionTimeRemaining slaResult) (ofZ 1)
          && negb (isEscalated ticket))
      (tryCatch
         (let* _ := escalateTicket now (id ticket) "system"
                      "Auto-escalated due to SLA breach risk" in
          ret tt)
         (λ error, log (EscalationFailed (ticketNumber ticket) error))) in
  let* _ :=
    when (leb (responseTimeRemaining slaResult) half
          && bool_decide (length (responses ticket) = 0%nat))
      (sendSLAWarning ticket response_warning) in
  when (leb (resolutionTimeRemaining slaResult) (ofZ 2)
        && negb (bool_decide (is_Some (resolvedAt ticket))))
    (sendSLAWarning ticket resolution_warning).

(** [checkSLABreaches]: the snapshot [openTickets] is taken once, before the
    loop; the loop body reads the snapshot's ticket and escalates through
    the store. *)
Definition checkSLABreaches (tz : Zone) (now : Z) : M unit :=
  let* c := getDb in
  let openTickets := findBy c isOpen in
  forOf openTickets (sweepTicket tz now).

(** [`TKT-${n}`] *)
Definition showTicketNumber (n : Z) : string := "TKT-" +:+ pretty n.

(** The separator of [join('\n\n')]: two line feeds. *)
Definition blankLine : string :=
  String (Ascii.ascii_of_nat 10) (String (Ascii.ascii_of_nat 10) EmptyString).

(** The comparator of the notes in [mergeTickets], the difference of two
    time values: its sign is the sign of the difference of the whole
    numbers, and with an invalid date it is [NaN], which [sort] takes
    for 0. *)
Definition byTimeAdded (a b : Date) : Z :=
  match a, b with
  | DateAt x, DateAt y => x - y
  | _, _ => 0
  end.

(** [mergeTickets]: the secondaries are the identifiers that are stored, in
    the order given, as often as given.  The primary gets the descriptions
    joined and the notes of all, sorted by the time they were added; each
    secondary is closed; the primary gets a note.  The ticket returned is
    the primary as the first update left it. *)
Definition mergeTickets (now : Z) (primaryTicketId : string)
    (secondaryTicketIds : list string) (mergedBy : string)
  : M (option Ticket) :=
  let* found := getTicketById primaryTicketId in
  match found with
  | None => ret None
  | Some primaryTicket =>
      let* c := getDb in
      let secondaryTickets := omap (findById c) secondaryTicketIds in
      let combinedDescription :=
        String.concat blankLine
          (description primaryTicket ::
           ((λ t, "[Merged from " +:+ showTicketNumber (ticketNumber t)
                  +:+ "]: " +:+ description t) <$> secondaryTickets)) in
      let combinedNotes :=
        sort (λ a b, byTimeAdded (newDate (addedAt a)) (newDate (addedAt b)))
             (internalNotes primaryTicket
              ++ (secondaryTickets ≫= internalNotes)) in
      let* updatedTicket :=
        dbUpdate primaryTicketId
          {| u_status := None; u_assignedTo := None;
             u_internalNotes := Some combinedNotes;
             u_responses := None; u_escalationHistory := None;
             u_isEscalated := None; u_escalationLevel := None;
             u_resolvedAt := None; u_closedAt := None;
             u_id := None; u_ticketNumber := None;
             u_description := Some combinedDescription;
             u_category := None; u_department := None; u_slaConfig := None;
             u_createdAt := None; u_updatedAt := None |} now in
      let* _ :=
        forOf secondaryTickets (λ secondaryTicket,
          let* _ := updateTicketStatus now (id secondaryTicket) CLOSED mergedBy
                      (Some ("Merged into ticket "
                             +:+ showTicketNumber (ticketNumber primaryTicket))) in
          ret tt) in
      let* _ := addInternalNote now primaryTicketId
                  (MergedTickets (ticketNumber <$> secondaryTickets))
                  mergedBy in
      ret updatedTicket
  end.

(** [Math.max(...values)]; of no value it is no finite number. *)
Definition mathMax (values : list Z) : option Z :=
  match values with
  | [] => None
  | v :: rest => Some (foldr Z.max v rest)
  end.

(** [this.ticketCounter = n] *)
Definition setTicketCounter (n : Z) : M unit :=
  λ w, ({| db := db w; ticketCounter := n; console := console w |}, Return tt).

(** [initializeTicketCounter], run by the constructor: with tickets in the
    store the counter restarts one above the largest stored ticket number;
    with none it keeps its initial value. *)
Definition initializeTicketCounter : M unit :=
  let* c := getDb in
  if bool_decide (0 < length (tickets c))%nat
  then match mathMax (ticketNumber <$> tickets c) with
       | Some maxTicketNumber => setTicketCounter (maxTicketNumber + 1)
       | None => ret tt
       end
  else ret tt.

End TicketService.

Import TicketService JsNumber JsDate AiService.

(** ** Relations between the world before and after a run *)

(** The row under identifier [j] is the same before and after. *)
Definition untouched (j : string) (w w' : World) : Prop :=
  findById (db w') j = findById (db w) j.

(** The console grew by lines that all satisfy [P]. *)
Definition emits (P : LogLine → Prop) (w w' : World) : Prop :=
  ∃ lines, console w' = console w ++ lines ∧ Forall P lines.

(** The store holds the same identifiers, in the same order. *)
Definition sameIds (w w' : World) : Prop :=
  id <$> tickets (db w') = id <$> tickets (db w).

(** [R] relates every world to the world a run of [m] leaves. *)
Definition Preserves (R : World → World → Prop) {A} (m : M A) : Prop :=
  ∀ w, R w (fst (m w)).


(** ** The behaviour the specification words describe

    Definitions of this module follow the words of the specification, not
    the source; the properties below compare the service with them. *)

Module Spec.

Import JsNumber JsDate.

(** The transition table of the specification's state machine:
    OPEN to IN_PROGRESS; IN_PROGRESS to ON_HOLD, ESCALATED or RESOLVED; each
    of these three to CLOSED; ESCALATED and ON_HOLD back to IN_PROGRESS;
    RESOLVED reopened to IN_PROGRESS; CANCELLED from every non-terminal
    state; nothing out of CLOSED or CANCELLED. *)
Definition allowedTransition (from to : TicketStatus) : bool :=
  match from, to with
  | OPEN, IN_PROGRESS => true
  | IN_PROGRESS, (ON_HOLD | ESCALATED | RESOLVED) => true
  | (ON_HOLD | ESCALATED | RESOLVED), CLOSED => true
  | (ON_HOLD | ESCALATED | RESOLVED), IN_PROGRESS => true
  | (OPEN | IN_PROGRESS | ON_HOLD | ESCALATED | RESOLVED), CANCELLED => true
  | _, _ => false
  end.

(** Terminal states of the specification. *)
Definition isTerminal (s : TicketStatus) : bool :=
  match s with
  | CLOSED | CANCELLED => true
  | _ => false
  end.

(** "Resolved/terminal" states of the [resolvedAt] invariant. *)
Definition isResolvedOrTerminal (s : TicketStatus) : bool :=
  match s with
  | RESOLVED | CLOSED | CANCELLED => true
  | _ => false
  end.

(** A policy that was paused at [since] for a total duration [p] and then
    resumed, in the fields the policy type has. *)
Definition pausedThenResumed (sla : SLAConfig) (since p : Z) : SLAConfig :=
  {| responseTimeHours := responseTimeHours sla;
     resolutionTimeHours := resolutionTimeHours sla;
     workingHours := workingHours sla;
     holidays := holidays sla;
     isPaused := false;
     pauseReason := pauseReason sla;
     pausedAt := Some since;
     resumedAt := Some (since + p) |}.

(** A decimal digit. *)
Definition digit (a : Ascii.ascii) : option Z :=
  let n := Z.of_nat (Ascii.nat_of_ascii a) in
  if (48 <=? n) && (n <=? 57) then Some (n - 48) else None.

(** ["HH:mm"] as minutes since midnight. *)
Definition minutesOfHHmm (s : string) : option Z :=
  match s with
  | String h1 (String h0 (String sep (String m1 (String m0 EmptyString)))) =>
      match digit h1, digit h0, digit m1, digit m0 with
      | Some a, Some b, Some c, Some d =>
          if Ascii.eqb sep ":"%char
          then Some ((a * 10 + b) * 60 + c * 10 + d)
          else None
      | _, _, _, _ => None
      end
  | _ => None
  end.

(** Day of the week of a local time value, 0 for Sunday (the epoch was a
    Thursday). *)
Definition WeekDay (t : Z) : Z := (Day t + 4) mod 7.

Definition scheduleOf (wh : WorkingHours) (weekday : Z) : DaySchedule :=
  match weekday with
  | 0 => sunday wh
  | 1 => monday wh
  | 2 => tuesday wh
  | 3 => wednesday wh
  | 4 => thursday wh
  | 5 => friday wh
  | _ => saturday wh
  end.

(** The minute that starts at [t] counts as working time: its local date is
    no configured holiday, its weekday is a working day and it lies in that
    day's window. *)
Definition isWorkingMinute (tz : Zone) (sla : SLAConfig) (t : Z) : bool :=
  let lt := LocalTime tz t in
  let holiday :=
    existsb (λ h, Day (LocalTime tz h) =? Day lt) (holidays sla) in
  let d := scheduleOf (workingHours sla) (WeekDay lt) in
  let minuteOfDay := (lt mod msPerDay) / msPerMinute in
  negb holiday && isWorkingDay d &&
  match startTime d ≫= minutesOfHHmm, endTime d ≫= minutesOfHHmm with
  | Some from, Some to => (from <=? minuteOfDay) && (minuteOfDay <? to)
  | _, _ => false
  end.

(** The working minutes among the whole minutes from [start] up to [finish]. *)
Definition workingMinutesBetween (tz : Zone) (sla : SLAConfig) (start finish : Z)
  : Z :=
  let minutes := Z.to_nat ((finish - start) / msPerMinute) in
  Z.of_nat
    (length
       (filter (λ t, isWorkingMinute tz sla t = true)
               ((λ k, start + Z.of_nat k * msPerMinute) <$> seq 0 minutes))).

End Spec.

(** ** Scenarios *)

Module Scenario.

Import AiService.

Definition hour : Z := 3600000.

Definition emptyWorld : World :=
  {| db := {| tickets := []; users := []; slaConfigs := [];
              escalationRules := [] |};
     ticketCounter := 1000;
     console := [] |}.

Definition complaint : CreateTicketData :=
  {| data_description := "The room was not cleaned";
     data_category := None;
     data_department := None;
     data_assignedTo := None |}.

(** A ticket under the default policy (2 h response, 24 h resolution, ladder
    of two levels), in a given status, with no response recorded. *)
Definition plainTicket (i : string) (s : TicketStatus) (created : Z) : Ticket :=
  {| id := i;
     ticketNumber := 1000;
     description := "The room was not cleaned";
     category := COMPLAINT;
     status := s;
     assignedTo := Some "agent-1";
     department := "Front Desk";
     internalNotes := [];
     responses := [];
     slaConfig := getDefaultSLAConfig;
     escalationHistory := [];
     isEscalated := false;
     escalationLevel := 0;
     createdAt := created;
     updatedAt := created;
     resolvedAt := None;
     closedAt := None |}.

Definition worldOf (ts : list Ticket) : World :=
  {| db := {| tickets := ts; users := []; slaConfigs := [];
              escalationRules := [] |};
     ticketCounter := 2000;
     console := [] |}.


(** A ticket as one escalation leaves it: flagged, ESCALATED, at level 1,
    assigned to the first ladder entry, with one record. *)
Definition escalatedOnce (i : string) (created : Z) : Ticket :=
  {| id := i;
     ticketNumber := 1000;
     description := "The room was not cleaned";
     category := COMPLAINT;
     status := ESCALATED;
     assignedTo := Some "manager";
     department := "Front Desk";
     internalNotes := [];
     responses := [];
     slaConfig := getDefaultSLAConfig;
     escalationHistory :=
       [{| level := 1; escalatedTo := "manager"; escalatedBy := "system";
           reason := "Auto-escalated due to SLA breach risk";
           escalatedAt := created + 23 * hour |}];
     isEscalated := true;
     escalationLevel := 1;
     createdAt := created;
     updatedAt := created + 23 * hour;
     resolvedAt := None;
     closedAt := None |}.

(** The ticket with another policy. *)
Definition withPolicy (t : Ticket) (sla : SLAConfig) : Ticket :=
  {| id := id t; ticketNumber := ticketNumber t; description := description t;
     category := category t; status := status t; assignedTo := assignedTo t;
     department := department t; internalNotes := internalNotes t;
     responses := responses t; slaConfig := sla;
     escalationHistory := escalationHistory t; isEscalated := isEscalated t;
     escalationLevel := escalationLevel t; createdAt := createdAt t;
     updatedAt := updatedAt t; resolvedAt := resolvedAt t;
     closedAt := closedAt t |}.

(** The ticket at another escalation level. *)
Definition atLevel (t : Ticket) (lvl : Z) : Ticket :=
  {| id := id t; ticketNumber := ticketNumber t; description := description t;
     category := category t; status := status t; assignedTo := assignedTo t;
     department := department t; internalNotes := internalNotes t;
     responses := responses t; slaConfig := slaConfig t;
     escalationHistory := escalationHistory t; isEscalated := isEscalated t;
     escalationLevel := lvl; createdAt := createdAt t;
     updatedAt := updatedAt t; resolvedAt := resolvedAt t;
     closedAt := closedAt t |}.

(** The policy with other pause fields. *)
Definition withPause (sla : SLAConfig) (paused : bool) (why : option string)
    (since resumed : option Z) : SLAConfig :=
  {| responseTimeHours := responseTimeHours sla;
     resolutionTimeHours := resolutionTimeHours sla;
     workingHours := workingHours sla;
     holidays := holidays sla;
     isPaused := paused;
     pauseReason := why;
     pausedAt := since;
     resumedAt := resumed |}.

(** The policy with another calendar. *)
Definition withCalendar (sla : SLAConfig) (wh : WorkingHours) (hol : list Z)
  : SLAConfig :=
  {| responseTimeHours := responseTimeHours sla;
     resolutionTimeHours := resolutionTimeHours sla;
     workingHours := wh;
     holidays := hol;
     isPaused := isPaused sla;
     pauseReason := pauseReason sla;
     pausedAt := pausedAt sla;
     resumedAt := resumedAt sla |}.

(** Stand-ins for the engine and the packages: lower case for the letters
    A to Z, a score of zero, the words between blanks as tokens, every
    token its own stem. *)
Definition lowerAscii (a : Ascii.ascii) : Ascii.ascii :=
  let n := Ascii.nat_of_ascii a in
  if ((65 <=? n) && (n <=? 90))%nat then Ascii.ascii_of_nat (n + 32) else a.

Fixpoint lowerCase (s : string) : string :=
  match s with
  | EmptyString => EmptyString
  | String a rest => String (lowerAscii a) (lowerCase rest)
  end.

Fixpoint wordsFrom (s : string) (current : string) : list string :=
  match s with
  | EmptyString =>
      match current with EmptyString => [] | _ => [current] end
  | String a rest =>
      if Ascii.eqb a " "%char
      then match current with
           | EmptyString => wordsFrom rest EmptyString
           | _ => current :: wordsFrom rest EmptyString
           end
      else wordsFrom rest (current +:+ String a EmptyString)
  end.

Definition standIn : Platform :=
  {| toLowerCase := lowerCase;
     analyze := λ _, Return (ofZ 0);
     tokenize := λ text, Return (Some (wordsFrom text EmptyString));
     stem := λ token, Return token |}.

(** A tokenizer that is no function: the call throws. *)
Definition brokenTokenizer : Platform :=
  {| toLowerCase := lowerCase;
     analyze := λ _, Return (ofZ 0);
     tokenize := λ _, Throw TypeError;
     stem := λ token, Return token |}.

(** The policy with other budgets. *)
Definition withBudgets (sla : SLAConfig) (response resolution : number)
  : SLAConfig :=
  {| responseTimeHours := response;
     resolutionTimeHours := resolution;
     workingHours := workingHours sla;
     holidays := holidays sla;
     isPaused := isPaused sla;
     pauseReason := pauseReason sla;
     pausedAt := pausedAt sla;
     resumedAt := resumedAt sla |}.

(** One and a half. *)
Definition oneAndAHalf : number := div (ofZ 3) (ofZ 2).

(** Noon UTC on 30 March 2024, and a zone that is one hour ahead of UTC
    until 01:00 UTC on 31 March 2024 and two hours ahead from then on, as
    Central European time was. *)
Definition noon30March2024 : Z := 1711800000000.

Definition centralEurope2024 : Zone :=
  clockChange 1711846800000 hour (2 * hour).

End Scenario.

(** ** Paginated queries *)

(** The rows a paginated query ranges over: the rows that pass the filter,
    sorted when a sort field is given. *)
Definition resultRows (stringToNumber : string → number) (c : Collections)
    (o : PaginationOptions) : list Ticket :=
  let filtered :=
    match filterBy o with
    | Some f => filter (λ t, f t = true) (tickets c)
    | None => tickets c
    end in
  match sortBy o with
  | Some key => sort (compareBy stringToNumber key (sortDesc o)) filtered
  | None => filtered
  end.

(** The rows a query sorts: those that pass its filter. *)
Definition candidateRows (c : Collections) (o : PaginationOptions)
  : list Ticket :=
  match filterBy o with
  | Some f => filter (λ t, f t = true) (tickets c)
  | None => tickets c
  end.

(** A number other than [NaN]; a string. *)
Definition isNumber (v : SortValue) : bool :=
  match v with
  | SvNumber x => negb (isNaN x)
  | _ => false
  end.

Definition isString (v : SortValue) : bool :=
  match v with
  | SvString _ => true
  | _ => false
  end.

(** The kinds of sort values that [<] orders. *)
Definition orderedKind (good : SortValue → bool) : Prop :=
  good = isNumber ∨ good = isString.

(** Rows whose sort values [<] orders: all of them numbers other than
    [NaN], or all of them strings. *)
Definition comparable (key : Ticket → SortValue) (rows : list Ticket) : Prop :=
  Forall (λ t, isNumber (key t) = true) rows
  ∨ Forall (λ t, isString (key t) = true) rows.

(** The order asked for: descending, no row is less than a later one;
    ascending, no row is less than an earlier one. *)
Definition ordered (stringToNumber : string → number)
    (key : Ticket → SortValue) (desc : bool) (a b : Ticket) : Prop :=
  if desc then lessThan stringToNumber (key a) (key b) = false
  else lessThan stringToNumber (key b) (key a) = false.

#[global] Instance number_eq_dec : EqDecision JsNumber.number.
Proof. unfold JsNumber.number. solve_decision. Defined.

#[global] Instance SortValue_eq_dec : EqDecision SortValue.
Proof. solve_decision. Defined.

(** ** The service as a whole *)

(** The ladder a ticket is escalated along. *)
Definition ladderOf (c : Collections) (t : Ticket) : list EscalationRule :=
  getEscalationRules c (department t).

(** How a stored ticket may differ from an earlier state of itself: its
    identity, department, creation time and policy are fixed; its level only
    grows, and grows only within the ladder; its history and its responses
    are only appended to; none of its notes is lost, though a merge may
    put others between them; the escalation flag and the two closing
    timestamps, once set, stay set. *)
Definition evolvesFrom (c : Collections) (t t' : Ticket) : Prop :=
  id t' = id t
  ∧ ticketNumber t' = ticketNumber t
  ∧ department t' = department t
  ∧ createdAt t' = createdAt t
  ∧ slaConfig t' = slaConfig t
  ∧ escalationLevel t <= escalationLevel t'
  ∧ (escalationLevel t' = escalationLevel t
     ∨ escalationLevel t' <= Z.of_nat (length (ladderOf c t)))
  ∧ escalationHistory t `prefix_of` escalationHistory t'
  ∧ responses t `prefix_of` responses t'
  ∧ internalNotes t ⊆+ internalNotes t'
  ∧ (isEscalated t = true → isEscalated t' = true)
  ∧ (is_Some (resolvedAt t) → is_Some (resolvedAt t'))
  ∧ (is_Some (closedAt t) → is_Some (closedAt t')).

(** Every ticket stored before is stored after, under the same identifier,
    evolved; the escalation rules are the same. *)
Definition evolves (w w' : World) : Prop :=
  escalationRules (db w') = escalationRules (db w)
  ∧ ∀ j t, findById (db w) j = Some t →
           ∃ t', findById (db w') j = Some t' ∧ evolvesFrom (db w) t t'.

(** The stored ticket numbers and the counter are the same. *)
Definition sameNumbering (w w' : World) : Prop :=
  ticketNumber <$> tickets (db w') = ticketNumber <$> tickets (db w)
  ∧ ticketCounter w' = ticketCounter w.

(** Every stored ticket number is below the counter. *)
Definition numbersBelowCounter (w : World) : Prop :=
  ∀ t, t ∈ tickets (db w) → ticketNumber t < ticketCounter w.

(** What the analysis of the description in [createTicket] comes to: the
    category of the new ticket, or the first error thrown.  The sentiment is
    analysed; the category is the one given, or else the classifier's; the
    keywords are extracted. *)
Definition analysisOf (platform : Platform) (data : CreateTicketData)
  : Outcome TicketCategory :=
  andThen (analyzeSentiment platform (data_description data)) (λ _,
  andThen (match data_category data with
           | Some given => Return given
           | None =>
               andThen (categorizeTicket platform (data_description data))
                       (λ result, Return (bestCategory result))
           end) (λ categorization,
  andThen (extractKeywords platform (data_description data)) (λ _,
  Return categorization))).

(** The world after [this.ticketCounter++]. *)
Definition numberTaken (w : World) : World :=
  {| db := db w; ticketCounter := ticketCounter w + 1; console := console w |}.

(** A run of [m] from [w] ends normally. *)
Definition returnsFrom {A} (m : M A) (w : World) : Prop :=
  ∃ w' a, m w = (w', Return a).

(** A call of a public method of the service, as a caller makes it. *)
Inductive Call :=
  | CallCreateTicket (newId : string) (data : CreateTicketData)
  | CallUpdateTicketStatus (ticketId : string) (s : TicketStatus)
      (who : string) (why : option string)
  | CallAssignTicket (ticketId agentId who : string)
  | CallEscalateTicket (ticketId who why : string)
  | CallAddInternalNote (ticketId : string) (text : NoteContent) (who : string)
  | CallAddTicketResponse (ticketId text who : string) (to : Audience)
      (ch : Channel) (automated : bool)
  | CallCheckSLABreaches
  | CallMergeTickets (primaryTicketId : string)
      (secondaryTicketIds : list string) (mergedBy : string).

Definition ignore {A} (m : M A) : M unit := (let* _ := m in ret tt)%service.

(** The call made at clock reading [now]; an error it throws is caught by
    the caller, as the routes and the scheduler do. *)
Definition perform (platform : Platform) (tz : Zone) (timed : Z * Call)
  : M unit :=
  let '(now, call) := timed in
  tryCatch
    match call with
    | CallCreateTicket newId data =>
        ignore (createTicket platform now newId data)
    | CallUpdateTicketStatus i s who why =>
        ignore (updateTicketStatus now i s who why)
    | CallAssignTicket i agent who => ignore (assignTicket now i agent who)
    | CallEscalateTicket i who why => ignore (escalateTicket now i who why)
    | CallAddInternalNote i text who => ignore (addInternalNote now i text who)
    | CallAddTicketResponse i text who to ch automated =>
        ignore (addTicketResponse now i text who to ch automated)
    | CallCheckSLABreaches => checkSLABreaches tz now
    | CallMergeTickets primary secondaries who =>
        ignore (mergeTickets now primary secondaries who)
    end
    (λ _, ret tt).

(** A history of calls, each at its clock reading. *)
Definition performAll (platform : Platform) (tz : Zone)
    (calls : list (Z * Call)) : M unit :=
  forOf calls (perform platform tz).

(** The ticket an escalation by [who] for [why] at [now] along [rule]
    stores: the escalation update, then the note about it. *)
Definition escalatedTicket (t : Ticket) (rule : EscalationRule)
    (who why : string) (now : Z) : Ticket :=
  let lvl := escalationLevel t + 1 in
  let t1 :=
    spread t
      {| u_status := Some ESCALATED;
         u_assignedTo := Some (Some (escalateTo rule));
         u_internalNotes := None;
         u_responses := None;
         u_escalationHistory :=
           Some (escalationHistory t ++
                 [{| level := lvl; escalatedTo := escalateTo rule;
                     escalatedBy := who; reason := why;
                     escalatedAt := now |}]);
         u_isEscalated := Some true;
         u_escalationLevel := Some lvl;
         u_resolvedAt := None;
         u_closedAt := None;
         u_id := None; u_ticketNumber := None; u_description := None;
         u_category := None; u_department := None; u_slaConfig := None;
         u_createdAt := None; u_updatedAt := None |} now in
  spread t1
    {| u_status := None; u_assignedTo := None;
       u_internalNotes :=
         Some (internalNotes t1 ++
               [{| content := EscalatedToLevel lvl why; addedBy := who;
                   addedAt := now |}]);
       u_responses := None; u_escalationHistory := None;
       u_isEscalated := None; u_escalationLevel := None;
       u_resolvedAt := None; u_closedAt := None;
       u_id := None; u_ticketNumber := None; u_description := None;
       u_category := None; u_department := None; u_slaConfig := None;
       u_createdAt := None; u_updatedAt := None |} now.

(** What [escalateTicket] makes of the ticket it finds: the escalated
    ticket when the ladder has an entry above the ticket's level, the ticket
    itself when the call throws. *)
Definition escalationOf (c : Collections) (t : Ticket) (who why : string)
    (now : Z) : Ticket :=
  let rules := ladderOf c t in
  if Z.of_nat (length rules) <? escalationLevel t + 1 then t
  else match ruleAt rules (escalationLevel t + 1 - 1) with
       | Some rule => escalatedTicket t rule who why now
       | None => t
       end.

(** What a run of the sweep at [now] makes of one stored ticket. *)
Definition swept (tz : Zone) (now : Z) (c : Collections) (t : Ticket)
  : Ticket :=
  if isOpen t
     && leb (resolutionTimeRemaining (calculateSLA tz now t)) (ofZ 1)
     && negb (isEscalated t)
  then escalationOf c t "system" "Auto-escalated due to SLA breach risk" now
  else t.

(** ** The routes of the status update and of the escalation
    ([server/src/routes/tickets.ts]) *)

Module Routes.

Local Open Scope service_scope.

(** The text of an error in a response: a literal of the source, or the
    message of a thrown error that the engine words. *)
Inductive ErrorText :=
  | Literal (s : string)
  | EngineMessage (e : Error).

(** [error.message] *)
Definition messageOf (e : Error) : ErrorText :=
  match e with
  | MaxEscalationLevelReached => Literal "Maximum escalation level reached"
  | TypeError => EngineMessage TypeError
  | OtherError text => Literal text
  end.

(** What a handler answers: the status code and the JSON body, and beside
    them the error it passed to [console.error], if any. *)
Record Response := {
  statusCode : Z;
  success : bool;
  payload : option Ticket;
  message : option string;
  error : option ErrorText;
  logged : option Error
}.

Definition fail (code : Z) (text : ErrorText) (e : option Error) : Response :=
  {| statusCode := code; success := false; payload := None; message := None;
     error := Some text; logged := e |}.

Definition ok (t : Ticket) (text : string) : Response :=
  {| statusCode := 200; success := true; payload := Some t;
     message := Some text; error := None; logged := None |}.

(** [Object.values(TicketStatus)]: the strings of the enumeration. *)
Definition statusOfString (s : string) : option TicketStatus :=
  if decide (s = "open") then Some OPEN
  else if decide (s = "in_progress") then Some IN_PROGRESS
  else if decide (s = "on_hold") then Some ON_HOLD
  else if decide (s = "escalated") then Some ESCALATED
  else if decide (s = "resolved") then Some RESOLVED
  else if decide (s = "closed") then Some CLOSED
  else if decide (s = "cancelled") then Some CANCELLED
  else None.

(** [PUT /api/tickets/:id/status], with the request's [status] and [reason]
    and its [user-id] header. *)
Definition putStatus (now : Z) (ticketId : string) (status_ : option string)
    (why : option string) (userId : string) : M Response :=
  match status_ ≫= statusOfString with
  | None => ret (fail 400 (Literal "Invalid status") None)
  | Some s =>
      tryCatch
        (let* ticket := updateTicketStatus now ticketId s userId why in
         match ticket with
         | None => ret (fail 404 (Literal "Ticket not found") None)
         | Some t => ret (ok t "Ticket status updated successfully")
         end)
        (λ e, ret (fail 500 (Literal "Failed to update ticket status") (Some e)))
  end.

(** [POST /api/tickets/:id/escalate], with the request's [reason] and its
    [user-id] header. *)
Definition postEscalate (now : Z) (ticketId : string) (why : option string)
    (userId : string) : M Response :=
  match truthy why with
  | None => ret (fail 400 (Literal "Escalation reason is required") None)
  | Some r =>
      tryCatch
        (let* ticket := escalateTicket now ticketId userId r in
         match ticket with
         | None => ret (fail 404 (Literal "Ticket not found") None)
         | Some t => ret (ok t "Ticket escalated successfully")
         end)
        (λ e, ret (fail 500 (messageOf e) (Some e)))
  end.

End Routes.

(** ** More scenarios *)

(** The automated reply of the system, sent at [at_]. *)
Definition autoReply (at_ : Z) : TicketResponse :=
  {| body := "We take your feedback seriously and are investigating this matter immediately.";
     sentBy := "system"; sentTo := to_guest; channel := ch_email;
     isAutomated := true; sentAt := at_ |}.

(** The ticket with other responses. *)
Definition withResponses (t : Ticket) (rs : list TicketResponse) : Ticket :=
  {| id := id t; ticketNumber := ticketNumber t; description := description t;
     category := category t; status := status t; assignedTo := assignedTo t;
     department := department t; internalNotes := internalNotes t;
     responses := rs; slaConfig := slaConfig t;
     escalationHistory := escalationHistory t; isEscalated := isEscalated t;
     escalationLevel := escalationLevel t; createdAt := createdAt t;
     updatedAt := updatedAt t; resolvedAt := resolvedAt t;
     closedAt := closedAt t |}.

(** The ticket under another number. *)
Definition numbered (t : Ticket) (n : Z) : Ticket :=
  {| id := id t; ticketNumber := n; description := description t;
     category := category t; status := status t; assignedTo := assignedTo t;
     department := department t; internalNotes := internalNotes t;
     responses := responses t; slaConfig := slaConfig t;
     escalationHistory := escalationHistory t; isEscalated := isEscalated t;
     escalationLevel := escalationLevel t; createdAt := createdAt t;
     updatedAt := updatedAt t; resolvedAt := resolvedAt t;
     closedAt := closedAt t |}.

(** The creation time of a row as a query sorts by it, the row holding a
    [Date]. *)
Definition byCreatedAt (t : Ticket) : SortValue :=
  SvNumber (ofZ (createdAt t)).

(** A reading of strings as numbers that reads none. *)
Definition readsNoNumber (s : string) : number := NaN.

(** * Properties *)

(** ** The store *)

Lemma findIndex_Some (i : string) (ts : list Ticket) (n : nat) (t : Ticket) :
  findIndex i ts = Some (n, t) → ts !! n = Some t ∧ id t = i.
Proof.
  unfold findIndex. intros H. apply list_find_Some in H. tauto.
Qed.

Lemma findIndex_insert_same (i : string) (ts : list Ticket) (n : nat)
    (t t' : Ticket) :
  findIndex i ts = Some (n, t) → id t' = i →
  findIndex i (<[n := t']> ts) = Some (n, t').
Proof.
  unfold findIndex. revert n.
  induction ts as [|x ts IH]; intros n Hf Hid; simpl in *; [discriminate|].
  destruct (decide (id x = i)) as [Hx|Hx].
  - inversion Hf; subst n t. simpl. rewrite decide_True by done. done.
  - destruct (list_find _ ts) as [[m y]|] eqn:E; simpl in Hf; [|discriminate].
    inversion Hf; subst n t. simpl. rewrite decide_False by done.
    rewrite (IH m) by done. done.
Qed.

Lemma findIndex_insert_other (j : string) (ts : list Ticket) (n : nat)
    (t t' : Ticket) :
  ts !! n = Some t → id t' = id t → id t ≠ j →
  snd <$> findIndex j (<[n := t']> ts) = snd <$> findIndex j ts.
Proof.
  unfold findIndex. revert n.
  induction ts as [|x ts IH]; intros n Hl Hid Hne; [done|].
  destruct n as [|n]; simpl in *.
  - inversion Hl; subst x.
    rewrite !decide_False by congruence. done.
  - destruct (decide (id x = j)); [done|].
    specialize (IH n Hl Hid Hne).
    destruct (list_find _ (<[n:=t']> ts)) as [[? ?]|],
             (list_find _ ts) as [[? ?]|]; simpl in *; congruence.
Qed.

Lemma spread_id (t : Ticket) (u : TicketUpdates) (now : Z) :
  u_id u = None → id (spread t u now) = id t.
Proof. intros H. cbn [spread id]. by rewrite H. Qed.

(** An update of an existing row: the row is replaced by the spread, every
    row under another identifier is as before, and nothing else changes. *)
Lemma update_found (c : Collections) (i : string) (u : TicketUpdates) (now : Z)
    (t : Ticket) :
  findById c i = Some t →
  u_id u = None →
  ∃ c', update c i u now = (c', Some (spread t u now))
        ∧ findById c' i = Some (spread t u now)
        ∧ (∀ j, j ≠ i → findById c' j = findById c j)
        ∧ users c' = users c ∧ slaConfigs c' = slaConfigs c
        ∧ escalationRules c' = escalationRules c.
Proof.
  unfold findById, update. intros H Hu.
  destruct (findIndex i (tickets c)) as [[n x]|] eqn:E; [|discriminate].
  simpl in H. inversion H; subst x. clear H.
  destruct (findIndex_Some _ _ _ _ E) as [Hl Hid].
  pose proof (spread_id t u now Hu) as Hid'.
  eexists. split; [reflexivity|]. cbn [fst snd tickets withTickets users
    slaConfigs escalationRules].
  split; [|split; [|done]].
  - rewrite (findIndex_insert_same i _ n t) by congruence. done.
  - intros j Hj. apply (findIndex_insert_other j _ n t); [done|done|congruence].
Qed.

Lemma update_missing (c : Collections) (i : string) (u : TicketUpdates) (now : Z) :
  findById c i = None → update c i u now = (c, None).
Proof.
  unfold findById, update. intros H.
  destruct (findIndex i (tickets c)) as [[n x]|]; [discriminate|done].
Qed.

Lemma unique_id_eq (ts : list Ticket) (s t : Ticket) :
  NoDup (id <$> ts) → s ∈ ts → t ∈ ts → id s = id t → s = t.
Proof.
  intros Hnd Hs Ht Hid.
  apply list_elem_of_lookup in Hs as [a Ha].
  apply list_elem_of_lookup in Ht as [b Hb].
  assert (a = b) as ->.
  { apply (NoDup_lookup (id <$> ts) a b (id s)); [done| |].
    - rewrite list_lookup_fmap, Ha. done.
    - rewrite list_lookup_fmap, Hb, Hid. done. }
  congruence.
Qed.

Lemma findById_unique (c : Collections) (t : Ticket) :
  NoDup (id <$> tickets c) → t ∈ tickets c → findById c (id t) = Some t.
Proof.
  intros Hnd Ht. unfold findById, findIndex.
  destruct (list_find_elem_of (λ item, id item = id t) (tickets c) t Ht eq_refl)
    as [[n x] E].
  rewrite E. simpl. f_equal.
  apply list_find_Some in E as (Hl & Hid & _).
  apply (unique_id_eq (tickets c)); [done| |done|done].
  apply list_elem_of_lookup. eauto.
Qed.

(** ** Reasoning about runs of the service *)

Lemma bind_Return {A B} (m : M A) (k : A → M B) (w w' : World) (a : A) :
  m w = (w', Return a) → bind m k w = k a w'.
Proof. unfold bind. intros ->. done. Qed.

Lemma bind_Throw {A B} (m : M A) (k : A → M B) (w w' : World) (e : Error) :
  m w = (w', Throw e) → bind m k w = (w', Throw e).
Proof. unfold bind. intros ->. done. Qed.

Section Preservation.

(** A relation between the world before and after a run that holds of
    every step holds of the whole run, when it is a preorder. *)
Variable R : World → World → Prop.
Hypothesis R_refl : ∀ w, R w w.
Hypothesis R_trans : ∀ w1 w2 w3, R w1 w2 → R w2 w3 → R w1 w3.

Lemma preserves_ret {A} (a : A) : Preserves R (ret a).
Proof. intros w. apply R_refl. Qed.

Lemma preserves_throw {A} (e : Error) : Preserves R (@throw A e).
Proof. intros w. apply R_refl. Qed.

Lemma preserves_getDb : Preserves R getDb.
Proof. intros w. apply R_refl. Qed.

Lemma preserves_getTicketById (i : string) : Preserves R (getTicketById i).
Proof. intros w. apply R_refl. Qed.

Lemma preserves_bind {A B} (m : M A) (k : A → M B) :
  Preserves R m → (∀ a, Preserves R (k a)) → Preserves R (bind m k).
Proof.
  intros Hm Hk w. unfold bind. specialize (Hm w).
  destruct (m w) as [w' [a|e]]; simpl in *; [|done].
  eapply R_trans; [exact Hm|apply Hk].
Qed.

Lemma preserves_tryCatch {A} (m : M A) (h : Error → M A) :
  Preserves R m → (∀ e, Preserves R (h e)) → Preserves R (tryCatch m h).
Proof.
  intros Hm Hh w. unfold tryCatch. specialize (Hm w).
  destruct (m w) as [w' [a|e]]; simpl in *; [done|].
  eapply R_trans; [exact Hm|apply Hh].
Qed.

Lemma preserves_when (b : bool) (m : M unit) :
  (b = true → Preserves R m) → Preserves R (when b m).
Proof. destruct b; simpl; auto using preserves_ret. Qed.

Lemma preserves_forOf {A} (xs : list A) (body : A → M unit) :
  (∀ x, x ∈ xs → Preserves R (body x)) → Preserves R (forOf xs body).
Proof.
  induction xs as [|x xs IH]; intros H; simpl.
  - apply preserves_ret.
  - apply preserves_bind.
    + apply H. left.
    + intros _. apply IH. intros y Hy. apply H. by right.
Qed.

End Preservation.

Lemma untouched_refl (j : string) (w : World) : untouched j w w.
Proof. done. Qed.

Lemma untouched_trans (j : string) (w1 w2 w3 : World) :
  untouched j w1 w2 → untouched j w2 w3 → untouched j w1 w3.
Proof. unfold untouched. congruence. Qed.

Lemma emits_refl (P : LogLine → Prop) (w : World) : emits P w w.
Proof. exists []. by rewrite app_nil_r. Qed.

Lemma emits_trans (P : LogLine → Prop) (w1 w2 w3 : World) :
  emits P w1 w2 → emits P w2 w3 → emits P w1 w3.
Proof.
  intros (l1 & E1 & F1) (l2 & E2 & F2). exists (l1 ++ l2).
  split; [by rewrite E2, E1, app_assoc | by apply Forall_app].
Qed.

Lemma dbUpdate_found (w : World) (i : string) (u : TicketUpdates) (now : Z)
    (t : Ticket) :
  findById (db w) i = Some t →
  u_id u = None →
  ∃ w', dbUpdate i u now w = (w', Return (Some (spread t u now)))
        ∧ findById (db w') i = Some (spread t u now)
        ∧ escalationRules (db w') = escalationRules (db w)
        ∧ console w' = console w.
Proof.
  intros H Hu. unfold dbUpdate.
  destruct (update_found _ i u now _ H Hu)
    as (c' & Hup & Hsame & _ & _ & _ & Hr).
  rewrite Hup. eexists. split; [reflexivity|]. simpl. done.
Qed.

Lemma dbUpdate_missing (w : World) (i : string) (u : TicketUpdates) (now : Z) :
  findById (db w) i = None → dbUpdate i u now w = (w, Return None).
Proof.
  intros H. unfold dbUpdate. rewrite update_missing by done. by destruct w.
Qed.

Lemma dbUpdate_untouched (i j : string) (u : TicketUpdates) (now : Z) :
  i ≠ j → u_id u = None → Preserves (untouched j) (dbUpdate i u now).
Proof.
  intros Hne Hu w. unfold untouched.
  destruct (findById (db w) i) as [t|] eqn:E.
  - unfold dbUpdate.
    destruct (update_found _ i u now _ E Hu) as (c' & Hup & _ & Hframe & _).
    rewrite Hup. simpl. apply Hframe. congruence.
  - rewrite dbUpdate_missing by done. done.
Qed.

Lemma dbUpdate_emits (P : LogLine → Prop) (i : string) (u : TicketUpdates)
    (now : Z) :
  Preserves (emits P) (dbUpdate i u now).
Proof.
  intros w. unfold dbUpdate. destruct (update (db w) i u now) as [c r]. simpl.
  exists []. by rewrite app_nil_r.
Qed.

Lemma log_untouched (j : string) (l : LogLine) : Preserves (untouched j) (log l).
Proof. intros w. done. Qed.


Lemma addInternalNote_untouched (now : Z) (i j : string) (text : NoteContent)
    (who : string) :
  i ≠ j → Preserves (untouched j) (addInternalNote now i text who).
Proof.
  intros Hne. unfold addInternalNote.
  apply preserves_bind; eauto using preserves_getTicketById, untouched_refl, untouched_trans, emits_refl, emits_trans.
  intros [t|]; [|apply preserves_ret; eauto using untouched_refl, emits_refl].
  apply preserves_bind; eauto using dbUpdate_untouched, untouched_refl, untouched_trans.
  intros ?. apply preserves_ret; eauto using untouched_refl, emits_refl.
Qed.

Lemma addInternalNote_emits (P : LogLine → Prop) (now : Z) (i : string)
    (text : NoteContent) (who : string) :
  Preserves (emits P) (addInternalNote now i text who).
Proof.
  unfold addInternalNote.
  apply preserves_bind; eauto using preserves_getTicketById, untouched_refl, untouched_trans, emits_refl, emits_trans.
  intros [t|]; [|apply preserves_ret; eauto using untouched_refl, emits_refl].
  apply preserves_bind; eauto using dbUpdate_emits, emits_refl, emits_trans.
  intros ?. apply preserves_ret; eauto using untouched_refl, emits_refl.
Qed.

Lemma addInternalNote_found (now : Z) (i : string) (text : NoteContent)
    (who : string) (w : World) (t : Ticket) :
  findById (db w) i = Some t →
  ∃ w' t', addInternalNote now i text who w = (w', Return true)
           ∧ findById (db w') i = Some t'
           ∧ internalNotes t' =
               internalNotes t ++
               [{| content := text; addedBy := who; addedAt := now |}]
           ∧ status t' = status t ∧ assignedTo t' = assignedTo t
           ∧ responses t' = responses t
           ∧ escalationHistory t' = escalationHistory t
           ∧ isEscalated t' = isEscalated t
           ∧ escalationLevel t' = escalationLevel t
           ∧ resolvedAt t' = resolvedAt t ∧ closedAt t' = closedAt t
           ∧ createdAt t' = createdAt t ∧ slaConfig t' = slaConfig t.
Proof.
  intros H. unfold addInternalNote.
  rewrite (bind_Return _ _ w w (Some t)) by (unfold getTicketById, bind, getDb, ret; by rewrite H).
  match goal with |- context [dbUpdate i ?u now] =>
    destruct (dbUpdate_found w i u now t H eq_refl) as (w' & Hup & Hf & _) end.
  rewrite (bind_Return _ _ _ _ _ Hup).
  eexists w', _. split; [|split; [exact Hf|]].
  - reflexivity.
  - simpl. repeat split.
Qed.

Lemma sameIds_refl (w : World) : sameIds w w.
Proof. done. Qed.

Lemma sameIds_trans (w1 w2 w3 : World) :
  sameIds w1 w2 → sameIds w2 w3 → sameIds w1 w3.
Proof. unfold sameIds. congruence. Qed.

Lemma dbUpdate_sameIds (i : string) (u : TicketUpdates) (now : Z) :
  u_id u = None → Preserves sameIds (dbUpdate i u now).
Proof.
  intros Hu w. unfold sameIds, dbUpdate, update.
  destruct (findIndex i (tickets (db w))) as [[n x]|] eqn:E; [|done].
  apply findIndex_Some in E as [Hl _].
  cbn [fst db tickets withTickets].
  rewrite list_fmap_insert. apply list_insert_id.
  rewrite list_lookup_fmap, Hl. cbn [fmap option_fmap option_map].
  by rewrite spread_id.
Qed.

(** Decomposes a goal [Preserves R m] along the structure of [m]. *)
Ltac preserve_with tac :=
  repeat first
    [ exact (untouched_refl _)
    | exact (untouched_trans _)
    | exact (emits_refl _)
    | exact (emits_trans _)
    | exact sameIds_refl
    | exact sameIds_trans
    | tac
    | match goal with
      | |- forall x, @?P x => intro
      | |- Preserves _ (ret _) => apply preserves_ret
      | |- Preserves _ (throw _) => apply preserves_throw
      | |- Preserves _ getDb => apply preserves_getDb
      | |- Preserves _ (getTicketById _) => apply preserves_getTicketById
      | |- Preserves _ (bind _ _) => apply preserves_bind
      | |- Preserves _ (tryCatch _ _) => apply preserves_tryCatch
      | |- Preserves _ (when _ _) => apply preserves_when
      | |- Preserves (untouched _) (log _) => apply log_untouched
      | |- Preserves (emits _) (dbUpdate _ _ _) => apply dbUpdate_emits
      | |- Preserves sameIds (dbUpdate _ _ _) =>
          apply dbUpdate_sameIds; reflexivity
      | |- Preserves sameIds (log _) => intros ?; reflexivity
      | |- Preserves (emits _) (addInternalNote _ _ _ _) =>
          apply addInternalNote_emits
      | |- Preserves _ (match ?x with _ => _ end) => destruct x
      end ].

Ltac preserve := preserve_with fail.

Lemma escalateTicket_untouched (now : Z) (i j who why : string) :
  i ≠ j → Preserves (untouched j) (escalateTicket now i who why).
Proof.
  intros Hne. unfold escalateTicket, sendEscalationNotifications.
  preserve; try (apply dbUpdate_untouched; done);
    try (apply addInternalNote_untouched; done).
Qed.


Lemma updateTicketStatus_sameIds (now : Z) (i : string) (s : TicketStatus)
    (who : string) (why : option string) :
  Preserves sameIds (updateTicketStatus now i s who why).
Proof. unfold updateTicketStatus, addInternalNote. preserve. Qed.

Lemma getTicketById_run (i : string) (w : World) :
  getTicketById i w = (w, Return (findById (db w) i)).
Proof. done. Qed.

(** A status update of an existing ticket: what is returned and what is
    stored afterwards. *)
Lemma updateTicketStatus_found (now : Z) (i : string) (s : TicketStatus)
    (who : string) (why : option string) (w : World) (t : Ticket) :
  findById (db w) i = Some t →
  ∃ w' t1 t',
    updateTicketStatus now i s who why w = (w', Return (Some t1))
    ∧ findById (db w') i = Some t'
    ∧ status t1 = s ∧ status t' = s
    ∧ resolvedAt t' = (if decide (s = RESOLVED) then Some now else resolvedAt t)
    ∧ closedAt t' = (if decide (s = CLOSED) then Some now else closedAt t)
    ∧ isEscalated t' = isEscalated t
    ∧ escalationLevel t' = escalationLevel t
    ∧ escalationHistory t' = escalationHistory t
    ∧ assignedTo t' = assignedTo t
    ∧ responses t' = responses t
    ∧ createdAt t' = createdAt t
    ∧ slaConfig t' = slaConfig t.
Proof.
  intros H. unfold updateTicketStatus.
  match goal with |- context [dbUpdate i ?u now] =>
    destruct (dbUpdate_found w i u now t H eq_refl) as (w1 & Hup & Hf & _) end.
  rewrite (bind_Return _ _ _ _ _ Hup).
  destruct (truthy why) as [r|].
  - destruct (addInternalNote_found now i (StatusChangedTo s r) who w1 _ Hf)
      as (w2 & t2 & Hn & Hf2 & _ & Hst & Has & Hrs & Hh & Hie & Hl & Hr & Hc
          & Hcr & Hsl).
    eexists w2, _, t2. unfold bind. rewrite Hn. simpl.
    split; [reflexivity|]. split; [exact Hf2|].
    rewrite Hst, Has, Hrs, Hh, Hie, Hl, Hr, Hc, Hcr, Hsl. simpl.
    destruct s; repeat split.
  - eexists w1, _, _. unfold bind, ret. simpl.
    split; [reflexivity|]. split; [exact Hf|]. simpl.
    destruct s; repeat split.
Qed.

Lemma updateTicketStatus_missing (now : Z) (i : string) (s : TicketStatus)
    (who : string) (why : option string) (w : World) :
  findById (db w) i = None →
  updateTicketStatus now i s who why w = (w, Return None).
Proof.
  intros H. unfold updateTicketStatus.
  rewrite (bind_Return _ _ _ _ _ (dbUpdate_missing w i _ now H)).
  done.
Qed.

(** An escalation of an existing ticket below the top of its ladder: what is
    stored afterwards. *)
Lemma escalateTicket_found (now : Z) (i who why : string) (w : World)
    (t : Ticket) (rule : EscalationRule) :
  findById (db w) i = Some t →
  ruleAt (getEscalationRules (db w) (department t)) (escalationLevel t)
    = Some rule →
  ∃ w' t1 t',
    escalateTicket now i who why w = (w', Return (Some t1))
    ∧ findById (db w') i = Some t'
    ∧ status t' = ESCALATED
    ∧ isEscalated t' = true
    ∧ escalationLevel t' = escalationLevel t + 1
    ∧ assignedTo t' = Some (escalateTo rule)
    ∧ escalationHistory t' =
        escalationHistory t ++
        [{| level := escalationLevel t + 1; escalatedTo := escalateTo rule;
            escalatedBy := who; reason := why; escalatedAt := now |}]
    ∧ responses t' = responses t
    ∧ resolvedAt t' = resolvedAt t.
Proof.
  intros H Hrule. unfold escalateTicket.
  rewrite (bind_Return _ _ _ _ _ (getTicketById_run i w)). rewrite H.
  rewrite (bind_Return getDb _ w w (db w)) by done.
  replace (escalationLevel t + 1 - 1) with (escalationLevel t) by lia.
  rewrite Hrule.
  assert ((Z.of_nat (length (getEscalationRules (db w) (department t)))
           <? escalationLevel t + 1) = false) as ->.
  { apply Z.ltb_ge. unfold ruleAt in Hrule.
    destruct (escalationLevel t <? 0) eqn:E; [discriminate|].
    apply Z.ltb_ge in E. apply lookup_lt_Some in Hrule. lia. }
  match goal with |- context [dbUpdate i ?u now] =>
    destruct (dbUpdate_found w i u now t H eq_refl) as (w1 & Hup & Hf & _) end.
  rewrite (bind_Return _ _ _ _ _ Hup).
  unfold sendEscalationNotifications, bind, log. cbv beta iota.
  match goal with |- context [addInternalNote now i ?c who ?w2] =>
    destruct (addInternalNote_found now i c who w2 _ Hf)
      as (w3 & t3 & Hn & Hf3 & _ & Hst & Has & Hrs & Hh & Hie & Hl & Hr & _)
  end.
  rewrite Hn. cbv beta iota.
  eexists w3, _, t3. split; [reflexivity|]. split; [exact Hf3|].
  rewrite Hst, Has, Hrs, Hh, Hie, Hl, Hr. simpl. repeat split.
Qed.

(** ** The breach sweep *)

Lemma checkSLABreaches_run (tz : Zone) (now : Z) (w : World) :
  checkSLABreaches tz now w
  = forOf (findBy (db w) isOpen) (sweepTicket tz now) w.
Proof. done. Qed.

Lemma elem_of_findBy (c : Collections) (p : Ticket → bool) (t : Ticket) :
  t ∈ findBy c p ↔ p t = true ∧ t ∈ tickets c.
Proof. unfold findBy. by rewrite list_elem_of_filter. Qed.

Lemma isOpen_spec (t : Ticket) :
  isOpen t = true ↔ status t = OPEN ∨ status t = IN_PROGRESS.
Proof.
  unfold isOpen. rewrite bool_decide_eq_true.
  rewrite !elem_of_cons, elem_of_nil. tauto.
Qed.

(** The sweep's step on a snapshot ticket can only change the row under that
    ticket's identifier, and only when the snapshot ticket is not flagged
    as escalated. *)
Lemma sweepTicket_untouched (tz : Zone) (now : Z) (t : Ticket) (j : string) :
  (isEscalated t = false → id t ≠ j) →
  Preserves (untouched j) (sweepTicket tz now t).
Proof.
  intros H. unfold sweepTicket, sendSLAWarning.
  preserve_with ltac:(apply escalateTicket_untouched).
  match goal with
  | Hb : _ && negb _ = true |- _ =>
      apply andb_prop in Hb as [_ Hb]; apply negb_true_iff in Hb; auto
  end.
Qed.

Lemma sweep_untouched (tz : Zone) (now : Z) (w : World) (j : string) :
  (∀ s, s ∈ findBy (db w) isOpen → isEscalated s = false → id s ≠ j) →
  findById (db (fst (checkSLABreaches tz now w))) j = findById (db w) j.
Proof.
  intros H. rewrite checkSLABreaches_run.
  apply (preserves_forOf (untouched j) (untouched_refl j) (untouched_trans j)).
  intros s Hs. apply sweepTicket_untouched. auto.
Qed.

(** With unique identifiers, a stored ticket that is flagged as escalated, or
    whose status the sweep does not select, is stored unchanged after a
    run. *)
Lemma sweep_skips (tz : Zone) (now : Z) (w : World) (t : Ticket) :
  NoDup (id <$> tickets (db w)) →
  t ∈ tickets (db w) →
  isEscalated t = true ∨ isOpen t = false →
  findById (db (fst (checkSLABreaches tz now w))) (id t) = Some t.
Proof.
  intros Hnd Ht Hskip.
  rewrite sweep_untouched; [by apply findById_unique|].
  intros s Hs Hes Hid.
  apply elem_of_findBy in Hs as [Hopen Hs].
  assert (s = t) as -> by (by apply (unique_id_eq (tickets (db w)))).
  destruct Hskip; congruence.
Qed.

(** * The properties of the specification, by number *)

Import Scenario.

(** ** Escalation at the top of the ladder *)

(** C2.  For every stored ticket whose escalation level equals the length of
    its department's escalation ladder, [escalateTicket] throws the
    "Maximum escalation level reached" error and the world after the call
    is the world before it: the ticket's level, status, assignee and
    escalation history, like everything else, are exactly as before. *)
Theorem escalate_at_top_is_rejected (now : Z) (i who why : string) (w : World)
    (t : Ticket) :
  findById (db w) i = Some t →
  escalationLevel t
    = Z.of_nat (length (getEscalationRules (db w) (department t))) →
  escalateTicket now i who why w = (w, Throw MaxEscalationLevelReached).
Proof.
  intros Hf Hl. unfold escalateTicket.
  rewrite (bind_Return _ _ _ _ _ (getTicketById_run i w)). rewrite Hf.
  rewrite (bind_Return getDb _ w w (db w)) by done.
  rewrite Hl.
  assert ((Z.of_nat (length (getEscalationRules (db w) (department t)))
           <? Z.of_nat (length (getEscalationRules (db w) (department t))) + 1)
          = true) as -> by (apply Z.ltb_lt; lia).
  done.
Qed.

Lemma escalate_at_top_is_rejected_witness :
  let t := atLevel (plainTicket "t1" ESCALATED 0) 2 in
  let w := worldOf [t] in
  findById (db w) "t1" = Some t
  ∧ escalationLevel t
      = Z.of_nat (length (getEscalationRules (db w) (department t)))
  ∧ escalateTicket 5 "t1" "manager" "still open" w
      = (w, Throw MaxEscalationLevelReached).
Proof.
  intros t w.
  assert (Hf : findById (db w) "t1" = Some t) by reflexivity.
  assert (Hl : escalationLevel t
               = Z.of_nat (length (getEscalationRules (db w) (department t))))
    by reflexivity.
  split; [exact Hf|]. split; [exact Hl|].
  apply (escalate_at_top_is_rejected 5 "t1" "manager" "still open" w t Hf Hl).
Defined.

(** ** Status updates *)

(** C3, as the specification states it, fails: a CLOSED ticket asked to go
    to IN_PROGRESS, a change the specification's table forbids, is moved to
    IN_PROGRESS and returned; nothing is thrown. *)
Lemma closed_ticket_is_reopened :
  let w := worldOf [plainTicket "t1" CLOSED 0] in
  let r := updateTicketStatus 10 "t1" IN_PROGRESS "agent-1" None w in
  status <$> findById (db w) "t1" = Some CLOSED
  ∧ Spec.allowedTransition CLOSED IN_PROGRESS = false
  ∧ (status <$> findById (db (fst r)) "t1") = Some IN_PROGRESS
  ∧ (∃ t, snd r = Return (Some t) ∧ status t = IN_PROGRESS)
  ∧ ¬ (∃ e, snd r = Throw e).
Proof.
  cbv zeta. split; [reflexivity|]. split; [reflexivity|].
  split; [reflexivity|]. split.
  - eexists. split; reflexivity.
  - intros [e He]. vm_compute in He. discriminate.
Qed.

(** C3, amended.  The status update has no transition table: for every
    stored ticket, whatever its status, and every requested status, the call
    returns the ticket with the requested status, stores it with that
    status, and throws nothing. *)
Theorem status_update_accepts_every_status (now : Z) (i : string)
    (s : TicketStatus) (who : string) (why : option string) (w : World)
    (t : Ticket) :
  findById (db w) i = Some t →
  ∃ w' t1 t',
    updateTicketStatus now i s who why w = (w', Return (Some t1))
    ∧ status t1 = s
    ∧ findById (db w') i = Some t'
    ∧ status t' = s.
Proof.
  intros H.
  destruct (updateTicketStatus_found now i s who why w t H)
    as (w' & t1 & t' & Hrun & Hf & Hs1 & Hs' & _).
  exists w', t1, t'. auto.
Qed.

Lemma status_update_accepts_every_status_witness :
  let t := plainTicket "t1" CLOSED 0 in
  let w := worldOf [t] in
  findById (db w) "t1" = Some t
  ∧ ∃ w' t1 t',
      updateTicketStatus 10 "t1" IN_PROGRESS "agent-1" None w
        = (w', Return (Some t1))
      ∧ status t1 = IN_PROGRESS
      ∧ findById (db w') "t1" = Some t'
      ∧ status t' = IN_PROGRESS.
Proof.
  intros t w.
  assert (Hf : findById (db w) "t1" = Some t) by reflexivity.
  split; [exact Hf|].
  apply (status_update_accepts_every_status 10 "t1" IN_PROGRESS "agent-1" None
           w t Hf).
Defined.

(** C8, as the specification states it, fails in both directions: a RESOLVED
    ticket reopened to IN_PROGRESS keeps its [resolvedAt], and a ticket closed
    without having been resolved is CLOSED with no [resolvedAt]. *)
Lemma reopened_ticket_keeps_resolvedAt :
  let w := worldOf [plainTicket "t1" IN_PROGRESS 0] in
  let w1 := fst (updateTicketStatus 10 "t1" RESOLVED "agent-1" None w) in
  let w2 := fst (updateTicketStatus 20 "t1" IN_PROGRESS "agent-1" None w1) in
  let w3 := fst (updateTicketStatus 10 "t1" CLOSED "agent-1" None w) in
  (status <$> findById (db w2) "t1" = Some IN_PROGRESS
   ∧ Spec.isResolvedOrTerminal IN_PROGRESS = false
   ∧ (resolvedAt <$> findById (db w2) "t1") = Some (Some 10))
  ∧ (status <$> findById (db w3) "t1" = Some CLOSED
     ∧ Spec.isResolvedOrTerminal CLOSED = true
     ∧ (resolvedAt <$> findById (db w3) "t1") = Some None).
Proof. cbv zeta. repeat split; reflexivity. Qed.

(** C8, amended.  A status update sets [resolvedAt] to the time of the call
    when the requested status is RESOLVED and leaves it as it was for every
    other requested status; in particular reopening a RESOLVED ticket to
    IN_PROGRESS keeps [resolvedAt]. *)
Theorem status_update_resolvedAt (now : Z) (i : string) (s : TicketStatus)
    (who : string) (why : option string) (w : World) (t : Ticket) :
  findById (db w) i = Some t →
  ∃ t',
    findById (db (fst (updateTicketStatus now i s who why w))) i = Some t'
    ∧ status t' = s
    ∧ resolvedAt t'
        = (if decide (s = RESOLVED) then Some now else resolvedAt t).
Proof.
  intros H.
  destruct (updateTicketStatus_found now i s who why w t H)
    as (w' & t1 & t' & Hrun & Hf & _ & Hs' & Hr & _).
  exists t'. rewrite Hrun. auto.
Qed.

Lemma status_update_resolvedAt_witness :
  let w := worldOf [plainTicket "t1" IN_PROGRESS 0] in
  let w1 := fst (updateTicketStatus 10 "t1" RESOLVED "agent-1" None w) in
  ∃ t, findById (db w1) "t1" = Some t
  ∧ ∃ t',
      findById
        (db (fst (updateTicketStatus 20 "t1" IN_PROGRESS "agent-1" None w1)))
        "t1" = Some t'
      ∧ status t' = IN_PROGRESS
      ∧ resolvedAt t'
          = (if decide (IN_PROGRESS = RESOLVED) then Some 20 else resolvedAt t).
Proof.
  intros w w1. eexists. 
  assert (Hf : findById (db w1) "t1"
               = Some (spread (plainTicket "t1" IN_PROGRESS 0)
                         {| u_status := Some RESOLVED; u_assignedTo := None;
                            u_internalNotes := None; u_responses := None;
                            u_escalationHistory := None; u_isEscalated := None;
                            u_escalationLevel := None; u_resolvedAt := Some (Some 10);
                            u_closedAt := None;
                            u_id := None; u_ticketNumber := None; u_description := None;
                            u_category := None; u_department := None; u_slaConfig := None;
                            u_createdAt := None; u_updatedAt := None |} 10)) by reflexivity.
  split; [exact Hf|].
  apply (status_update_resolvedAt 20 "t1" IN_PROGRESS "agent-1" None w1 _ Hf).
Defined.

(** ** Terminal tickets *)

(** C9, as the specification states it, fails: escalating a CLOSED ticket
    mutates it.  The stored ticket is ESCALATED, one level up, reassigned to
    the first ladder entry, and has one more escalation record. *)
Lemma closed_ticket_is_escalated :
  let t := plainTicket "t1" CLOSED 0 in
  let w := worldOf [t] in
  let w' := fst (escalateTicket 10 "t1" "agent-1" "guest called again" w) in
  Spec.isTerminal (status t) = true
  ∧ findById (db w) "t1" = Some t
  ∧ (status <$> findById (db w') "t1") = Some ESCALATED
  ∧ (escalationLevel <$> findById (db w') "t1") = Some 1
  ∧ (assignedTo <$> findById (db w') "t1") = Some (Some "manager")
  ∧ (escalationHistory <$> findById (db w') "t1")
      = Some [{| level := 1; escalatedTo := "manager";
                 escalatedBy := "agent-1"; reason := "guest called again";
                 escalatedAt := 10 |}].
Proof. cbv zeta. repeat split; reflexivity. Qed.

(** C9, amended.  A terminal status does not protect a ticket from
    escalation: for every stored CLOSED or CANCELLED ticket whose level has a
    ladder entry above it, [escalateTicket] succeeds and the stored ticket
    is ESCALATED, flagged as escalated, one level up, assigned to that ladder
    entry's recipient, and has one more escalation record. *)
Theorem escalate_mutates_terminal_ticket (now : Z) (i who why : string)
    (w : World) (t : Ticket) (rule : EscalationRule) :
  findById (db w) i = Some t →
  Spec.isTerminal (status t) = true →
  ruleAt (getEscalationRules (db w) (department t)) (escalationLevel t)
    = Some rule →
  ∃ w' t1 t',
    escalateTicket now i who why w = (w', Return (Some t1))
    ∧ findById (db w') i = Some t'
    ∧ status t' = ESCALATED
    ∧ isEscalated t' = true
    ∧ escalationLevel t' = escalationLevel t + 1
    ∧ assignedTo t' = Some (escalateTo rule)
    ∧ escalationHistory t' =
        escalationHistory t ++
        [{| level := escalationLevel t + 1; escalatedTo := escalateTo rule;
            escalatedBy := who; reason := why; escalatedAt := now |}].
Proof.
  intros Hf _ Hrule.
  destruct (escalateTicket_found now i who why w t rule Hf Hrule)
    as (w' & t1 & t' & Hrun & Hf' & H1 & H2 & H3 & H4 & H5 & _).
  exists w', t1, t'. auto 10.
Qed.

Lemma escalate_mutates_terminal_ticket_witness :
  let t := plainTicket "t1" CANCELLED 0 in
  let w := worldOf [t] in
  let rule := {| ruleDepartment := None; ruleLevel := 1;
                 escalateTo := "manager"; timeoutHours := 4 |} in
  findById (db w) "t1" = Some t
  ∧ Spec.isTerminal (status t) = true
  ∧ ruleAt (getEscalationRules (db w) (department t)) (escalationLevel t)
      = Some rule
  ∧ ∃ w' t1 t',
      escalateTicket 10 "t1" "agent-1" "guest called again" w
        = (w', Return (Some t1))
      ∧ findById (db w') "t1" = Some t'
      ∧ status t' = ESCALATED
      ∧ isEscalated t' = true
      ∧ escalationLevel t' = escalationLevel t + 1
      ∧ assignedTo t' = Some (escalateTo rule)
      ∧ escalationHistory t' =
          escalationHistory t ++
          [{| level := escalationLevel t + 1; escalatedTo := escalateTo rule;
              escalatedBy := "agent-1"; reason := "guest called again";
              escalatedAt := 10 |}].
Proof.
  intros t w rule.
  assert (Hf : findById (db w) "t1" = Some t) by reflexivity.
  assert (Ht : Spec.isTerminal (status t) = true) by reflexivity.
  assert (Hr : ruleAt (getEscalationRules (db w) (department t))
                 (escalationLevel t) = Some rule) by reflexivity.
  split; [exact Hf|]. split; [exact Ht|]. split; [exact Hr|].
  apply (escalate_mutates_terminal_ticket 10 "t1" "agent-1"
           "guest called again" w t rule Hf Ht Hr).
Defined.

(** ** Deadlines *)

(** C6 fails on the code.  [addWorkingHours] adds the budget to the hour
    field of the local clock reading ([setHours(getHours() + hours)]), and
    [setHours] works on the wall clock and keeps the whole part of its
    argument only.  So, whatever the policy holds as working hours and
    holidays, nothing included, and at whatever time the calculation runs:
    in a zone that moves its clocks forward by one hour during the budget,
    the built-in resolution budget of 24 hours gives a deadline 23 hours
    after creation; and in UTC, a response budget of half an hour gives a
    response deadline at the creation time itself, and a resolution budget
    of one hour and a half a deadline one hour after creation.  With the
    whole budgets of the built-in policy and no change of the clocks the
    deadlines are creation plus 2 and plus 24 hours. *)
Theorem deadline_is_not_creation_plus_budget (wh : WorkingHours)
    (hol : list Z) (now : Z) :
  let policy := withCalendar getDefaultSLAConfig wh hol in
  let t := withPolicy (plainTicket "t1" OPEN 0) policy in
  let short := withPolicy t (withBudgets policy half oneAndAHalf) in
  let spring := withPolicy (plainTicket "t2" OPEN noon30March2024) policy in
  (responseTimeHours (slaConfig spring) = ofZ 2
   ∧ resolutionTimeHours (slaConfig spring) = ofZ 24
   ∧ responseDeadline (calculateSLA centralEurope2024 now spring)
     = DateAt (noon30March2024 + 2 * hour)
   ∧ resolutionDeadline (calculateSLA centralEurope2024 now spring)
     = DateAt (noon30March2024 + 23 * hour))
  ∧ (mul (responseTimeHours (slaConfig short)) (ofZ 2) = ofZ 1
     ∧ mul (resolutionTimeHours (slaConfig short)) (ofZ 2) = ofZ 3
     ∧ responseDeadline (calculateSLA utc now short) = DateAt 0
     ∧ resolutionDeadline (calculateSLA utc now short) = DateAt hour)
  ∧ (responseDeadline (calculateSLA utc now t) = DateAt (2 * hour)
     ∧ resolutionDeadline (calculateSLA utc now t) = DateAt (24 * hour)).
Proof. cbv zeta. repeat split; vm_compute; reflexivity. Qed.

(** C4, as the specification states it, fails: under a policy that was
    paused for one hour and resumed, the resolution deadline is not one hour
    later than under the never-paused policy; it is the same instant. *)
Lemma pause_does_not_shift_deadline :
  let t := plainTicket "t1" IN_PROGRESS 0 in
  let p := hour in
  let paused := withPolicy t (Spec.pausedThenResumed (slaConfig t) hour p) in
  resolutionDeadline (calculateSLA utc (3 * hour) paused)
    ≠ DateAt (24 * hour + p)
  ∧ resolutionDeadline (calculateSLA utc (3 * hour) t) = DateAt (24 * hour)
  ∧ resolutionDeadline (calculateSLA utc (3 * hour) paused)
    = DateAt (24 * hour).
Proof. cbv zeta. split; [|split]; vm_compute; congruence. Qed.

(** C4, amended.  The SLA calculation does not read the pause fields of the
    policy: for every ticket, replacing [isPaused], [pauseReason],
    [pausedAt] and [resumedAt] by any values, those of a policy paused for a
    duration [P] and resumed included, leaves the whole result as it is
    under the original policy; the resolution deadline is shifted by
    nothing. *)
Theorem pause_fields_are_ignored (tz : Zone) (now : Z) (t : Ticket)
    (paused : bool) (why : option string) (since resumed : option Z)
    (at_ p : Z) :
  calculateSLA tz now
    (withPolicy t (withPause (slaConfig t) paused why since resumed))
  = calculateSLA tz now t
  ∧ resolutionDeadline
      (calculateSLA tz now
         (withPolicy t (Spec.pausedThenResumed (slaConfig t) at_ p)))
    = resolutionDeadline (calculateSLA tz now t).
Proof. split; reflexivity. Qed.

(** C5, as the specification states it, fails.  Under the default policy
    (windows 09:00 to 18:00), in UTC, a ticket created at midnight has its
    response deadline at 02:00: the two hours counted hold no working
    minute.  And a ticket created at 09:00 on a day listed as holiday has
    its deadline at 11:00 that day: the holiday's minutes were counted. *)
Lemma deadline_counts_minutes_outside_working_time :
  let t := plainTicket "t1" OPEN 0 in
  let sla := slaConfig t in
  let holidaySla := withCalendar sla (workingHours sla) [0] in
  let t' := withPolicy (plainTicket "t2" OPEN (9 * hour)) holidaySla in
  (responseDeadline (calculateSLA utc 0 t) = DateAt (2 * hour)
   ∧ Spec.workingMinutesBetween utc sla (createdAt t) (2 * hour) = 0
   ∧ truncate (responseTimeHours sla) = Some 2)
  ∧ (responseDeadline (calculateSLA utc 0 t') = DateAt (11 * hour)
     ∧ Spec.workingMinutesBetween utc holidaySla (createdAt t') (11 * hour)
       = 0
     ∧ Spec.workingMinutesBetween utc sla (createdAt t') (11 * hour) = 120).
Proof. cbv zeta. repeat split; vm_compute; reflexivity. Qed.

(** C5, amended.  The deadline computation does not read the calendar:
    [addWorkingHours] gives the same date under any two policies, and for
    every ticket, putting any working-hours table and any holiday list in
    its policy leaves both deadlines, and the whole result of the SLA
    calculation, as they are.  Minutes outside the working windows and
    minutes of holidays count like any other. *)
Theorem calendar_is_ignored (tz : Zone) (now : Z) (t : Ticket)
    (wh : WorkingHours) (hol : list Z) :
  let t' := withPolicy t (withCalendar (slaConfig t) wh hol) in
  (∀ start hours sla sla',
     addWorkingHours tz start hours sla = addWorkingHours tz start hours sla')
  ∧ responseDeadline (calculateSLA tz now t')
    = responseDeadline (calculateSLA tz now t)
  ∧ resolutionDeadline (calculateSLA tz now t')
    = resolutionDeadline (calculateSLA tz now t)
  ∧ calculateSLA tz now t' = calculateSLA tz now t.
Proof. cbv zeta. repeat split; reflexivity. Qed.

(** ** Which tickets the sweep evaluates *)

(** C7, as the specification states it, fails: an ON_HOLD ticket, not in a
    terminal status and a day past its resolution deadline, is not in the
    sweep's selection, and the run over a store that holds only this ticket
    changes nothing and sends nothing.  The same ticket IN_PROGRESS is
    escalated and warned about. *)
Lemma on_hold_ticket_is_not_swept :
  let t := plainTicket "t1" ON_HOLD 0 in
  let w := worldOf [t] in
  let w' := worldOf [plainTicket "t1" IN_PROGRESS 0] in
  Spec.isTerminal (status t) = false
  ∧ t ∈ tickets (db w)
  ∧ (t ∉ findBy (db w) isOpen)
  ∧ checkSLABreaches utc (48 * hour) w = (w, Return tt)
  ∧ console (fst (checkSLABreaches utc (48 * hour) w'))
      = [EscalationNotification 1000 1; SLAWarning 1000 response_warning;
         SLAWarning 1000 resolution_warning].
Proof.
  cbv zeta. split; [reflexivity|]. split; [apply list_elem_of_here|].
  split; [|split; vm_compute; reflexivity].
  intros H. apply elem_of_findBy in H as [H _]. vm_compute in H. discriminate.
Qed.

(** C7, amended.  Every run of the sweep evaluates exactly the stored tickets
    whose status is OPEN or IN_PROGRESS and no others: a stored ticket that
    is ON_HOLD, ESCALATED, RESOLVED, CLOSED or CANCELLED is not in the
    selection, and when identifiers are unique it is stored unchanged after
    the run. *)
Theorem sweep_evaluates_open_and_in_progress (tz : Zone) (now : Z) (w : World)
    (t : Ticket) :
  NoDup (id <$> tickets (db w)) →
  t ∈ tickets (db w) →
  checkSLABreaches tz now w
    = forOf (findBy (db w) isOpen) (sweepTicket tz now) w
  ∧ (t ∈ findBy (db w) isOpen ↔ status t = OPEN ∨ status t = IN_PROGRESS)
  ∧ (status t ∈ [ON_HOLD; ESCALATED; RESOLVED; CLOSED; CANCELLED] →
     (t ∉ findBy (db w) isOpen)
     ∧ findById (db (fst (checkSLABreaches tz now w))) (id t) = Some t).
Proof.
  intros Hnd Ht. split; [reflexivity|]. split.
  - rewrite elem_of_findBy, isOpen_spec. tauto.
  - intros Hs.
    assert (isOpen t = false) as Hclosed.
    { rewrite !elem_of_cons, elem_of_nil in Hs. unfold isOpen.
      destruct Hs as [Hs|[Hs|[Hs|[Hs|[Hs|[]]]]]]; rewrite Hs; reflexivity. }
    split.
    + rewrite elem_of_findBy. intros [H _]. congruence.
    + apply sweep_skips; auto.
Qed.

Lemma sweep_evaluates_open_and_in_progress_witness :
  let t := plainTicket "t1" ON_HOLD 0 in
  let w := worldOf [t; plainTicket "t2" OPEN 0] in
  NoDup (id <$> tickets (db w))
  ∧ t ∈ tickets (db w)
  ∧ checkSLABreaches utc (48 * hour) w
      = forOf (findBy (db w) isOpen) (sweepTicket utc (48 * hour)) w
  ∧ (t ∈ findBy (db w) isOpen ↔ status t = OPEN ∨ status t = IN_PROGRESS)
  ∧ (status t ∈ [ON_HOLD; ESCALATED; RESOLVED; CLOSED; CANCELLED] →
     (t ∉ findBy (db w) isOpen)
     ∧ findById (db (fst (checkSLABreaches utc (48 * hour) w))) (id t) = Some t).
Proof.
  intros t w.
  assert (Hnd : NoDup (id <$> tickets (db w))).
  { apply (bool_decide_unpack _). vm_compute. exact I. }
  assert (Ht : t ∈ tickets (db w)) by apply list_elem_of_here.
  split; [exact Hnd|]. split; [exact Ht|].
  apply (sweep_evaluates_open_and_in_progress utc (48 * hour) w t Hnd Ht).
Defined.

(** The sweep's step on an unflagged ticket of the store with at most one
    hour of resolution time left and a ladder entry above its level: the
    stored ticket is escalated one level. *)
Lemma sweepTicket_escalates (tz : Zone) (now : Z) (w : World) (t : Ticket)
    (rule : EscalationRule) :
  findById (db w) (id t) = Some t →
  isEscalated t = false →
  leb (resolutionTimeRemaining (calculateSLA tz now t)) (ofZ 1) = true →
  ruleAt (getEscalationRules (db w) (department t)) (escalationLevel t)
    = Some rule →
  ∃ t', findById (db (fst (sweepTicket tz now t w))) (id t) = Some t'
        ∧ status t' = ESCALATED
        ∧ isEscalated t' = true
        ∧ escalationLevel t' = escalationLevel t + 1
        ∧ length (escalationHistory t') = S (length (escalationHistory t)).
Proof.
  intros Hf Hflag Hrisk Hrule.
  destruct (escalateTicket_found now (id t) "system"
              "Auto-escalated due to SLA breach risk" w t rule Hf Hrule)
    as (w1 & t1 & t' & Hrun & Hf' & Hs & Hie & Hl & _ & Hh & _).
  exists t'. split; [|repeat split; try done].
  - unfold sweepTicket.
    rewrite Hrisk, Hflag. cbn [andb negb when].
    match goal with |- context [bind (tryCatch ?m ?h) ?k] =>
      rewrite (bind_Return (tryCatch m h) k w w1 tt)
    end.
    2:{ unfold tryCatch, bind. rewrite Hrun. reflexivity. }
    match goal with |- findById (db (fst (?m w1))) _ = _ =>
      assert (Preserves (untouched (id t)) m) as Hp
    end.
    { unfold sendSLAWarning. preserve. }
    rewrite (Hp w1). exact Hf'.
  - rewrite Hh, length_app. simpl. lia.
Qed.

(** ** Repeated sweeps *)

Lemma findById_elem_of (c : Collections) (i : string) (t : Ticket) :
  findById c i = Some t → t ∈ tickets c ∧ id t = i.
Proof.
  unfold findById. intros H.
  destruct (findIndex i (tickets c)) as [[n x]|] eqn:E; [|discriminate].
  simpl in H. inversion H; subst x.
  apply findIndex_Some in E as [Hl Hid]. split; [|done].
  apply list_elem_of_lookup. eauto.
Qed.

(** C1, as the specification states it, fails in its second half.  A ticket
    is escalated by the sweep, an agent moves it from ESCALATED back to
    IN_PROGRESS, and a later sweep finds it past its resolution deadline,
    with a ladder entry still above it: the sweep does not escalate it
    again.  Its level is still 1 and its history still holds one record. *)
Lemma reopened_ticket_is_not_escalated_again :
  let w0 := worldOf [plainTicket "t1" OPEN 0] in
  let w1 := fst (checkSLABreaches utc (24 * hour) w0) in
  let w2 := fst (updateTicketStatus (24 * hour + 1) "t1" IN_PROGRESS "agent-1"
                   (Some "working on it") w1) in
  let w3 := fst (checkSLABreaches utc (25 * hour) w2) in
  (status <$> findById (db w1) "t1") = Some ESCALATED
  ∧ (escalationLevel <$> findById (db w1) "t1") = Some 1
  ∧ (status <$> findById (db w2) "t1") = Some IN_PROGRESS
  ∧ ((λ t, leb (resolutionTimeRemaining (calculateSLA utc (25 * hour) t))
              (ofZ 1))
       <$> findById (db w2) "t1") = Some true
  ∧ ((λ t, length (getEscalationRules (db w2) (department t)))
       <$> findById (db w2) "t1") = Some 2%nat
  ∧ findById (db w3) "t1" = findById (db w2) "t1"
  ∧ (escalationLevel <$> findById (db w3) "t1") = Some 1
  ∧ ((λ t, length (escalationHistory t)) <$> findById (db w3) "t1")
      = Some 1%nat.
Proof. cbv zeta. repeat split; vm_compute; reflexivity. Qed.

(** C1, amended.  With unique identifiers, for every stored ticket:
    if it is flagged as escalated or its status is ESCALATED, a run of the
    sweep leaves it stored as it is, so no escalation record is appended and
    its level is unchanged; and if it is flagged as escalated, moving it
    back to IN_PROGRESS keeps the flag, level and history, and a subsequent
    run of the sweep, at whatever time and however little resolution time
    remains, again leaves it stored as it is: the sweep does not escalate it
    again. *)
Theorem flagged_ticket_is_never_escalated_by_sweep (tz : Zone) (now now1 now2 : Z)
    (who : string) (why : option string) (w : World) (t : Ticket) :
  NoDup (id <$> tickets (db w)) →
  t ∈ tickets (db w) →
  (isEscalated t = true ∨ status t = ESCALATED →
   findById (db (fst (checkSLABreaches tz now w))) (id t) = Some t)
  ∧ (isEscalated t = true →
     let w1 := fst (updateTicketStatus now1 (id t) IN_PROGRESS who why w) in
     let w2 := fst (checkSLABreaches tz now2 w1) in
     ∃ t', findById (db w1) (id t) = Some t'
           ∧ status t' = IN_PROGRESS
           ∧ isEscalated t' = true
           ∧ escalationLevel t' = escalationLevel t
           ∧ escalationHistory t' = escalationHistory t
           ∧ findById (db w2) (id t) = Some t').
Proof.
  intros Hnd Ht. split.
  - intros H. apply sweep_skips; [done|done|].
    destruct H as [H|H]; [by left|right].
    unfold isOpen. rewrite H. reflexivity.
  - intros Hflag. cbv zeta.
    pose proof (findById_unique _ _ Hnd Ht) as Hf.
    destruct (updateTicketStatus_found now1 (id t) IN_PROGRESS who why w t Hf)
      as (w1 & t1 & t' & Hrun & Hf' & _ & Hs & _ & _ & Hie & Hl & Hh & _).
    rewrite Hrun. cbn [fst].
    exists t'. split; [exact Hf'|].
    split; [exact Hs|]. split; [congruence|]. split; [exact Hl|].
    split; [exact Hh|].
    destruct (findById_elem_of _ _ _ Hf') as [Hin Hid].
    rewrite <- Hid. apply sweep_skips.
    + pose proof (updateTicketStatus_sameIds now1 (id t) IN_PROGRESS who why w)
        as Hids.
      unfold sameIds in Hids. rewrite Hrun in Hids. cbn [fst] in Hids.
      rewrite Hids. exact Hnd.
    + exact Hin.
    + left. congruence.
Qed.

Lemma flagged_ticket_is_never_escalated_by_sweep_witness :
  let t := escalatedOnce "t1" 0 in
  let w := worldOf [t; plainTicket "t2" OPEN hour] in
  NoDup (id <$> tickets (db w))
  ∧ t ∈ tickets (db w)
  ∧ isEscalated t = true
  ∧ findById (db (fst (checkSLABreaches utc (25 * hour) w))) (id t) = Some t
  ∧ let w1 := fst (updateTicketStatus (24 * hour) (id t) IN_PROGRESS
                     "agent-1" (Some "working on it") w) in
    let w2 := fst (checkSLABreaches utc (26 * hour) w1) in
    ∃ t', findById (db w1) (id t) = Some t'
          ∧ status t' = IN_PROGRESS
          ∧ isEscalated t' = true
          ∧ escalationLevel t' = escalationLevel t
          ∧ escalationHistory t' = escalationHistory t
          ∧ findById (db w2) (id t) = Some t'.
Proof.
  intros t w.
  assert (Hnd : NoDup (id <$> tickets (db w))).
  { apply (bool_decide_unpack _). vm_compute. exact I. }
  assert (Ht : t ∈ tickets (db w)) by apply list_elem_of_here.
  assert (Hflag : isEscalated t = true) by reflexivity.
  pose proof (flagged_ticket_is_never_escalated_by_sweep utc (25 * hour)
                (24 * hour) (26 * hour) "agent-1" (Some "working on it")
                w t Hnd Ht) as [Ha Hb].
  split; [exact Hnd|]. split; [exact Ht|]. split; [exact Hflag|].
  split; [exact (Ha (or_introl Hflag))|exact (Hb Hflag)].
Defined.

(** ** The first response *)

Lemma findById_create (c : Collections) (newId : string) (data : Ticket)
    (now : Z) :
  findById c newId = None →
  findById (fst (create c newId data now)) newId = Some (snd (create c newId data now)).
Proof.
  unfold findById, findIndex, create. cbn [fst snd tickets withTickets].
  intros H.
  destruct (list_find (λ item, id item = newId) (tickets c)) as [[n x]|] eqn:E;
    [discriminate|].
  rewrite list_find_app_r by done. simpl.
  rewrite decide_True by done. done.
Qed.


Lemma generateSmartReplies_nonempty (c : TicketCategory) (text : string) :
  ∃ first rest, AiService.generateSmartReplies c text = first :: rest.
Proof. destruct c; eexists _, _; reflexivity. Qed.


(** The analysis of the description, step by step. *)
Lemma analysis_answers (platform : Platform) (data : CreateTicketData)
    (cat : TicketCategory) :
  analysisOf platform data = Return cat →
  ∃ score,
    analyzeSentiment platform (data_description data) = Return score
    ∧ match data_category data with
      | Some given => cat = given
      | None => ∃ result,
          categorizeTicket platform (data_description data) = Return result
          ∧ bestCategory result = cat
      end
    ∧ extractKeywords platform (data_description data) = Return tt.
Proof.
  unfold analysisOf, andThen.
  destruct (analyzeSentiment _ _) as [score|]; [|discriminate].
  intros H. exists score. split; [done|].
  destruct (data_category data) as [given|].
  - destruct (extractKeywords _ _) as [[]|]; [|discriminate].
    inversion H. done.
  - destruct (categorizeTicket _ _) as [result|]; [|discriminate].
    destruct (extractKeywords _ _) as [[]|]; [|discriminate].
    inversion H. split; [by exists result|done].
Qed.

Lemma categorization_run (platform : Platform) (data : CreateTicketData)
    (cat : TicketCategory) (w : World) :
  match data_category data with
  | Some given => cat = given
  | None => ∃ result,
      categorizeTicket platform (data_description data) = Return result
      ∧ bestCategory result = cat
  end →
  match data_category data with
  | Some given => ret given
  | None =>
      bind (lift (categorizeTicket platform (data_description data)))
           (λ result, ret (bestCategory result))
  end w = (w, Return cat).
Proof.
  destruct (data_category data) as [given|].
  - by intros ->.
  - intros (result & Hr & <-). unfold bind, lift. by rewrite Hr.
Qed.

(** Runs [createTicket] in the goal up to the end of an analysis that
    answers. *)
Ltac analysed H :=
  let score := fresh "score" in
  let Hscore := fresh "Hscore" in
  let Hcat := fresh "Hcat" in
  let Hkeys := fresh "Hkeys" in
  destruct (analysis_answers _ _ _ H) as (score & Hscore & Hcat & Hkeys);
  unfold createTicket;
  rewrite (bind_Return nextTicketNumber _ _ _ _ eq_refl);
  rewrite (bind_Return (lift _) _ _ _ score)
    by (unfold lift; rewrite Hscore; reflexivity);
  rewrite (bind_Return _ _ _ _ _ (categorization_run _ _ _ _ Hcat));
  rewrite (bind_Return (lift _) _ _ _ tt)
    by (unfold lift; rewrite Hkeys; reflexivity);
  cbn [ticketCounter db console].

(** An analysis that throws ends [createTicket] with its error: the number
    is taken, nothing is stored and nothing is written. *)
Lemma createTicket_throws (platform : Platform) (now : Z) (newId : string)
    (data : CreateTicketData) (w : World) (e : Error) :
  analysisOf platform data = Throw e →
  createTicket platform now newId data w = (numberTaken w, Throw e).
Proof.
  unfold analysisOf, andThen, createTicket. intros H.
  rewrite (bind_Return nextTicketNumber _ _ _ _ eq_refl).
  unfold bind at 1. unfold lift at 1.
  destruct (analyzeSentiment _ _) as [score|];
    [|inversion H; reflexivity].
  unfold bind at 1.
  destruct (data_category data) as [given|].
  - unfold ret at 1. unfold bind at 1. unfold lift at 1.
    destruct (extractKeywords _ _) as [[]|]; [discriminate|].
    inversion H; reflexivity.
  - unfold bind at 1. unfold lift at 1.
    destruct (categorizeTicket _ _) as [result|];
      [|inversion H; reflexivity].
    unfold ret at 1. unfold bind at 1. unfold lift at 1.
    destruct (extractKeywords _ _) as [[]|]; [discriminate|].
    inversion H; reflexivity.
Qed.







(** * Further properties of the code *)

(** ** The store: update, create, delete *)

Lemma findIndex_insert_frame (j : string) (ts : list Ticket) (n : nat)
    (t t' : Ticket) :
  ts !! n = Some t → id t ≠ j → id t' ≠ j →
  snd <$> findIndex j (<[n := t']> ts) = snd <$> findIndex j ts.
Proof.
  unfold findIndex. revert n.
  induction ts as [|x ts IH]; intros n Hl Hne Hne'; [done|].
  destruct n as [|n]; simpl in *.
  - inversion Hl; subst x.
    rewrite !decide_False by congruence. done.
  - destruct (decide (id x = j)); [done|].
    specialize (IH n Hl Hne Hne').
    destruct (list_find _ (<[n:=t']> ts)) as [[? ?]|],
             (list_find _ ts) as [[? ?]|]; simpl in *; congruence.
Qed.

(** X1.  [db.update] on a stored identifier returns the row that stands
    first under the identifier with every field the updates carry replaced
    by the value they carry and every other field kept; [updatedAt] is the
    time of the call, also when the updates carry an [updatedAt].  The
    returned row is stored in the place of the old one.  A lookup of an
    identifier that is neither the old one nor the one the updates carry
    gives what it gave before.  When the updates carry no identifier, a
    lookup of the identifier gives the returned row and the identifiers of
    the collection, in their order, are the same. *)
Theorem update_then_lookup (c : Collections) (i : string) (u : TicketUpdates)
    (now : Z) (t : Ticket) :
  findById c i = Some t →
  ∃ n t',
    tickets c !! n = Some t
    ∧ update c i u now = (withTickets c (<[n := t']> (tickets c)), Some t')
    ∧ (id t' = default (id t) (u_id u)
       ∧ ticketNumber t' = default (ticketNumber t) (u_ticketNumber u)
       ∧ description t' = default (description t) (u_description u)
       ∧ category t' = default (category t) (u_category u)
       ∧ status t' = default (status t) (u_status u)
       ∧ assignedTo t' = default (assignedTo t) (u_assignedTo u)
       ∧ department t' = default (department t) (u_department u)
       ∧ internalNotes t' = default (internalNotes t) (u_internalNotes u)
       ∧ responses t' = default (responses t) (u_responses u)
       ∧ slaConfig t' = default (slaConfig t) (u_slaConfig u)
       ∧ escalationHistory t'
         = default (escalationHistory t) (u_escalationHistory u)
       ∧ isEscalated t' = default (isEscalated t) (u_isEscalated u)
       ∧ escalationLevel t'
         = default (escalationLevel t) (u_escalationLevel u)
       ∧ createdAt t' = default (createdAt t) (u_createdAt u)
       ∧ resolvedAt t' = default (resolvedAt t) (u_resolvedAt u)
       ∧ closedAt t' = default (closedAt t) (u_closedAt u))
    ∧ updatedAt t' = now
    ∧ (∀ j, j ≠ i → u_id u ≠ Some j →
         findById (fst (update c i u now)) j = findById c j)
    ∧ (u_id u = None →
       findById (fst (update c i u now)) i = Some t'
       ∧ id <$> tickets (fst (update c i u now)) = id <$> tickets c).
Proof.
  intros H. unfold findById in H.
  destruct (findIndex i (tickets c)) as [[n x]|] eqn:E; [|discriminate].
  simpl in H. inversion H; subst x. clear H.
  destruct (findIndex_Some _ _ _ _ E) as [Hl Hid].
  assert (Hrun : update c i u now
                 = (withTickets c (<[n := spread t u now]> (tickets c)),
                    Some (spread t u now)))
    by (unfold update; by rewrite E).
  exists n, (spread t u now).
  split; [exact Hl|]. split; [exact Hrun|].
  split; [by repeat split|]. split; [done|].
  rewrite Hrun. cbn [fst]. unfold findById. cbn [tickets withTickets].
  split.
  - intros j Hj Hu. apply (findIndex_insert_frame j _ n t); [done|congruence|].
    cbn [spread id]. destruct (u_id u) as [k|]; simpl; congruence.
  - intros Hu. pose proof (spread_id t u now Hu) as Hid'. split.
    + rewrite (findIndex_insert_same i _ n t) by congruence. done.
    + rewrite list_fmap_insert. apply list_insert_id.
      rewrite list_lookup_fmap, Hl. simpl. by rewrite Hu.
Qed.

Lemma update_then_lookup_witness :
  let t := plainTicket "t1" OPEN 0 in
  let c := db (worldOf [plainTicket "t0" OPEN 0; t]) in
  let u := {| u_status := Some ON_HOLD; u_assignedTo := Some None;
              u_internalNotes := None; u_responses := None;
              u_escalationHistory := None; u_isEscalated := None;
              u_escalationLevel := None; u_resolvedAt := None;
              u_closedAt := None;
              u_id := None; u_ticketNumber := None;
              u_description := Some "The room is clean now";
              u_category := None; u_department := None; u_slaConfig := None;
              u_createdAt := Some 3; u_updatedAt := Some 4 |} in
  findById c "t1" = Some t
  ∧ ∃ n t',
      tickets c !! n = Some t
      ∧ update c "t1" u 7 = (withTickets c (<[n := t']> (tickets c)), Some t')
      ∧ (id t' = default (id t) (u_id u)
         ∧ ticketNumber t' = default (ticketNumber t) (u_ticketNumber u)
         ∧ description t' = default (description t) (u_description u)
         ∧ category t' = default (category t) (u_category u)
         ∧ status t' = default (status t) (u_status u)
         ∧ assignedTo t' = default (assignedTo t) (u_assignedTo u)
         ∧ department t' = default (department t) (u_department u)
         ∧ internalNotes t' = default (internalNotes t) (u_internalNotes u)
         ∧ responses t' = default (responses t) (u_responses u)
         ∧ slaConfig t' = default (slaConfig t) (u_slaConfig u)
         ∧ escalationHistory t'
           = default (escalationHistory t) (u_escalationHistory u)
         ∧ isEscalated t' = default (isEscalated t) (u_isEscalated u)
         ∧ escalationLevel t'
           = default (escalationLevel t) (u_escalationLevel u)
         ∧ createdAt t' = default (createdAt t) (u_createdAt u)
         ∧ resolvedAt t' = default (resolvedAt t) (u_resolvedAt u)
         ∧ closedAt t' = default (closedAt t) (u_closedAt u))
      ∧ updatedAt t' = 7
      ∧ (∀ j, j ≠ "t1" → u_id u ≠ Some j →
           findById (fst (update c "t1" u 7)) j = findById c j)
      ∧ (u_id u = None →
         findById (fst (update c "t1" u 7)) "t1" = Some t'
         ∧ id <$> tickets (fst (update c "t1" u 7)) = id <$> tickets c).
Proof.
  intros t c u.
  assert (H : findById c "t1" = Some t) by reflexivity.
  split; [exact H|]. apply (update_then_lookup c "t1" u 7 t H).
Defined.

Lemma findById_create_old (c : Collections) (newId : string) (row : Ticket)
    (now : Z) (j : string) (t : Ticket) :
  findById c j = Some t → findById (fst (create c newId row now)) j = Some t.
Proof.
  unfold findById, findIndex, create. cbn [fst tickets withTickets].
  intros H.
  destruct (list_find (λ item, id item = j) (tickets c)) as [[n x]|] eqn:E;
    [|discriminate].
  rewrite (list_find_app_l _ _ _ _ _ E). exact H.
Qed.

(** X2.  Creating a row under an identifier not yet stored appends exactly
    that row, stamped as created and updated at the time of the call; a
    lookup of the new identifier finds it, and every lookup that found a row
    before finds the same row. *)
Theorem create_then_lookup (c : Collections) (newId : string) (row : Ticket)
    (now : Z) :
  findById c newId = None →
  let c' := fst (create c newId row now) in
  let saved := snd (create c newId row now) in
  tickets c' = tickets c ++ [saved]
  ∧ id saved = newId ∧ createdAt saved = now ∧ updatedAt saved = now
  ∧ findById c' newId = Some saved
  ∧ (∀ j t, findById c j = Some t → findById c' j = Some t).
Proof.
  intros Hfresh. cbv zeta.
  split; [done|]. split; [done|]. split; [done|]. split; [done|].
  split; [by apply findById_create|].
  intros j t. apply findById_create_old.
Qed.

Lemma create_then_lookup_witness :
  let c := db (worldOf [plainTicket "t0" OPEN 0]) in
  let row := plainTicket "" OPEN 0 in
  findById c "t1" = None
  ∧ let c' := fst (create c "t1" row 5) in
    let saved := snd (create c "t1" row 5) in
    tickets c' = tickets c ++ [saved]
    ∧ id saved = "t1" ∧ createdAt saved = 5 ∧ updatedAt saved = 5
    ∧ findById c' "t1" = Some saved
    ∧ (∀ j t, findById c j = Some t → findById c' j = Some t).
Proof.
  intros c row.
  assert (H : findById c "t1" = None) by reflexivity.
  split; [exact H|]. apply (create_then_lookup c "t1" row 5 H).
Defined.

Lemma findIndex_delete_other (j : string) (ts : list Ticket) (n : nat)
    (t : Ticket) :
  ts !! n = Some t → id t ≠ j →
  snd <$> findIndex j (base.delete n ts) = snd <$> findIndex j ts.
Proof.
  unfold findIndex. revert n.
  induction ts as [|x ts IH]; intros n Hl Hne; [done|].
  destruct n as [|n]; simpl in *.
  - inversion Hl; subst x. rewrite decide_False by done.
    destruct (list_find _ ts) as [[? ?]|]; done.
  - destruct (decide (id x = j)); [done|].
    specialize (IH n Hl Hne).
    destruct (list_find _ (base.delete n ts)) as [[? ?]|],
             (list_find _ ts) as [[? ?]|]; simpl in *; congruence.
Qed.

Lemma findIndex_delete_same (i : string) (ts : list Ticket) (n : nat)
    (t : Ticket) :
  NoDup (id <$> ts) → findIndex i ts = Some (n, t) →
  findIndex i (base.delete n ts) = None.
Proof.
  intros Hnd Hf. apply list_find_None, Forall_forall. intros x Hx Hid.
  destruct (findIndex_Some _ _ _ _ Hf) as [Hl Hidt].
  apply list_elem_of_lookup in Hx as [m Hm].
  assert (Hm' : ∃ k, k ≠ n ∧ ts !! k = Some x).
  { destruct (decide (m < n)%nat).
    - exists m. rewrite list_lookup_delete_lt in Hm by done. split; [lia|done].
    - exists (S m). rewrite list_lookup_delete_ge in Hm by lia.
      split; [lia|done]. }
  destruct Hm' as (k & Hk & Hkx). apply Hk.
  apply (NoDup_lookup (id <$> ts) k n i); [done| |].
  - rewrite list_lookup_fmap, Hkx. simpl. by rewrite Hid.
  - rewrite list_lookup_fmap, Hl. simpl. by rewrite Hidt.
Qed.

(** X3.  In a collection with unique identifiers, deleting a stored
    identifier answers [true], removes one row, makes a lookup of the
    identifier find nothing and leaves every other lookup as it was;
    deleting an identifier that is not stored answers [false] and changes
    nothing. *)
Theorem delete_then_lookup (c : Collections) (i : string) :
  NoDup (id <$> tickets c) →
  match findById c i with
  | Some _ =>
      snd (delete c i) = true
      ∧ findById (fst (delete c i)) i = None
      ∧ (∀ j, j ≠ i → findById (fst (delete c i)) j = findById c j)
      ∧ S (length (tickets (fst (delete c i)))) = length (tickets c)
  | None => delete c i = (c, false)
  end.
Proof.
  intros Hnd. unfold findById, delete.
  destruct (findIndex i (tickets c)) as [[n t]|] eqn:E; simpl; [|done].
  destruct (findIndex_Some _ _ _ _ E) as [Hl Hid].
  split; [done|]. split; [|split].
  - by rewrite (findIndex_delete_same i _ n t).
  - intros j Hj. apply (findIndex_delete_other j _ n t); [done|congruence].
  - rewrite length_delete by eauto.
    apply lookup_lt_Some in Hl. lia.
Qed.

Lemma delete_then_lookup_witness :
  let c := db (worldOf [plainTicket "t0" OPEN 0; plainTicket "t1" OPEN 0]) in
  NoDup (id <$> tickets c)
  ∧ snd (delete c "t1") = true
  ∧ findById (fst (delete c "t1")) "t1" = None
  ∧ (∀ j, j ≠ "t1" → findById (fst (delete c "t1")) j = findById c j)
  ∧ S (length (tickets (fst (delete c "t1")))) = length (tickets c).
Proof.
  intros c.
  assert (Hnd : NoDup (id <$> tickets c)).
  { apply (bool_decide_unpack _). vm_compute. exact I. }
  split; [exact Hnd|]. exact (delete_then_lookup c "t1" Hnd).
Defined.

(** ** The store: paginated queries *)

Lemma insertBy_perm {A} (compare : A → A → Z) (x : A) (l : list A) :
  insertBy compare x l ≡ₚ x :: l.
Proof.
  induction l as [|y l IH]; simpl; [done|].
  destruct (compare x y <=? 0); [done|].
  rewrite IH. apply Permutation_swap.
Qed.

Lemma sort_perm {A} (compare : A → A → Z) (l : list A) :
  sort compare l ≡ₚ l.
Proof.
  unfold sort. induction l as [|x l IH]; simpl; [done|].
  rewrite insertBy_perm. by rewrite IH.
Qed.

Lemma ltb_asym (a b : number) : ltb a b = true → ltb b a = false.
Proof.
  unfold ltb, SFltb, SFcompare.
  destruct a as [[]|[]| |[] ma ea], b as [[]|[]| |[] mb eb]; try done;
  try (rewrite (Z.compare_antisym ea eb);
       destruct (Z.compare_spec ea eb); simpl; try done;
       change (Pcompare ?a ?b Eq) with (Pos.compare a b);
       rewrite (Pos.compare_antisym ma mb);
       destruct (Pos.compare_spec ma mb); simpl; done).
Qed.

Lemma ltb_irrefl (a : number) : ltb a a = false.
Proof. destruct (ltb a a) eqn:E; [|done]. by rewrite (ltb_asym a a E) in E. Qed.

Lemma ltb_negtrans (a b c : number) :
  isNaN a = false → isNaN b = false → isNaN c = false →
  ltb b a = false → ltb c b = false → ltb c a = false.
Proof.
  unfold ltb, SFltb, SFcompare.
  destruct a as [[]|[]| |[] ma ea], b as [[]|[]| |[] mb eb],
           c as [[]|[]| |[] mc ec]; try done; intros _ _ _;
  change (Pcompare ?a ?b Eq) with (Pos.compare a b);
  destruct (Z.compare_spec eb ea), (Z.compare_spec ec eb),
           (Z.compare_spec ec ea); simpl; try done; try lia;
  destruct (Pos.compare_spec mb ma), (Pos.compare_spec mc mb),
           (Pos.compare_spec mc ma); simpl; try done; try lia.
Qed.

Lemma stringLt_asym (a b : string) : stringLt a b = true → stringLt b a = false.
Proof.
  unfold stringLt. rewrite (String.compare_antisym a b).
  destruct (String.compare b a); simpl; congruence.
Qed.

Lemma stringLt_negtrans (a b c : string) :
  stringLt b a = false → stringLt c b = false → stringLt c a = false.
Proof.
  unfold stringLt. revert b c.
  induction a as [|x a IH]; intros [|y b] [|z c]; simpl; try done.
  unfold Ascii.compare.
  destruct (N.compare_spec (N_of_ascii y) (N_of_ascii x)) as [E1|E1|E1],
           (N.compare_spec (N_of_ascii z) (N_of_ascii y)) as [E2|E2|E2],
           (N.compare_spec (N_of_ascii z) (N_of_ascii x)) as [E3|E3|E3];
    try done; try lia.
  all: try apply IH; try lia.
Qed.

Lemma lessThan_asym (f : string → number) (a b : SortValue) :
  lessThan f a b = true → lessThan f b a = false.
Proof.
  destruct a, b; simpl; try apply ltb_asym. apply stringLt_asym.
Qed.

Lemma lessThan_irrefl (f : string → number) (a : SortValue) :
  lessThan f a a = false.
Proof.
  destruct (lessThan f a a) eqn:E; [|done].
  by rewrite (lessThan_asym f a a E) in E.
Qed.

Lemma lessThan_negtrans (f : string → number) (good : SortValue → bool)
    (a b c : SortValue) :
  orderedKind good →
  good a = true → good b = true → good c = true →
  lessThan f b a = false → lessThan f c b = false → lessThan f c a = false.
Proof.
  intros [-> | ->]; destruct a as [|x|x], b as [|y|y], c as [|z|z];
    simpl; try done.
  - intros Hx Hy Hz. apply ltb_negtrans; by apply negb_true_iff.
  - intros _ _ _. apply stringLt_negtrans.
Qed.

Lemma compareBy_le (f : string → number) (key : Ticket → SortValue)
    (desc : bool) (a b : Ticket) :
  (compareBy f key desc a b <=? 0) = true → ordered f key desc a b.
Proof.
  unfold compareBy, ordered.
  destruct desc.
  - destruct (lessThan f (key b) (key a)) eqn:E1.
    + intros _. by apply lessThan_asym.
    + by destruct (lessThan f (key a) (key b)).
  - destruct (lessThan f (key a) (key b)) eqn:E1.
    + intros _. by apply lessThan_asym.
    + by destruct (lessThan f (key b) (key a)).
Qed.

Lemma compareBy_gt (f : string → number) (key : Ticket → SortValue)
    (desc : bool) (a b : Ticket) :
  (compareBy f key desc a b <=? 0) = false →
  ordered f key desc b a ∧ key a ≠ key b.
Proof.
  unfold compareBy, ordered.
  destruct desc.
  - destruct (lessThan f (key b) (key a)) eqn:E1; [done|].
    destruct (lessThan f (key a) (key b)) eqn:E2; [|done].
    intros _. split; [done|]. intros E. rewrite E in E2.
    by rewrite lessThan_irrefl in E2.
  - destruct (lessThan f (key a) (key b)) eqn:E1; [done|].
    destruct (lessThan f (key b) (key a)) eqn:E2; [|done].
    intros _. split; [done|]. intros E. rewrite E in E2.
    by rewrite lessThan_irrefl in E2.
Qed.

Lemma ordered_trans (f : string → number) (good : SortValue → bool)
    (key : Ticket → SortValue) (desc : bool) (a b c : Ticket) :
  orderedKind good →
  good (key a) = true → good (key b) = true → good (key c) = true →
  ordered f key desc a b → ordered f key desc b c → ordered f key desc a c.
Proof.
  unfold ordered. intros Hk Ha Hb Hc. destruct desc; intros H1 H2.
  - by apply (lessThan_negtrans f good (key c) (key b) (key a)).
  - by apply (lessThan_negtrans f good (key a) (key b) (key c)).
Qed.

Lemma insertBy_sorted (f : string → number) (good : SortValue → bool)
    (key : Ticket → SortValue) (desc : bool) (x : Ticket) (l : list Ticket) :
  orderedKind good →
  good (key x) = true → Forall (λ t, good (key t) = true) l →
  StronglySorted (ordered f key desc) l →
  StronglySorted (ordered f key desc) (insertBy (compareBy f key desc) x l).
Proof.
  intros Hk Hx.
  induction l as [|y l IH]; intros Hgood Hs; simpl.
  - repeat constructor.
  - apply StronglySorted_inv in Hs as [Hl Hy].
    apply Forall_cons in Hgood as [Hgy Hgl].
    destruct (compareBy f key desc x y <=? 0) eqn:E.
    + apply compareBy_le in E. constructor; [by constructor|].
      constructor; [done|].
      rewrite Forall_forall in Hy, Hgl. apply Forall_forall. intros z Hz.
      apply (ordered_trans f good key desc x y z); auto.
    + apply compareBy_gt in E as [E _]. constructor; [by apply IH|].
      rewrite insertBy_perm. by constructor.
Qed.

Lemma sort_sorted (f : string → number) (good : SortValue → bool)
    (key : Ticket → SortValue) (desc : bool) (l : list Ticket) :
  orderedKind good →
  Forall (λ t, good (key t) = true) l →
  StronglySorted (ordered f key desc) (sort (compareBy f key desc) l).
Proof.
  intros Hk. unfold sort.
  induction l as [|x l IH]; intros Hgood; simpl; [constructor|].
  apply Forall_cons in Hgood as [Hx Hl].
  apply (insertBy_sorted f good); auto.
  eapply Forall_forall. intros t Ht.
  rewrite Forall_forall in Hl. apply Hl.
  by rewrite <- (sort_perm (compareBy f key desc) l).
Qed.

Lemma sort_comparable (f : string → number) (key : Ticket → SortValue)
    (desc : bool) (l : list Ticket) :
  comparable key l →
  StronglySorted (ordered f key desc) (sort (compareBy f key desc) l).
Proof.
  intros [H|H].
  - apply (sort_sorted f isNumber); [by left|done].
  - apply (sort_sorted f isString); [by right|done].
Qed.

Lemma insertBy_stable (f : string → number) (key : Ticket → SortValue)
    (desc : bool) (k : SortValue) (x : Ticket) (l : list Ticket) :
  filter (λ t, key t = k) (insertBy (compareBy f key desc) x l)
  = filter (λ t, key t = k) (x :: l).
Proof.
  induction l as [|y l IH]; simpl; [done|].
  destruct (compareBy f key desc x y <=? 0) eqn:E; [done|].
  apply compareBy_gt in E as [_ E].
  rewrite (filter_cons _ y), IH, !filter_cons.
  destruct (decide (key y = k)), (decide (key x = k)); congruence.
Qed.

Lemma sort_stable (f : string → number) (key : Ticket → SortValue)
    (desc : bool) (k : SortValue) (l : list Ticket) :
  filter (λ t, key t = k) (sort (compareBy f key desc) l)
  = filter (λ t, key t = k) l.
Proof.
  unfold sort. induction l as [|x l IH]; simpl; [done|].
  rewrite insertBy_stable, !filter_cons, IH. done.
Qed.

Lemma StronglySorted_take_drop {A} (R : A → A → Prop) (l : list A)
    (n m : nat) :
  StronglySorted R l → StronglySorted R (take n (drop m l)).
Proof.
  intros Hs.
  assert (Hd : StronglySorted R (drop m l)).
  { rewrite <- (take_drop m l) in Hs.
    by apply StronglySorted_app_1_r in Hs. }
  rewrite <- (take_drop n (drop m l)) in Hd.
  by apply StronglySorted_app_1_l in Hd.
Qed.

(** A window that starts inside or after the array, of a non-negative
    length. *)
Lemma slice_window {A} (l : list A) (start n : Z) :
  0 <= start → 0 <= n →
  slice l start (start + n) = take (Z.to_nat n) (drop (Z.to_nat start) l).
Proof.
  intros Hs Hn. unfold slice.
  assert ((start <? 0) = false) as -> by (apply Z.ltb_ge; lia).
  assert ((start + n <? 0) = false) as -> by (apply Z.ltb_ge; lia).
  destruct (Z.le_gt_cases (Z.of_nat (length l)) start) as [Hout|Hin].
  - rewrite !drop_ge by lia. by rewrite !take_nil.
  - replace (Z.to_nat (Z.min start (Z.of_nat (length l)))) with (Z.to_nat start)
      by lia.
    destruct (Z.le_gt_cases (start + n) (Z.of_nat (length l))).
    + f_equal. lia.
    + rewrite !take_ge; [done| |]; rewrite length_drop; lia.
Qed.

(** X4.  A paginated query with a page number and a limit of at least 1
    answers the window of the matching rows that starts after the earlier
    pages: at most [limit] rows, row [i] of the page being row
    [(page - 1) * limit + i] of the matching rows; [total] counts all
    matching rows; [totalPages] is the least number of pages that hold them;
    and a page after the last one is empty. *)
Theorem page_is_window (stringToNumber : string → number) (c : Collections)
    (o : PaginationOptions) :
  1 <= page o → 1 <= limit o →
  let answer := snd (findWithPagination stringToNumber c o) in
  let start := Z.to_nat ((page o - 1) * limit o) in
  data answer
  = take (Z.to_nat (limit o)) (drop start (resultRows stringToNumber c o))
  ∧ (∀ i : nat, (Z.of_nat i < limit o) →
       data answer !! i = resultRows stringToNumber c o !! (start + i)%nat)
  ∧ Z.of_nat (length (data answer)) <= limit o
  ∧ total answer = Z.of_nat (length (resultRows stringToNumber c o))
  ∧ (∃ pages, totalPages answer = Some pages
              ∧ (pages - 1) * limit o < total answer
              ∧ total answer <= pages * limit o
              ∧ (pages < page o → data answer = [])).
Proof.
  intros Hp Hl. cbv zeta.
  assert (Hdata : data (snd (findWithPagination stringToNumber c o))
                  = take (Z.to_nat (limit o))
                      (drop (Z.to_nat ((page o - 1) * limit o))
                         (resultRows stringToNumber c o))).
  { unfold findWithPagination, resultRows. cbn [snd data].
    apply slice_window; nia. }
  split; [exact Hdata|]. split; [|split; [|split; [done|]]].
  - intros i Hi. etransitivity; [by rewrite Hdata|].
    rewrite lookup_take_lt by lia. apply lookup_drop.
  - etransitivity; [by rewrite Hdata|]. rewrite length_take. lia.
  - assert (Htotal : total (snd (findWithPagination stringToNumber c o))
                     = Z.of_nat (length (resultRows stringToNumber c o))) by reflexivity.
    assert (Hpages : totalPages (snd (findWithPagination stringToNumber c o))
                     = ceilDiv (Z.of_nat (length (resultRows stringToNumber c o))) (limit o))
      by reflexivity.
    rewrite Hpages, Htotal. unfold ceilDiv.
    assert ((limit o =? 0) = false) as -> by (apply Z.eqb_neq; lia).
    eexists. split; [reflexivity|].
    set (n := Z.of_nat (length (resultRows stringToNumber c o))).
    assert (Hn : 0 <= n) by (unfold n; lia).
    pose proof (Z.div_mod (- n) (limit o) ltac:(lia)) as Hdm.
    pose proof (Z.mod_pos_bound (- n) (limit o) ltac:(lia)) as Hm.
    split; [nia|]. split; [nia|].
    intros Hlast. rewrite Hdata.
    rewrite drop_ge; [by rewrite take_nil|]. fold n in Hdm. unfold n in *. nia.
Qed.

Lemma page_is_window_witness :
  let c := db (worldOf [plainTicket "t0" OPEN 3; plainTicket "t1" OPEN 1;
                        plainTicket "t2" CLOSED 2]) in
  let o := {| page := 2; limit := 2; sortBy := Some byCreatedAt;
              sortDesc := true; filterBy := None |} in
  1 <= page o ∧ 1 <= limit o
  ∧ let answer := snd (findWithPagination readsNoNumber c o) in
    let start := Z.to_nat ((page o - 1) * limit o) in
    data answer = take (Z.to_nat (limit o)) (drop start (resultRows readsNoNumber c o))
    ∧ (∀ i : nat, (Z.of_nat i < limit o) →
         data answer !! i = resultRows readsNoNumber c o !! (start + i)%nat)
    ∧ Z.of_nat (length (data answer)) <= limit o
    ∧ total answer = Z.of_nat (length (resultRows readsNoNumber c o))
    ∧ (∃ pages, totalPages answer = Some pages
                ∧ (pages - 1) * limit o < total answer
                ∧ total answer <= pages * limit o
                ∧ (pages < page o → data answer = [])).
Proof.
  intros c o.
  assert (Hp : 1 <= page o) by (vm_compute; discriminate).
  assert (Hl : 1 <= limit o) by (vm_compute; discriminate).
  split; [exact Hp|]. split; [exact Hl|].
  apply (page_is_window readsNoNumber c o Hp Hl).
Defined.

(** X5.  A paginated query with limit 0 answers no row and has no finite
    page count; with page 0 and a limit of at least 0 it answers no row
    either. *)
Theorem page_zero_or_limit_zero_is_empty (stringToNumber : string → number)
    (c : Collections)
    (o : PaginationOptions) :
  (limit o = 0 ∨ (page o = 0 ∧ 0 <= limit o)) →
  data (snd (findWithPagination stringToNumber c o)) = []
  ∧ (limit o = 0 →
     totalPages (snd (findWithPagination stringToNumber c o)) = None).
Proof.
  intros H. split.
  - unfold findWithPagination. cbn [snd data]. fold (resultRows stringToNumber c o).
    unfold slice. set (len := Z.of_nat (length (resultRows stringToNumber c o))).
    assert (0 <= len) by (unfold len; lia).
    match goal with |- take ?n _ = _ => assert (n = 0%nat) as -> end;
      [|reflexivity].
    destruct H as [H|[H1 H2]].
    + rewrite H. rewrite !Z.mul_0_r, Z.add_0_r. lia.
    + rewrite H1. replace ((0 - 1) * limit o + limit o) with 0 by lia.
      change (0 <? 0) with false. cbv iota.
      destruct (Z.ltb_spec ((0 - 1) * limit o) 0); lia.
  - intros Hz. unfold findWithPagination, ceilDiv. cbn [snd totalPages].
    rewrite Hz. reflexivity.
Qed.

Lemma page_zero_or_limit_zero_is_empty_witness :
  let c := db (worldOf [plainTicket "t0" OPEN 3; plainTicket "t1" OPEN 1]) in
  let o := {| page := 0; limit := 5; sortBy := None; sortDesc := false;
              filterBy := None |} in
  (limit o = 0 ∨ (page o = 0 ∧ 0 <= limit o))
  ∧ data (snd (findWithPagination readsNoNumber c o)) = []
  ∧ (limit o = 0 → totalPages (snd (findWithPagination readsNoNumber c o)) = None).
Proof.
  intros c o.
  assert (H : limit o = 0 ∨ (page o = 0 ∧ 0 <= limit o)).
  { right. split; [reflexivity|]. vm_compute. discriminate. }
  split; [exact H|]. apply (page_zero_or_limit_zero_is_empty readsNoNumber c o H).
Defined.

(** X6.  When a paginated query sorts by a field under which the rows that
    pass its filter all hold a number other than [NaN], or all hold a
    string, its answer is cut out of an ordering of those rows: the rows
    that pass the filter, each exactly as often as it is stored, in the
    order asked for, rows with equal sort values keeping their store order.
    The page is the slice of that ordering between [(page - 1) * limit] and
    that plus [limit], and is in the order asked for itself; [total] counts
    the ordering; without a filter the store holds the ordering
    afterwards. *)
Theorem pages_are_cut_from_a_stable_ordering
    (stringToNumber : string → number) (c : Collections)
    (o : PaginationOptions) (key : Ticket → SortValue) :
  sortBy o = Some key →
  comparable key (candidateRows c o) →
  let answer := snd (findWithPagination stringToNumber c o) in
  let inOrder := ordered stringToNumber key (sortDesc o) in
  ∃ rows,
    rows ≡ₚ candidateRows c o
    ∧ StronglySorted inOrder rows
    ∧ (∀ k, filter (λ t, key t = k) rows
            = filter (λ t, key t = k) (candidateRows c o))
    ∧ data answer
      = slice rows ((page o - 1) * limit o) ((page o - 1) * limit o + limit o)
    ∧ StronglySorted inOrder (data answer)
    ∧ total answer = Z.of_nat (length rows)
    ∧ (filterBy o = None →
       tickets (fst (findWithPagination stringToNumber c o)) = rows).
Proof.
  intros Hkey Hcmp. cbv zeta.
  exists (sort (compareBy stringToNumber key (sortDesc o)) (candidateRows c o)).
  assert (Hsorted : StronglySorted (ordered stringToNumber key (sortDesc o))
            (sort (compareBy stringToNumber key (sortDesc o))
               (candidateRows c o))) by (by apply sort_comparable).
  unfold findWithPagination. rewrite Hkey. cbn [snd fst data total].
  fold (candidateRows c o).
  split; [apply sort_perm|]. split; [exact Hsorted|].
  split; [intros k; apply sort_stable|]. split; [done|].
  split; [by apply StronglySorted_take_drop|]. split; [done|].
  intros Hnone. unfold candidateRows. by rewrite Hnone.
Qed.

Lemma pages_are_cut_from_a_stable_ordering_witness :
  let c := db (worldOf [plainTicket "t0" OPEN 3; plainTicket "t1" OPEN 1;
                        plainTicket "t2" CLOSED 3; plainTicket "t3" OPEN 3]) in
  let o := {| page := 1; limit := 2; sortBy := Some byCreatedAt;
              sortDesc := false; filterBy := Some isOpen |} in
  sortBy o = Some byCreatedAt
  ∧ comparable byCreatedAt (candidateRows c o)
  ∧ let answer := snd (findWithPagination readsNoNumber c o) in
    let inOrder := ordered readsNoNumber byCreatedAt (sortDesc o) in
    ∃ rows,
      rows ≡ₚ candidateRows c o
      ∧ StronglySorted inOrder rows
      ∧ (∀ k, filter (λ t, byCreatedAt t = k) rows
              = filter (λ t, byCreatedAt t = k) (candidateRows c o))
      ∧ data answer
        = slice rows ((page o - 1) * limit o)
            ((page o - 1) * limit o + limit o)
      ∧ StronglySorted inOrder (data answer)
      ∧ total answer = Z.of_nat (length rows)
      ∧ (filterBy o = None →
         tickets (fst (findWithPagination readsNoNumber c o)) = rows).
Proof.
  intros c o.
  assert (H : sortBy o = Some byCreatedAt) by reflexivity.
  assert (Hcmp : comparable byCreatedAt (candidateRows c o)).
  { left. vm_compute. repeat constructor. }
  split; [exact H|]. split; [exact Hcmp|].
  apply (pages_are_cut_from_a_stable_ordering readsNoNumber c o byCreatedAt
           H Hcmp).
Defined.

Lemma findById_perm (c c' : Collections) (j : string) :
  NoDup (id <$> tickets c) → tickets c' ≡ₚ tickets c →
  findById c' j = findById c j.
Proof.
  intros Hnd Hp.
  destruct (findById c j) as [t|] eqn:E.
  - destruct (findById_elem_of _ _ _ E) as [Hin <-].
    apply findById_unique; [by rewrite Hp|by rewrite Hp].
  - unfold findById, findIndex in *.
    destruct (list_find _ (tickets c)) as [[? ?]|] eqn:E'; [discriminate|].
    apply list_find_None in E'. rewrite <- Hp in E'.
    assert (list_find (λ item, id item = j) (tickets c') = None) as ->
      by (by apply list_find_None).
    done.
Qed.

(** X7.  A paginated query with a filter leaves the store as it is.  One
    without a filter stores the rows back in the order of its answer: the
    stored rows are the same, each as often as before, and with unique
    identifiers every lookup by identifier gives what it gave before. *)
Theorem query_reorders_store_only (stringToNumber : string → number)
    (c : Collections) (o : PaginationOptions) :
  NoDup (id <$> tickets c) →
  let c' := fst (findWithPagination stringToNumber c o) in
  match filterBy o with
  | Some _ => c' = c
  | None => tickets c' = resultRows stringToNumber c o
  end
  ∧ tickets c' ≡ₚ tickets c
  ∧ (∀ j, findById c' j = findById c j)
  ∧ escalationRules c' = escalationRules c.
Proof.
  intros Hnd. cbv zeta.
  assert (Hp : tickets (fst (findWithPagination stringToNumber c o)) ≡ₚ tickets c).
  { unfold findWithPagination. cbn [fst].
    destruct (filterBy o); [done|]. cbn [tickets withTickets].
    destruct (sortBy o); [apply sort_perm|done]. }
  split; [|split; [exact Hp|split]].
  - unfold findWithPagination, resultRows. cbn [fst].
    destruct (filterBy o); done.
  - intros j. by apply findById_perm.
  - unfold findWithPagination. cbn [fst]. destruct (filterBy o); done.
Qed.

Lemma query_reorders_store_only_witness :
  let c := db (worldOf [plainTicket "t0" OPEN 1; plainTicket "t1" OPEN 3]) in
  let o := {| page := 1; limit := 10; sortBy := Some byCreatedAt;
              sortDesc := true; filterBy := None |} in
  NoDup (id <$> tickets c)
  ∧ let c' := fst (findWithPagination readsNoNumber c o) in
    match filterBy o with
    | Some _ => c' = c
    | None => tickets c' = resultRows readsNoNumber c o
    end
    ∧ tickets c' ≡ₚ tickets c
    ∧ (∀ j, findById c' j = findById c j)
    ∧ escalationRules c' = escalationRules c.
Proof.
  intros c o.
  assert (Hnd : NoDup (id <$> tickets c)).
  { apply (bool_decide_unpack _). vm_compute. exact I. }
  split; [exact Hnd|]. apply (query_reorders_store_only readsNoNumber c o Hnd).
Defined.

(** ** The service: unknown tickets *)

(** X8.  Given an identifier that is not stored, every method of the service
    that works on one ticket answers "nothing" ([null] or [false]) and
    leaves the store, the counter and the console exactly as they were:
    nothing is updated, noted or notified. *)
Theorem unknown_ticket_changes_nothing (now : Z) (i : string) (w : World) :
  findById (db w) i = None →
  (∀ s who why, updateTicketStatus now i s who why w = (w, Return None))
  ∧ (∀ agent who, assignTicket now i agent who w = (w, Return None))
  ∧ (∀ who why, escalateTicket now i who why w = (w, Return None))
  ∧ (∀ text who, addInternalNote now i text who w = (w, Return false))
  ∧ (∀ text who to ch automated,
       addTicketResponse now i text who to ch automated w
       = (w, Return false)).
Proof.
  intros H. split; [|split; [|split; [|split]]].
  - intros. by apply updateTicketStatus_missing.
  - intros. unfold assignTicket.
    rewrite (bind_Return _ _ _ _ _ (dbUpdate_missing w i _ now H)). done.
  - intros. unfold escalateTicket.
    rewrite (bind_Return _ _ _ _ _ (getTicketById_run i w)). by rewrite H.
  - intros. unfold addInternalNote.
    rewrite (bind_Return _ _ _ _ _ (getTicketById_run i w)). by rewrite H.
  - intros. unfold addTicketResponse.
    rewrite (bind_Return _ _ _ _ _ (getTicketById_run i w)). by rewrite H.
Qed.

Lemma unknown_ticket_changes_nothing_witness :
  let w := worldOf [plainTicket "t0" OPEN 0] in
  findById (db w) "t9" = None
  ∧ (∀ s who why, updateTicketStatus 5 "t9" s who why w = (w, Return None))
  ∧ (∀ agent who, assignTicket 5 "t9" agent who w = (w, Return None))
  ∧ (∀ who why, escalateTicket 5 "t9" who why w = (w, Return None))
  ∧ (∀ text who, addInternalNote 5 "t9" text who w = (w, Return false))
  ∧ (∀ text who to ch automated,
       addTicketResponse 5 "t9" text who to ch automated w
       = (w, Return false)).
Proof.
  intros w.
  assert (H : findById (db w) "t9" = None) by reflexivity.
  split; [exact H|]. apply (unknown_ticket_changes_nothing 5 "t9" w H).
Defined.

(** ** The service: what no history of calls undoes *)

Lemma ladderOf_ext (c c' : Collections) (t t' : Ticket) :
  escalationRules c' = escalationRules c → department t' = department t →
  ladderOf c' t' = ladderOf c t.
Proof.
  intros Hr Hd. unfold ladderOf, getEscalationRules. by rewrite Hr, Hd.
Qed.

Lemma evolvesFrom_refl (c : Collections) (t : Ticket) : evolvesFrom c t t.
Proof. unfold evolvesFrom. repeat split; auto; try done; lia. Qed.

Lemma evolvesFrom_trans (c c' : Collections) (t1 t2 t3 : Ticket) :
  escalationRules c' = escalationRules c →
  evolvesFrom c t1 t2 → evolvesFrom c' t2 t3 → evolvesFrom c t1 t3.
Proof.
  intros Hr (a1 & a2 & a3 & a4 & a5 & a6 & a7 & a8 & a9 & a10 & a11 & a12 & a13)
            (b1 & b2 & b3 & b4 & b5 & b6 & b7 & b8 & b9 & b10 & b11 & b12 & b13).
  rewrite (ladderOf_ext c c' t1 t2 Hr a3) in b7.
  unfold evolvesFrom.
  repeat split; try congruence; try lia; try (etransitivity; eassumption);
    auto.
Qed.

Lemma evolves_refl (w : World) : evolves w w.
Proof.
  split; [done|]. intros j t H. exists t. split; [done|apply evolvesFrom_refl].
Qed.

Lemma evolves_trans (w1 w2 w3 : World) :
  evolves w1 w2 → evolves w2 w3 → evolves w1 w3.
Proof.
  intros [Hr1 H1] [Hr2 H2]. split; [congruence|].
  intros j t Hf. destruct (H1 j t Hf) as (t' & Hf' & He).
  destruct (H2 j t' Hf') as (t'' & Hf'' & He').
  exists t''. split; [done|]. by apply (evolvesFrom_trans _ (db w2) t t' t'').
Qed.

(** The rule of sequencing for a relation between worlds, when the second
    step may rely on what the first returned. *)
Lemma run_bind {A B} (R : World → World → Prop)
    (R_trans : ∀ w1 w2 w3, R w1 w2 → R w2 w3 → R w1 w3)
    (m : M A) (k : A → M B) (w : World) :
  R w (fst (m w)) →
  (∀ a w', m w = (w', Return a) → R w' (fst (k a w'))) →
  R w (fst (bind m k w)).
Proof.
  intros Hm Hk. unfold bind.
  destruct (m w) as [w' [a|e]] eqn:E; simpl in *; [|done].
  eapply R_trans; [exact Hm|]. by apply Hk.
Qed.

Lemma dbUpdate_evolves (w : World) (i : string) (u : TicketUpdates) (now : Z) :
  u_id u = None →
  (∀ t, findById (db w) i = Some t → evolvesFrom (db w) t (spread t u now)) →
  evolves w (fst (dbUpdate i u now w)).
Proof.
  intros Hu H. destruct (findById (db w) i) as [t|] eqn:E.
  - destruct (dbUpdate_found w i u now t E Hu) as (w' & Hrun & Hf & Hr & _).
    pose proof (λ j Hne, dbUpdate_untouched i j u now Hne Hu) as Hother.
    rewrite Hrun. cbn [fst]. split; [done|].
    intros j t0 Hj. destruct (decide (j = i)) as [->|Hne].
    + exists (spread t u now). split; [done|].
      rewrite E in Hj. inversion Hj; subst t0. by apply H.
    + exists t0. split; [|apply evolvesFrom_refl].
      specialize (Hother j ltac:(congruence) w).
      unfold untouched in Hother. rewrite Hrun in Hother. cbn [fst] in Hother.
      congruence.
  - rewrite dbUpdate_missing by done. apply evolves_refl.
Qed.

Lemma evolves_same_db (w w' : World) : db w' = db w → evolves w w'.
Proof.
  intros H. split; [by rewrite H|]. intros j t Hj. exists t.
  split; [by rewrite H|apply evolvesFrom_refl].
Qed.

Lemma log_evolves (l : LogLine) : Preserves evolves (log l).
Proof. intros w. by apply evolves_same_db. Qed.

Lemma addInternalNote_evolves (now : Z) (i : string) (text : NoteContent)
    (who : string) :
  Preserves evolves (addInternalNote now i text who).
Proof.
  intros w. unfold addInternalNote.
  apply (run_bind evolves evolves_trans); [apply evolves_refl|].
  intros found w' Hrun. rewrite getTicketById_run in Hrun.
  inversion Hrun; subst w' found. clear Hrun.
  destruct (findById (db w) i) as [t|] eqn:E; [|apply evolves_refl].
  apply (run_bind evolves evolves_trans); [|intros; apply evolves_refl].
  apply dbUpdate_evolves; [reflexivity|]. intros t0 Ht0. rewrite E in Ht0.
  inversion Ht0; subst t0.
  unfold evolvesFrom. simpl. repeat split; auto; try done; try lia.
  first [by apply prefix_app_r|by apply submseteq_inserts_r].
Qed.

Lemma addTicketResponse_evolves (now : Z) (i text who : string) (to : Audience)
    (ch : Channel) (automated : bool) :
  Preserves evolves (addTicketResponse now i text who to ch automated).
Proof.
  intros w. unfold addTicketResponse.
  apply (run_bind evolves evolves_trans); [apply evolves_refl|].
  intros found w' Hrun. rewrite getTicketById_run in Hrun.
  inversion Hrun; subst w' found. clear Hrun.
  destruct (findById (db w) i) as [t|] eqn:E; [|apply evolves_refl].
  apply (run_bind evolves evolves_trans).
  - apply dbUpdate_evolves; [reflexivity|]. intros t0 Ht0. rewrite E in Ht0.
    inversion Ht0; subst t0.
    unfold evolvesFrom. simpl. repeat split; auto; try done; try lia.
    first [by apply prefix_app_r|by apply submseteq_inserts_r].
  - intros ? w1 _. apply (run_bind evolves evolves_trans);
      [|intros; apply evolves_refl].
    unfold when, sendGuestResponse.
    destruct (bool_decide _); [apply log_evolves|apply evolves_refl].
Qed.

Lemma updateTicketStatus_evolves (now : Z) (i : string) (s : TicketStatus)
    (who : string) (why : option string) :
  Preserves evolves (updateTicketStatus now i s who why).
Proof.
  intros w. unfold updateTicketStatus.
  apply (run_bind evolves evolves_trans).
  - apply dbUpdate_evolves; [reflexivity|]. intros t _.
    unfold evolvesFrom. simpl.
    repeat split; auto; try lia;
      destruct (decide (s = RESOLVED)), (decide (s = CLOSED)); eauto.
  - intros updated w1 _. apply (run_bind evolves evolves_trans);
      [|intros; apply evolves_refl].
    destruct updated, (truthy why); try apply evolves_refl.
    apply (run_bind evolves evolves_trans);
      [apply addInternalNote_evolves|intros; apply evolves_refl].
Qed.

Lemma assignTicket_evolves (now : Z) (i agent who : string) :
  Preserves evolves (assignTicket now i agent who).
Proof.
  intros w. unfold assignTicket.
  apply (run_bind evolves evolves_trans).
  - apply dbUpdate_evolves; [reflexivity|]. intros t _.
    unfold evolvesFrom. simpl. repeat split; auto; try done; lia.
  - intros updated w1 _. apply (run_bind evolves evolves_trans);
      [|intros; apply evolves_refl].
    destruct updated; [|apply evolves_refl].
    apply (run_bind evolves evolves_trans);
      [apply addInternalNote_evolves|intros; apply log_evolves].
Qed.

Lemma escalateTicket_evolves (now : Z) (i who why : string) :
  Preserves evolves (escalateTicket now i who why).
Proof.
  intros w. unfold escalateTicket.
  apply (run_bind evolves evolves_trans); [apply evolves_refl|].
  intros found w' Hrun. rewrite getTicketById_run in Hrun.
  inversion Hrun; subst w' found. clear Hrun.
  destruct (findById (db w) i) as [t|] eqn:E; [|apply evolves_refl].
  apply (run_bind evolves evolves_trans); [apply evolves_refl|].
  intros c w' Hrun. inversion Hrun; subst w' c. clear Hrun.
  destruct (Z.ltb_spec (Z.of_nat (length (getEscalationRules (db w)
                                            (department t))))
              (escalationLevel t + 1)) as [Htop|Hroom];
    [apply evolves_refl|].
  destruct (ruleAt _ _) as [rule|]; [|apply evolves_refl].
  apply (run_bind evolves evolves_trans).
  - apply dbUpdate_evolves; [reflexivity|]. intros t0 Ht0. rewrite E in Ht0.
    inversion Ht0; subst t0.
    unfold evolvesFrom, ladderOf. simpl. repeat split; auto; try done; try lia.
    first [by apply prefix_app_r|by apply submseteq_inserts_r].
  - intros updated w1 _. apply (run_bind evolves evolves_trans);
      [|intros; apply evolves_refl].
    destruct updated; [|apply evolves_refl].
    apply (run_bind evolves evolves_trans); [apply log_evolves|].
    intros ? w2 _. apply (run_bind evolves evolves_trans);
      [apply addInternalNote_evolves|intros; apply evolves_refl].
Qed.

Lemma createTicket_evolves (platform : Platform) (now : Z) (newId : string)
    (data : CreateTicketData) :
  Preserves evolves (createTicket platform now newId data).
Proof.
  intros w. unfold createTicket.
  apply (run_bind evolves evolves_trans); [by apply evolves_same_db|].
  intros number w1 _.
  apply (run_bind evolves evolves_trans); [apply evolves_refl|].
  intros score w2 Hrun. unfold lift in Hrun. inversion Hrun; subst w2.
  clear Hrun.
  apply (run_bind evolves evolves_trans).
  { destruct (data_category data); [apply evolves_refl|].
    apply (run_bind evolves evolves_trans); [apply evolves_refl|].
    intros. apply evolves_refl. }
  intros categorization w2 Hrun.
  assert (w2 = w1) as ->.
  { destruct (data_category data); [by inversion Hrun|].
    unfold bind, lift, ret in Hrun.
    destruct (categorizeTicket _ _); by inversion Hrun. }
  clear Hrun.
  apply (run_bind evolves evolves_trans); [apply evolves_refl|].
  intros keywords w2 Hrun. unfold lift in Hrun. inversion Hrun; subst w2.
  clear Hrun.
  apply (run_bind evolves evolves_trans); [apply evolves_refl|].
  intros c w2 Hrun. inversion Hrun; subst w2 c. clear Hrun.
  cbn [create].
  apply (run_bind evolves evolves_trans).
  - split; [done|]. intros j t Hj. exists t.
    split; [|apply evolvesFrom_refl].
    by apply (findById_create_old (db w1) newId _ now j t).
  - intros ? w2 _. apply (run_bind evolves evolves_trans).
    + unfold sendAutoResponse.
      destruct (AiService.generateSmartReplies _ _); [apply evolves_refl|].
      apply (run_bind evolves evolves_trans);
        [apply addTicketResponse_evolves|intros; apply evolves_refl].
    + intros ? w3 _. apply (run_bind evolves evolves_trans).
      * destruct (truthy _); [apply log_evolves|apply evolves_refl].
      * intros ? w4 _. apply (run_bind evolves evolves_trans);
          [apply log_evolves|intros; apply evolves_refl].
Qed.

Lemma mergeTickets_evolves (now : Z) (i : string) (others : list string)
    (who : string) :
  Preserves evolves (mergeTickets now i others who).
Proof.
  intros w. unfold mergeTickets.
  apply (run_bind evolves evolves_trans); [apply evolves_refl|].
  intros found w' Hrun. rewrite getTicketById_run in Hrun.
  inversion Hrun; subst w' found. clear Hrun.
  destruct (findById (db w) i) as [t|] eqn:E; [|apply evolves_refl].
  apply (run_bind evolves evolves_trans); [apply evolves_refl|].
  intros c w' Hrun. inversion Hrun; subst w' c. clear Hrun.
  apply (run_bind evolves evolves_trans).
  - apply dbUpdate_evolves; [reflexivity|]. intros t0 Ht0. rewrite E in Ht0.
    inversion Ht0; subst t0.
    unfold evolvesFrom. simpl. repeat split; auto; try done; try lia.
    etransitivity; [by apply submseteq_inserts_r|].
    apply Permutation_submseteq. symmetry. apply sort_perm.
  - intros updated w1 _. apply (run_bind evolves evolves_trans).
    + refine (preserves_forOf evolves evolves_refl evolves_trans _ _ _ w1).
      intros secondary _ w2.
      apply (run_bind evolves evolves_trans);
        [apply updateTicketStatus_evolves|intros; apply evolves_refl].
    + intros ? w2 _. apply (run_bind evolves evolves_trans);
        [apply addInternalNote_evolves|intros; apply evolves_refl].
Qed.

Lemma sweepTicket_evolves (tz : Zone) (now : Z) (t : Ticket) :
  Preserves evolves (sweepTicket tz now t).
Proof.
  unfold sweepTicket, sendSLAWarning.
  preserve_with ltac:(first [ exact evolves_refl | exact evolves_trans
                            | apply escalateTicket_evolves
                            | apply log_evolves ]).
Qed.

Lemma checkSLABreaches_evolves (tz : Zone) (now : Z) :
  Preserves evolves (checkSLABreaches tz now).
Proof.
  intros w. rewrite checkSLABreaches_run.
  apply (preserves_forOf evolves evolves_refl evolves_trans).
  intros t _. apply sweepTicket_evolves.
Qed.

Lemma perform_evolves (platform : Platform) (tz : Zone) (timed : Z * Call) :
  Preserves evolves (perform platform tz timed).
Proof.
  destruct timed as [now call]. unfold perform, ignore.
  preserve_with ltac:(first [ exact evolves_refl | exact evolves_trans
                            | apply createTicket_evolves
                            | apply updateTicketStatus_evolves
                            | apply assignTicket_evolves
                            | apply escalateTicket_evolves
                            | apply addInternalNote_evolves
                            | apply addTicketResponse_evolves
                            | apply checkSLABreaches_evolves
                            | apply mergeTickets_evolves ]).
Qed.

Lemma performAll_evolves (platform : Platform) (tz : Zone)
    (calls : list (Z * Call)) :
  Preserves evolves (performAll platform tz calls).
Proof.
  apply (preserves_forOf evolves evolves_refl evolves_trans).
  intros timed _. apply perform_evolves.
Qed.

(** X9.  Through every history of calls of the methods of the service that
    change the store ([createTicket], [updateTicketStatus], [assignTicket],
    [escalateTicket], [addInternalNote], [addTicketResponse],
    [checkSLABreaches], [mergeTickets]), with the errors they throw caught,
    a stored ticket stays stored under its identifier, its escalation level
    never decreases, its escalation history is only appended to, its ladder
    stays the same, and a level within the ladder stays within the
    ladder. *)
Theorem escalation_level_only_grows_within_ladder (platform : Platform)
    (tz : Zone) (calls : list (Z * Call)) (w : World) (j : string) (t : Ticket) :
  findById (db w) j = Some t →
  ∃ t', findById (db (fst (performAll platform tz calls w))) j = Some t'
        ∧ escalationLevel t <= escalationLevel t'
        ∧ escalationHistory t `prefix_of` escalationHistory t'
        ∧ ladderOf (db (fst (performAll platform tz calls w))) t' = ladderOf (db w) t
        ∧ (escalationLevel t <= Z.of_nat (length (ladderOf (db w) t)) →
           escalationLevel t' <= Z.of_nat (length (ladderOf (db w) t))).
Proof.
  intros H.
  destruct (performAll_evolves platform tz calls w) as [Hr He].
  destruct (He j t H)
    as (t' & Hf & _ & _ & Hd & _ & _ & Hle & Hin & Hh & _).
  exists t'. split; [done|]. split; [done|]. split; [done|].
  split; [by apply ladderOf_ext|]. intros Hb. destruct Hin; lia.
Qed.

Lemma escalation_level_only_grows_within_ladder_witness :
  let t := plainTicket "t1" OPEN 0 in
  let w := worldOf [t] in
  let calls := [(hour, CallEscalateTicket "t1" "agent-1" "guest is upset");
                (2 * hour, CallUpdateTicketStatus "t1" IN_PROGRESS "agent-1" None);
                (30 * hour, CallCheckSLABreaches);
                (31 * hour, CallEscalateTicket "t1" "manager" "no progress");
                (32 * hour, CallEscalateTicket "t1" "manager" "no progress")] in
  findById (db w) "t1" = Some t
  ∧ ∃ t', findById (db (fst (performAll standIn utc calls w))) "t1" = Some t'
          ∧ escalationLevel t <= escalationLevel t'
          ∧ escalationHistory t `prefix_of` escalationHistory t'
          ∧ ladderOf (db (fst (performAll standIn utc calls w))) t' = ladderOf (db w) t
          ∧ (escalationLevel t <= Z.of_nat (length (ladderOf (db w) t)) →
             escalationLevel t' <= Z.of_nat (length (ladderOf (db w) t))).
Proof.
  intros t w calls.
  assert (H : findById (db w) "t1" = Some t) by reflexivity.
  split; [exact H|].
  apply (escalation_level_only_grows_within_ladder standIn utc calls w "t1" t H).
Defined.

(** X10.  Through every history of calls of the eight methods of the service
    that change the store, [mergeTickets] included, a stored ticket keeps
    its creation time and its policy, so both of its deadlines are the same
    whenever they are computed. *)
Theorem deadlines_of_a_ticket_never_move (platform : Platform)
    (tz : Zone) (calls : list (Z * Call))
    (w : World) (j : string) (t : Ticket) :
  findById (db w) j = Some t →
  ∃ t', findById (db (fst (performAll platform tz calls w))) j = Some t'
        ∧ createdAt t' = createdAt t
        ∧ slaConfig t' = slaConfig t
        ∧ ∀ now now',
            responseDeadline (calculateSLA tz now' t')
              = responseDeadline (calculateSLA tz now t)
            ∧ resolutionDeadline (calculateSLA tz now' t')
              = resolutionDeadline (calculateSLA tz now t).
Proof.
  intros H.
  destruct (performAll_evolves platform tz calls w) as [_ He].
  destruct (He j t H) as (t' & Hf & _ & _ & _ & Hc & Hs & _).
  exists t'. split; [done|]. split; [done|]. split; [done|].
  intros now now'. unfold calculateSLA.
  cbn [responseDeadline resolutionDeadline]. by rewrite Hc, Hs.
Qed.

Lemma deadlines_of_a_ticket_never_move_witness :
  let t := plainTicket "t1" OPEN 0 in
  let w := worldOf [t] in
  let calls := [(hour, CallAssignTicket "t1" "agent-2" "manager");
                (2 * hour, CallCreateTicket "t2" complaint);
                (3 * hour, CallMergeTickets "t1" ["t2"] "manager");
                (30 * hour, CallCheckSLABreaches);
                (31 * hour, CallUpdateTicketStatus "t1" RESOLVED "agent-2" None)] in
  findById (db w) "t1" = Some t
  ∧ ∃ t', findById (db (fst (performAll standIn utc calls w))) "t1" = Some t'
          ∧ createdAt t' = createdAt t
          ∧ slaConfig t' = slaConfig t
          ∧ ∀ now now',
              responseDeadline (calculateSLA utc now' t')
                = responseDeadline (calculateSLA utc now t)
              ∧ resolutionDeadline (calculateSLA utc now' t')
                = resolutionDeadline (calculateSLA utc now t).
Proof.
  intros t w calls.
  assert (H : findById (db w) "t1" = Some t) by reflexivity.
  split; [exact H|].
  apply (deadlines_of_a_ticket_never_move standIn utc calls w "t1" t H).
Defined.

(** X11.  Through every history of calls of the eight methods of the service
    that change the store, the responses of a stored ticket are only
    appended to, and none of its internal notes is lost: every note is
    still there, as often as before, though a merge sorts the notes anew and
    may put others between them.  So once a ticket has a first response, it
    keeps that one, and the verdict [isWithinResponseSLA] is the same at
    every later time and after every later call. *)
Theorem first_response_is_final (platform : Platform)
    (tz : Zone) (calls : list (Z * Call)) (w : World)
    (j : string) (t : Ticket) (first : TicketResponse)
    (rest : list TicketResponse) :
  findById (db w) j = Some t →
  responses t = first :: rest →
  ∃ t' rest',
    findById (db (fst (performAll platform tz calls w))) j = Some t'
    ∧ responses t `prefix_of` responses t'
    ∧ internalNotes t ⊆+ internalNotes t'
    ∧ responses t' = first :: rest'
    ∧ ∀ now now',
        isWithinResponseSLA (calculateSLA tz now' t')
        = isWithinResponseSLA (calculateSLA tz now t).
Proof.
  intros H Hr.
  destruct (performAll_evolves platform tz calls w) as [_ He].
  destruct (He j t H)
    as (t' & Hf & _ & _ & _ & Hc & Hs & _ & _ & _ & Hresp & Hn & _).
  destruct Hresp as [more Hmore]. rewrite Hr in Hmore. simpl in Hmore.
  exists t', (rest ++ more). split; [done|]. split.
  { exists more. rewrite Hr. done. }
  split; [done|]. split; [done|].
  intros now now'. unfold calculateSLA. cbn [isWithinResponseSLA].
  by rewrite Hmore, Hr, Hc, Hs.
Qed.

Lemma first_response_is_final_witness :
  let t := withResponses (plainTicket "t1" OPEN 0) [autoReply 0] in
  let w := worldOf [t] in
  let calls := [(5 * hour, CallAddTicketResponse "t1" "We are on it" "agent-1"
                             to_guest ch_email false);
                (6 * hour, CallAddInternalNote "t1" (NoteText "called guest")
                             "agent-1");
                (7 * hour, CallMergeTickets "t1" ["t1"] "agent-1")] in
  findById (db w) "t1" = Some t
  ∧ responses t = autoReply 0 :: []
  ∧ ∃ t' rest',
      findById (db (fst (performAll standIn utc calls w))) "t1" = Some t'
      ∧ responses t `prefix_of` responses t'
      ∧ internalNotes t ⊆+ internalNotes t'
      ∧ responses t' = autoReply 0 :: rest'
      ∧ ∀ now now',
          isWithinResponseSLA (calculateSLA utc now' t')
          = isWithinResponseSLA (calculateSLA utc now t).
Proof.
  intros t w calls.
  assert (H : findById (db w) "t1" = Some t) by reflexivity.
  assert (Hr : responses t = autoReply 0 :: []) by reflexivity.
  split; [exact H|]. split; [exact Hr|].
  apply (first_response_is_final standIn utc calls w "t1" t (autoReply 0) [] H Hr).
Defined.

(** X12.  Through every history of calls of the eight methods of the service
    that change the store, [mergeTickets] included, a stored ticket keeps
    its identifier and its ticket number, an escalation flag that is set
    stays set, and a [resolvedAt] or [closedAt] that is set stays set: none
    of these calls removes a ticket, clears the flag or clears a
    timestamp. *)
Theorem flags_and_timestamps_are_never_cleared (platform : Platform)
    (tz : Zone) (calls : list (Z * Call)) (w : World) (j : string) (t : Ticket) :
  findById (db w) j = Some t →
  ∃ t', findById (db (fst (performAll platform tz calls w))) j = Some t'
        ∧ id t' = id t
        ∧ ticketNumber t' = ticketNumber t
        ∧ (isEscalated t = true → isEscalated t' = true)
        ∧ (is_Some (resolvedAt t) → is_Some (resolvedAt t'))
        ∧ (is_Some (closedAt t) → is_Some (closedAt t')).
Proof.
  intros H.
  destruct (performAll_evolves platform tz calls w) as [_ He].
  destruct (He j t H)
    as (t' & Hf & Hid & Hno & _ & _ & _ & _ & _ & _ & _ & _ & He' & Hr & Hc).
  exists t'. auto 10.
Qed.

Lemma flags_and_timestamps_are_never_cleared_witness :
  let t := escalatedOnce "t1" 0 in
  let w := worldOf [t] in
  let calls := [(30 * hour, CallUpdateTicketStatus "t1" RESOLVED "agent-1" None);
                (31 * hour, CallUpdateTicketStatus "t1" IN_PROGRESS "agent-1"
                              (Some "guest called again"));
                (32 * hour, CallCheckSLABreaches);
                (33 * hour, CallMergeTickets "t9" ["t1"] "agent-1");
                (34 * hour, CallMergeTickets "t1" ["t1"; "t9"] "agent-1")] in
  findById (db w) "t1" = Some t
  ∧ ∃ t', findById (db (fst (performAll standIn utc calls w))) "t1" = Some t'
          ∧ id t' = id t
          ∧ ticketNumber t' = ticketNumber t
          ∧ (isEscalated t = true → isEscalated t' = true)
          ∧ (is_Some (resolvedAt t) → is_Some (resolvedAt t'))
          ∧ (is_Some (closedAt t) → is_Some (closedAt t')).
Proof.
  intros t w calls.
  assert (H : findById (db w) "t1" = Some t) by reflexivity.
  split; [exact H|].
  apply (flags_and_timestamps_are_never_cleared standIn utc calls w "t1" t H).
Defined.

(** ** The sweep: it always completes *)

Lemma returns_bind {A B} (m : M A) (k : A → M B) (w : World) :
  returnsFrom m w →
  (∀ a w', m w = (w', Return a) → returnsFrom (k a) w') →
  returnsFrom (bind m k) w.
Proof.
  intros (w' & a & Hm) Hk. unfold returnsFrom.
  rewrite (bind_Return _ _ _ _ _ Hm). by apply Hk.
Qed.

Lemma returns_tryCatch {A} (m : M A) (h : Error → M A) (w : World) :
  (∀ e w', returnsFrom (h e) w') → returnsFrom (tryCatch m h) w.
Proof.
  intros Hh. unfold returnsFrom, tryCatch.
  destruct (m w) as [w' [a|e]]; [by eexists _, _|apply Hh].
Qed.

Lemma returns_log (l : LogLine) (w : World) : returnsFrom (log l) w.
Proof. by eexists _, _. Qed.

Lemma returns_when (b : bool) (m : M unit) (w : World) :
  returnsFrom m w → returnsFrom (when b m) w.
Proof. destruct b; [done|]. intros _. by eexists _, _. Qed.

Lemma returns_forOf {A} (xs : list A) (body : A → M unit) (w : World) :
  (∀ x w', returnsFrom (body x) w') → returnsFrom (forOf xs body) w.
Proof.
  intros H. revert w. induction xs as [|x xs IH]; intros w; simpl.
  - by eexists _, _.
  - apply returns_bind; [apply H|]. intros. apply IH.
Qed.

Lemma sweepTicket_returns (tz : Zone) (now : Z) (t : Ticket) (w : World) :
  returnsFrom (sweepTicket tz now t) w.
Proof.
  unfold sweepTicket, sendSLAWarning.
  apply returns_bind.
  - apply returns_when, returns_tryCatch. intros. apply returns_log.
  - intros _ w1 _. apply returns_bind.
    + apply returns_when, returns_log.
    + intros _ w2 _. apply returns_when, returns_log.
Qed.

(** X13.  A run of the sweep always completes: whatever the store holds and
    whatever escalations fail on the way, the run ends normally, and every
    ticket of the store before the run is, evolved, in the store after it. *)
Theorem sweep_always_completes (tz : Zone) (now : Z) (w : World) :
  ∃ w', checkSLABreaches tz now w = (w', Return tt)
        ∧ evolves w w'.
Proof.
  destruct (returns_forOf (findBy (db w) isOpen) (sweepTicket tz now) w
              (sweepTicket_returns tz now)) as (w' & [] & Hrun).
  exists w'. rewrite checkSLABreaches_run. split; [exact Hrun|].
  pose proof (checkSLABreaches_evolves tz now w) as He.
  rewrite checkSLABreaches_run, Hrun in He. exact He.
Qed.

(** ** The sweep as a map over the store *)

Lemma NoDup_ids_filter (P : Ticket → Prop) `{∀ t, Decision (P t)}
    (ts : list Ticket) :
  NoDup (id <$> ts) → NoDup (id <$> filter P ts).
Proof.
  induction ts as [|x ts IH]; [done|].
  rewrite fmap_cons, NoDup_cons. intros [Hx Hnd].
  rewrite filter_cons. destruct (decide (P x)); [|by apply IH].
  rewrite fmap_cons, NoDup_cons. split; [|by apply IH].
  rewrite list_elem_of_fmap in *. intros (y & Hy & Hin). apply Hx.
  exists y. split; [done|]. apply list_elem_of_filter in Hin. tauto.
Qed.

Lemma findIndex_unique (ts : list Ticket) (t : Ticket) :
  NoDup (id <$> ts) → t ∈ ts → ∃ n, findIndex (id t) ts = Some (n, t).
Proof.
  intros Hnd Ht. unfold findIndex.
  destruct (list_find_elem_of (λ item, id item = id t) ts t Ht eq_refl)
    as [[n x] E].
  exists n. rewrite E. do 2 f_equal.
  apply list_find_Some in E as (Hl & Hid & _).
  apply (unique_id_eq ts); [done| |done|done].
  apply list_elem_of_lookup. eauto.
Qed.

(** Replacing the one row of an identifier is mapping over the store. *)
Lemma insert_as_map (f : Ticket → Ticket) (ts : list Ticket) (i : string)
    (n : nat) (t : Ticket) :
  NoDup (id <$> ts) → findIndex i ts = Some (n, t) →
  <[n := f t]> ts = (λ y, if decide (id y = i) then f y else y) <$> ts.
Proof.
  unfold findIndex. revert n.
  induction ts as [|x ts IH]; intros n Hnd Hf; [done|].
  rewrite fmap_cons, NoDup_cons in Hnd. destruct Hnd as [Hx Hnd].
  simpl in Hf. destruct (decide (id x = i)) as [Hid|Hid].
  - inversion Hf; subst n t. simpl. rewrite decide_True by done. f_equal.
    symmetry. etransitivity; [|apply list_fmap_id].
    apply list_fmap_ext. intros k y Hy. simpl.
    rewrite decide_False; [done|]. intros Hyi. apply Hx.
    apply list_elem_of_fmap. exists y. split; [congruence|].
    apply list_elem_of_lookup. eauto.
  - destruct (list_find _ ts) as [[m y]|] eqn:E; [|discriminate].
    simpl in Hf. inversion Hf; subst n t. simpl.
    rewrite decide_False by done. f_equal. by apply IH.
Qed.

Lemma dbUpdate_run_found (w : World) (i : string) (u : TicketUpdates)
    (now : Z) (n : nat) (t : Ticket) :
  findIndex i (tickets (db w)) = Some (n, t) →
  dbUpdate i u now w
  = ({| db := withTickets (db w) (<[n := spread t u now]> (tickets (db w)));
        ticketCounter := ticketCounter w; console := console w |},
     Return (Some (spread t u now))).
Proof. intros H. unfold dbUpdate, update. by rewrite H. Qed.

Lemma withTickets_same (c : Collections) : withTickets c (tickets c) = c.
Proof. by destruct c. Qed.

Lemma addInternalNote_run_found (now : Z) (i : string) (text : NoteContent)
    (who : string) (w : World) (n : nat) (t : Ticket) :
  findIndex i (tickets (db w)) = Some (n, t) →
  addInternalNote now i text who w
  = ({| db := withTickets (db w)
                (<[n := spread t
                          {| u_status := None; u_assignedTo := None;
                             u_internalNotes :=
                               Some (internalNotes t ++
                                     [{| content := text; addedBy := who;
                                         addedAt := now |}]);
                             u_responses := None; u_escalationHistory := None;
                             u_isEscalated := None; u_escalationLevel := None;
                             u_resolvedAt := None; u_closedAt := None;
                             u_id := None; u_ticketNumber := None; u_description := None;
                             u_category := None; u_department := None; u_slaConfig := None;
                             u_createdAt := None; u_updatedAt := None |} now]>
                   (tickets (db w)));
        ticketCounter := ticketCounter w; console := console w |},
     Return true).
Proof.
  intros H. unfold addInternalNote.
  rewrite (bind_Return _ _ _ _ _ (getTicketById_run i w)).
  unfold findById. rewrite H. cbn [fmap option_fmap option_map snd].
  rewrite (bind_Return _ _ _ _ _ (dbUpdate_run_found w i _ now n t H)).
  reflexivity.
Qed.

(** What [escalateTicket] does to the store, whether it returns or throws. *)
Lemma escalateTicket_db (now : Z) (i who why : string) (w : World) (n : nat)
    (t : Ticket) :
  findIndex i (tickets (db w)) = Some (n, t) →
  db (fst (escalateTicket now i who why w))
  = withTickets (db w)
      (<[n := escalationOf (db w) t who why now]> (tickets (db w))).
Proof.
  intros Hf.
  assert (Hunchanged : db w = withTickets (db w) (<[n := t]> (tickets (db w)))).
  { rewrite list_insert_id; [by rewrite withTickets_same|].
    by apply (findIndex_Some i). }
  unfold escalateTicket, escalationOf, ladderOf.
  rewrite (bind_Return _ _ _ _ _ (getTicketById_run i w)).
  unfold findById. rewrite Hf. cbn [fmap option_fmap option_map snd].
  rewrite (bind_Return getDb _ w w (db w)) by done.
  destruct (_ <? _); [exact Hunchanged|].
  destruct (ruleAt _ _) as [rule|]; [|exact Hunchanged].
  rewrite (bind_Return _ _ _ _ _ (dbUpdate_run_found w i _ now n t Hf)).
  match goal with |- context [ret (Some ?x)] => set (t1 := x) end.
  assert (Hid : id t1 = i) by (by apply (findIndex_Some i (tickets (db w)) n t)).
  unfold sendEscalationNotifications, bind, log. cbv beta iota.
  match goal with |- context [addInternalNote now i ?c who ?w2] =>
    rewrite (addInternalNote_run_found now i c who w2 n t1
               (findIndex_insert_same i (tickets (db w)) n t t1 Hf Hid))
  end.
  cbn [fst db tickets withTickets ret].
  rewrite list_insert_insert_eq. reflexivity.
Qed.

Lemma db_bind_tail {A B} (m : M A) (k : A → M B) (w : World) :
  (∀ a w', db (fst (k a w')) = db w') →
  db (fst (bind m k w)) = db (fst (m w)).
Proof.
  intros Hk. unfold bind. destruct (m w) as [w' [a|e]]; [apply Hk|done].
Qed.

Lemma db_when_log (b : bool) (l : LogLine) (w : World) :
  db (fst (when b (log l) w)) = db w.
Proof. by destruct b. Qed.

(** What the sweep's step on a stored, selected ticket does to the store. *)
Lemma sweepTicket_db (tz : Zone) (now : Z) (s : Ticket) (w : World) (n : nat) :
  findIndex (id s) (tickets (db w)) = Some (n, s) →
  isOpen s = true →
  db (fst (sweepTicket tz now s w))
  = withTickets (db w) (<[n := swept tz now (db w) s]> (tickets (db w))).
Proof.
  intros Hf Hopen. unfold sweepTicket, swept, sendSLAWarning.
  rewrite Hopen. cbn [andb].
  rewrite db_bind_tail.
  2:{ intros _ w1. rewrite db_bind_tail; [apply db_when_log|].
      intros _ w2. apply db_when_log. }
  destruct (_ && _).
  - cbn [when]. unfold tryCatch, bind.
    pose proof (escalateTicket_db now (id s) "system"
                  "Auto-escalated due to SLA breach risk" w n s Hf) as He.
    destruct (escalateTicket _ _ _ _ w) as [w' [a|e]]; exact He.
  - cbn [when ret fst].
    rewrite list_insert_id; [by rewrite withTickets_same|].
    by apply (findIndex_Some (id s)).
Qed.

Lemma swept_id (tz : Zone) (now : Z) (c : Collections) (t : Ticket) :
  id (swept tz now c t) = id t.
Proof.
  unfold swept, escalationOf. destruct (_ && _); [|done].
  destruct (_ <? _); [done|]. by destruct (ruleAt _ _).
Qed.

Lemma swept_ext (tz : Zone) (now : Z) (c c' : Collections) (t : Ticket) :
  escalationRules c' = escalationRules c →
  swept tz now c' t = swept tz now c t.
Proof.
  intros H. unfold swept, escalationOf.
  by rewrite (ladderOf_ext c c' t t H eq_refl).
Qed.

(** The loop of the sweep over a list of stored, selected tickets with
    distinct identifiers. *)
Lemma forOf_sweep_db (tz : Zone) (now : Z) (snapshot : list Ticket) (w : World) :
  NoDup (id <$> tickets (db w)) →
  NoDup (id <$> snapshot) →
  (∀ s, s ∈ snapshot → s ∈ tickets (db w) ∧ isOpen s = true) →
  db (fst (forOf snapshot (sweepTicket tz now) w))
  = withTickets (db w)
      ((λ y, if decide (id y ∈ id <$> snapshot)
             then swept tz now (db w) y else y) <$> tickets (db w)).
Proof.
  revert w. induction snapshot as [|s rest IH]; intros w Hnd Hsnap Hin.
  - cbn [forOf ret fst]. rewrite <- (withTickets_same (db w)) at 1. f_equal.
    symmetry. etransitivity; [|apply list_fmap_id].
    apply list_fmap_ext. intros k y _. cbv beta.
    destruct (decide _) as [Hy|]; [|done]. by apply not_elem_of_nil in Hy.
  - rewrite fmap_cons, NoDup_cons in Hsnap. destruct Hsnap as [Hs Hrest].
    destruct (Hin s ltac:(left)) as [Hstored Hopen].
    destruct (findIndex_unique _ s Hnd Hstored) as [n Hf].
    pose proof (sweepTicket_db tz now s w n Hf Hopen) as Hstep.
    rewrite (insert_as_map (swept tz now (db w)) _ (id s) n s Hnd Hf) in Hstep.
    destruct (sweepTicket_returns tz now s w) as (w1 & [] & Hrun).
    rewrite Hrun in Hstep. cbn [fst] in Hstep.
    cbn [forOf]. rewrite (bind_Return _ _ _ _ _ Hrun).
    assert (Hrules : escalationRules (db w1) = escalationRules (db w))
      by (by rewrite Hstep).
    rewrite IH; [| | done |].
    + assert (Hsw : ∀ x, swept tz now (db w1) x = swept tz now (db w) x)
        by (intros x; by apply swept_ext).
      transitivity
        (withTickets (db w1)
           ((λ y, if decide (id y ∈ id <$> rest)
                  then swept tz now (db w) y else y) <$> tickets (db w1))).
      { f_equal. apply list_fmap_ext. intros k y _. cbv beta.
        by rewrite Hsw. }
      rewrite Hstep. unfold withTickets.
      cbn [users slaConfigs escalationRules tickets]. f_equal.
      rewrite <- list_fmap_compose. apply list_fmap_ext. intros k y _.
      unfold compose. cbv beta.
      destruct (decide (id y = id s)) as [Hy|Hy].
      * rewrite swept_id, Hy.
        rewrite (decide_False (P := id s ∈ id <$> rest)) by done.
        rewrite decide_True; [done|]. rewrite fmap_cons. left.
      * destruct (decide (id y ∈ id <$> rest)) as [Hr|Hr].
        -- rewrite decide_True; [done|]. rewrite fmap_cons. by right.
        -- rewrite decide_False; [done|].
           rewrite fmap_cons, elem_of_cons. tauto.
    + rewrite Hstep. cbn [tickets withTickets].
      rewrite <- list_fmap_compose.
      erewrite list_fmap_ext; [exact Hnd|].
      intros k y _. unfold compose. cbv beta.
      destruct (decide _); [apply swept_id|done].
    + intros s' Hs'. destruct (Hin s' ltac:(by right)) as [Hst' Hopen'].
      split; [|done]. rewrite Hstep. cbn [tickets withTickets].
      apply list_elem_of_fmap. exists s'. split; [|done].
      rewrite decide_False; [done|]. intros Heq. apply Hs.
      apply list_elem_of_fmap. exists s'. by split.
Qed.

(** X14.  With unique identifiers a run of the sweep at [now] makes of the
    store what mapping over it makes: every ticket that is OPEN or
    IN_PROGRESS, has at most one hour of resolution time left and is not
    flagged as escalated is replaced by its escalation, when its ladder has
    an entry above its level; every other ticket, and every ticket whose
    escalation fails, is left as it is, in its place.  The tickets are
    handled independently: a failure on one does not keep another from
    being escalated. *)
Theorem sweep_is_a_map_over_the_store (tz : Zone) (now : Z) (w : World) :
  NoDup (id <$> tickets (db w)) →
  db (fst (checkSLABreaches tz now w))
  = withTickets (db w) (swept tz now (db w) <$> tickets (db w)).
Proof.
  intros Hnd. rewrite checkSLABreaches_run.
  rewrite forOf_sweep_db; [|done| |].
  - f_equal. apply list_fmap_ext. intros k y Hy. simpl.
    destruct (decide _) as [|Hout]; [done|].
    unfold swept.
    destruct (isOpen y) eqn:Hopen; [|done].
    exfalso. apply Hout. apply list_elem_of_fmap. exists y. split; [done|].
    apply elem_of_findBy. split; [done|].
    apply list_elem_of_lookup. eauto.
  - unfold findBy. by apply NoDup_ids_filter.
  - intros s Hs. apply elem_of_findBy in Hs. tauto.
Qed.

Lemma sweep_is_a_map_over_the_store_witness :
  let w := worldOf [atLevel (plainTicket "t1" OPEN 0) 2;
                    plainTicket "t2" IN_PROGRESS 0;
                    plainTicket "t3" OPEN (40 * hour)] in
  NoDup (id <$> tickets (db w))
  ∧ db (fst (checkSLABreaches utc (48 * hour) w))
    = withTickets (db w) (swept utc (48 * hour) (db w) <$> tickets (db w)).
Proof.
  intros w.
  assert (Hnd : NoDup (id <$> tickets (db w))).
  { apply (bool_decide_unpack _). vm_compute. exact I. }
  split; [exact Hnd|]. apply (sweep_is_a_map_over_the_store utc (48 * hour) w Hnd).
Defined.

Lemma swept_idem (tz : Zone) (now : Z) (c : Collections) (t : Ticket) :
  swept tz now c (swept tz now c t) = swept tz now c t.
Proof.
  remember (swept tz now c t) as r eqn:Hr.
  assert (Hcases : r = t ∨ status r = ESCALATED).
  { rewrite Hr. unfold swept, escalationOf.
    destruct (_ && _); [|by left].
    destruct (_ <? _); [by left|].
    destruct (ruleAt _ _); [by right|by left]. }
  destruct Hcases as [->|Hesc]; [done|].
  unfold swept, isOpen. rewrite Hesc. reflexivity.
Qed.

(** X15.  With unique identifiers, a second run of the sweep at the same
    clock reading leaves the store exactly as the first run left it: no
    ticket is escalated twice, none gets a second record. *)
Theorem second_sweep_changes_no_ticket (tz : Zone) (now : Z) (w : World) :
  NoDup (id <$> tickets (db w)) →
  db (fst (checkSLABreaches tz now (fst (checkSLABreaches tz now w))))
  = db (fst (checkSLABreaches tz now w)).
Proof.
  intros Hnd.
  pose proof (sweep_is_a_map_over_the_store tz now w Hnd) as H1.
  set (w1 := fst (checkSLABreaches tz now w)) in *.
  assert (Hnd1 : NoDup (id <$> tickets (db w1))).
  { rewrite H1. cbn [tickets withTickets]. rewrite <- list_fmap_compose.
    erewrite list_fmap_ext; [exact Hnd|].
    intros k y _. apply swept_id. }
  rewrite (sweep_is_a_map_over_the_store tz now w1 Hnd1).
  rewrite H1. unfold withTickets.
  cbn [users slaConfigs escalationRules tickets]. f_equal.
  rewrite <- list_fmap_compose. apply list_fmap_ext. intros k y _.
  unfold compose.
  rewrite (swept_ext tz now (db w)) by reflexivity.
  apply swept_idem.
Qed.

Lemma second_sweep_changes_no_ticket_witness :
  let w := worldOf [atLevel (plainTicket "t1" OPEN 0) 2;
                    plainTicket "t2" IN_PROGRESS 0] in
  NoDup (id <$> tickets (db w))
  ∧ db (fst (checkSLABreaches utc (48 * hour)
               (fst (checkSLABreaches utc (48 * hour) w))))
    = db (fst (checkSLABreaches utc (48 * hour) w)).
Proof.
  intros w.
  assert (Hnd : NoDup (id <$> tickets (db w))).
  { apply (bool_decide_unpack _). vm_compute. exact I. }
  split; [exact Hnd|].
  apply (second_sweep_changes_no_ticket utc (48 * hour) w Hnd).
Defined.

(** X16.  With unique identifiers, a run of the sweep escalates every stored
    ticket that is OPEN or IN_PROGRESS, not flagged, for which the SLA
    calculation of the run finds at most one hour of resolution time
    remaining, and that is below the top of its ladder,
    wherever it stands in the store and whatever happens to the other
    tickets: after the run it is stored ESCALATED and flagged, one level
    up, assigned to the ladder entry's recipient, with one more record,
    made by ["system"] at the time of the run. *)
Theorem sweep_escalates_every_ticket_at_risk (tz : Zone) (now : Z) (w : World)
    (t : Ticket) (rule : EscalationRule) :
  NoDup (id <$> tickets (db w)) →
  t ∈ tickets (db w) →
  status t = OPEN ∨ status t = IN_PROGRESS →
  isEscalated t = false →
  leb (resolutionTimeRemaining (calculateSLA tz now t)) (ofZ 1) = true →
  ruleAt (ladderOf (db w) t) (escalationLevel t) = Some rule →
  ∃ t', findById (db (fst (checkSLABreaches tz now w))) (id t) = Some t'
        ∧ status t' = ESCALATED
        ∧ isEscalated t' = true
        ∧ escalationLevel t' = escalationLevel t + 1
        ∧ assignedTo t' = Some (escalateTo rule)
        ∧ escalationHistory t'
          = escalationHistory t ++
            [{| level := escalationLevel t + 1;
                escalatedTo := escalateTo rule; escalatedBy := "system";
                reason := "Auto-escalated due to SLA breach risk";
                escalatedAt := now |}].
Proof.
  intros Hnd Ht Hopen Hflag Hrisk Hrule.
  exists (escalatedTicket t rule "system"
            "Auto-escalated due to SLA breach risk" now).
  split; [|by repeat split].
  assert (Hsw : swept tz now (db w) t
                = escalatedTicket t rule "system"
                    "Auto-escalated due to SLA breach risk" now).
  { unfold swept. rewrite Hrisk, Hflag.
    apply isOpen_spec in Hopen. rewrite Hopen. cbn [andb negb].
    unfold escalationOf.
    replace (escalationLevel t + 1 - 1) with (escalationLevel t) by lia.
    rewrite Hrule.
    assert ((Z.of_nat (length (ladderOf (db w) t)) <? escalationLevel t + 1)
            = false) as ->; [|done].
    apply Z.ltb_ge. unfold ruleAt in Hrule.
    destruct (escalationLevel t <? 0) eqn:E; [discriminate|].
    apply Z.ltb_ge in E. apply lookup_lt_Some in Hrule. lia. }
  rewrite <- Hsw.
  rewrite (sweep_is_a_map_over_the_store tz now w Hnd).
  rewrite <- (swept_id tz now (db w) t).
  apply findById_unique.
  - cbn [tickets withTickets]. rewrite <- list_fmap_compose.
    erewrite list_fmap_ext; [exact Hnd|]. intros k y _. apply swept_id.
  - cbn [tickets withTickets]. apply list_elem_of_fmap. by exists t.
Qed.

Lemma sweep_escalates_every_ticket_at_risk_witness :
  let t := plainTicket "t2" IN_PROGRESS 0 in
  let w := worldOf [atLevel (plainTicket "t1" OPEN 0) 2; t] in
  let rule := {| ruleDepartment := None; ruleLevel := 1;
                 escalateTo := "manager"; timeoutHours := 4 |} in
  NoDup (id <$> tickets (db w))
  ∧ t ∈ tickets (db w)
  ∧ (status t = OPEN ∨ status t = IN_PROGRESS)
  ∧ isEscalated t = false
  ∧ leb (resolutionTimeRemaining (calculateSLA utc (25 * hour) t)) (ofZ 1)
    = true
  ∧ ruleAt (ladderOf (db w) t) (escalationLevel t) = Some rule
  ∧ ∃ t', findById (db (fst (checkSLABreaches utc (25 * hour) w))) (id t)
            = Some t'
          ∧ status t' = ESCALATED
          ∧ isEscalated t' = true
          ∧ escalationLevel t' = escalationLevel t + 1
          ∧ assignedTo t' = Some (escalateTo rule)
          ∧ escalationHistory t'
            = escalationHistory t ++
              [{| level := escalationLevel t + 1;
                  escalatedTo := escalateTo rule; escalatedBy := "system";
                  reason := "Auto-escalated due to SLA breach risk";
                  escalatedAt := 25 * hour |}].
Proof.
  intros t w rule.
  assert (Hnd : NoDup (id <$> tickets (db w))).
  { apply (bool_decide_unpack _). vm_compute. exact I. }
  assert (Ht : t ∈ tickets (db w)) by (right; left).
  assert (Hopen : status t = OPEN ∨ status t = IN_PROGRESS) by (by right).
  assert (Hflag : isEscalated t = false) by reflexivity.
  assert (Hrisk : leb (resolutionTimeRemaining
                         (calculateSLA utc (25 * hour) t)) (ofZ 1) = true)
    by reflexivity.
  assert (Hrule : ruleAt (ladderOf (db w) t) (escalationLevel t) = Some rule)
    by reflexivity.
  split; [exact Hnd|]. split; [exact Ht|]. split; [exact Hopen|].
  split; [exact Hflag|]. split; [exact Hrisk|]. split; [exact Hrule|].
  apply (sweep_escalates_every_ticket_at_risk utc (25 * hour) w t rule
           Hnd Ht Hopen Hflag Hrisk Hrule).
Defined.

(** ** Ticket numbers *)

Lemma mathMax_bound (l : list Z) (m : Z) :
  mathMax l = Some m → (∀ x, x ∈ l → x <= m) ∧ m ∈ l.
Proof.
  destruct l as [|v rest]; [discriminate|]. simpl. intros H.
  inversion H; subst m. clear H. revert v.
  induction rest as [|y rest IH]; intros v; simpl.
  - split; [|left]. intros x Hx. apply list_elem_of_singleton in Hx. lia.
  - destruct (IH v) as [Hle Hin]. split.
    + intros x Hx. rewrite !elem_of_cons in Hx.
      destruct Hx as [->|[->|Hx]].
      * specialize (Hle v ltac:(left)). lia.
      * lia.
      * specialize (Hle x ltac:(by right)). lia.
    + destruct (Z.max_spec y (foldr Z.max v rest)) as [[_ Heq]|[_ Heq]];
        rewrite Heq.
      * apply elem_of_cons in Hin as [Hin|Hin]; [rewrite Hin; left|].
        right. by right.
      * right; left.
Qed.

(** X17.  Initialising the ticket counter leaves the store as it is and
    makes the counter exceed every stored ticket number: with tickets in the
    store it is one above the largest stored number, with none it keeps its
    value. *)
Theorem counter_starts_above_stored_numbers (w : World) :
  let w' := fst (initializeTicketCounter w) in
  db w' = db w
  ∧ console w' = console w
  ∧ match tickets (db w) with
    | [] => ticketCounter w' = ticketCounter w
    | _ => numbersBelowCounter w'
           ∧ ∃ t, t ∈ tickets (db w) ∧ ticketCounter w' = ticketNumber t + 1
    end.
Proof.
  cbv zeta. unfold initializeTicketCounter.
  rewrite (bind_Return getDb _ w w (db w)) by done.
  destruct (tickets (db w)) as [|t ts] eqn:E; [done|].
  rewrite bool_decide_eq_true_2 by (simpl; lia).
  destruct (mathMax (ticketNumber <$> t :: ts)) as [m|] eqn:Hm;
    [|discriminate].
  destruct (mathMax_bound _ _ Hm) as [Hle Hin].
  cbn [setTicketCounter fst db console ticketCounter].
  split; [done|]. split; [done|]. split.
  - intros x Hx. cbn [db] in Hx. rewrite E in Hx. cbn [ticketCounter].
    specialize (Hle (ticketNumber x)
                  ltac:(apply list_elem_of_fmap; by exists x)). lia.
  - apply list_elem_of_fmap in Hin as (x & -> & Hx). by exists x.
Qed.

Lemma sameNumbering_refl (w : World) : sameNumbering w w.
Proof. done. Qed.

Lemma sameNumbering_trans (w1 w2 w3 : World) :
  sameNumbering w1 w2 → sameNumbering w2 w3 → sameNumbering w1 w3.
Proof. unfold sameNumbering. intros [? ?] [? ?]. split; congruence. Qed.

Lemma dbUpdate_sameNumbering (i : string) (u : TicketUpdates) (now : Z) :
  u_ticketNumber u = None → Preserves sameNumbering (dbUpdate i u now).
Proof.
  intros Hu w. unfold sameNumbering, dbUpdate, update.
  destruct (findIndex i (tickets (db w))) as [[n x]|] eqn:E; [|done].
  apply findIndex_Some in E as [Hl _].
  cbn [fst db tickets withTickets ticketCounter]. split; [|done].
  rewrite list_fmap_insert. apply list_insert_id.
  rewrite list_lookup_fmap, Hl. cbn [fmap option_fmap option_map spread
    ticketNumber]. by rewrite Hu.
Qed.

Lemma log_sameNumbering (l : LogLine) : Preserves sameNumbering (log l).
Proof. intros w. done. Qed.

Lemma addTicketResponse_sameNumbering (now : Z) (i text who : string)
    (to : Audience) (ch : Channel) (automated : bool) :
  Preserves sameNumbering (addTicketResponse now i text who to ch automated).
Proof.
  unfold addTicketResponse, sendGuestResponse.
  preserve_with ltac:(first [ exact sameNumbering_refl
                            | exact sameNumbering_trans
                            | apply dbUpdate_sameNumbering; reflexivity
                            | apply log_sameNumbering ]).
Qed.

Lemma createTicket_numbering (platform : Platform) (now : Z) (newId : string)
    (data : CreateTicketData) (w : World) (cat : TicketCategory) :
  analysisOf platform data = Return cat →
  ticketNumber <$> tickets (db (fst (createTicket platform now newId data w)))
    = (ticketNumber <$> tickets (db w)) ++ [ticketCounter w]
  ∧ ticketCounter (fst (createTicket platform now newId data w))
    = ticketCounter w + 1.
Proof.
  intros Hcat. analysed Hcat.
  rewrite (bind_Return getDb _ _ _ (db w)) by reflexivity.
  cbn [db create].
  match goal with |- context [bind (putDb ?c') ?k] =>
    rewrite (bind_Return (putDb c') k _ _ tt eq_refl) end.
  match goal with |- context [fst (?m ?b)] =>
    assert (Hp : Preserves sameNumbering m); [|destruct (Hp b) as [H1 H2]]
  end.
  { unfold sendAutoResponse, notifyAssignment.
    preserve_with ltac:(first [ exact sameNumbering_refl
                              | exact sameNumbering_trans
                              | apply addTicketResponse_sameNumbering
                              | apply log_sameNumbering ]). }
  rewrite H1, H2. cbn [db tickets withTickets ticketCounter].
  by rewrite fmap_app.
Qed.

Lemma snd_bind {A B} (m : M A) (k : A → M B) (w : World) (b : B) :
  returnsFrom m w →
  (∀ a w', snd (k a w') = Return b) →
  snd (bind m k w) = Return b.
Proof.
  intros (w' & a & Hm) Hk. rewrite (bind_Return _ _ _ _ _ Hm). apply Hk.
Qed.

Lemma addTicketResponse_returns (now : Z) (i text who : string) (to : Audience)
    (ch : Channel) (automated : bool) (w : World) :
  returnsFrom (addTicketResponse now i text who to ch automated) w.
Proof.
  unfold addTicketResponse.
  apply returns_bind; [by eexists _, _|].
  intros found w' _. destruct found as [t|]; [|by eexists _, _].
  apply returns_bind.
  { unfold returnsFrom, dbUpdate.
    destruct (update (db w') i _ now). by eexists _, _. }
  intros updated w1 _. apply returns_bind.
  - apply returns_when. apply returns_log.
  - intros. by eexists _, _.
Qed.

(** What [createTicket] returns after an analysis that answers, fresh
    identifier or not. *)
Lemma createTicket_returned (platform : Platform) (now : Z) (newId : string)
    (data : CreateTicketData) (w : World) (cat : TicketCategory) :
  analysisOf platform data = Return cat →
  ∃ saved, snd (createTicket platform now newId data w) = Return saved
           ∧ ticketNumber saved = ticketCounter w
           ∧ id saved = newId
           ∧ category saved = cat.
Proof.
  intros Hcat. analysed Hcat.
  rewrite (bind_Return getDb _ _ _ (db w)) by reflexivity.
  cbn [db create].
  match goal with |- context [bind (putDb ?c') ?k] =>
    rewrite (bind_Return (putDb c') k _ _ tt eq_refl) end.
  eexists. split.
  { apply snd_bind.
    { unfold sendAutoResponse.
      destruct (AiService.generateSmartReplies _ _); [by eexists _, _|].
      apply returns_bind; [apply addTicketResponse_returns|].
      intros. by eexists _, _. }
    intros _ w1. apply snd_bind.
    { destruct (truthy _); [apply returns_log|by eexists _, _]. }
    intros _ w2. apply snd_bind; [apply returns_log|].
    intros. reflexivity. }
  by repeat split.
Qed.

(** X18.  [createTicket] first takes the current value of the counter and
    advances the counter by one, whether it then succeeds or not.  When the
    analysis of the description answers, the call returns a ticket with that
    number, and the stored numbers are the old ones followed by it; when the
    analysis throws, the call throws the same error, the number is used up
    and nothing else has changed.  So when every stored number is below the
    counter, this still holds afterwards, the new number is the number of no
    ticket stored before, and numbers that were distinct stay distinct. *)
Theorem created_ticket_gets_a_new_number (platform : Platform) (now : Z)
    (newId : string) (data : CreateTicketData) (w : World) :
  numbersBelowCounter w →
  let run := createTicket platform now newId data w in
  ticketCounter (fst run) = ticketCounter w + 1
  ∧ numbersBelowCounter (fst run)
  ∧ (∀ t, t ∈ tickets (db w) → ticketNumber t ≠ ticketCounter w)
  ∧ match analysisOf platform data with
    | Return _ =>
        (∃ saved, snd run = Return saved
                  ∧ ticketNumber saved = ticketCounter w)
        ∧ ticketNumber <$> tickets (db (fst run))
          = (ticketNumber <$> tickets (db w)) ++ [ticketCounter w]
        ∧ (NoDup (ticketNumber <$> tickets (db w)) →
           NoDup (ticketNumber <$> tickets (db (fst run))))
    | Throw e => run = (numberTaken w, Throw e)
    end.
Proof.
  intros Hbelow. cbv zeta.
  assert (Hfresh : ∀ t, t ∈ tickets (db w) → ticketNumber t ≠ ticketCounter w).
  { intros t Ht. specialize (Hbelow t Ht). lia. }
  destruct (analysisOf platform data) as [cat|e] eqn:E.
  - destruct (createTicket_numbering platform now newId data w cat E)
      as [Hnums Hcounter].
    destruct (createTicket_returned platform now newId data w cat E)
      as (saved & Hret & Hno & _).
    split; [exact Hcounter|]. split; [|split; [done|]].
    + intros t Ht.
      assert (Hin : ticketNumber t ∈ ticketNumber <$>
                tickets (db (fst (createTicket platform now newId data w))))
        by (apply list_elem_of_fmap; by exists t).
      rewrite Hnums in Hin. rewrite Hcounter.
      apply elem_of_app in Hin as [Hin|Hin].
      * apply list_elem_of_fmap in Hin as (x & -> & Hx).
        specialize (Hbelow x Hx). lia.
      * apply list_elem_of_singleton in Hin. lia.
    + split; [by exists saved|]. split; [exact Hnums|].
      intros Hnd. rewrite Hnums. apply NoDup_app. split; [done|]. split.
      * intros x Hx Hx'. apply list_elem_of_singleton in Hx'. subst x.
        apply list_elem_of_fmap in Hx as (t & Heq & Ht).
        by apply (Hfresh t Ht).
      * apply NoDup_singleton.
  - rewrite (createTicket_throws platform now newId data w e E).
    cbn [fst numberTaken ticketCounter db].
    split; [done|]. split; [|split; [done|done]].
    intros t Ht. specialize (Hbelow t Ht).
    cbn [numberTaken ticketCounter db] in *. lia.
Qed.

Lemma created_ticket_gets_a_new_number_witness :
  let w := fst (initializeTicketCounter
                  (worldOf [numbered (plainTicket "t1" OPEN 0) 1007;
                            numbered (plainTicket "t2" OPEN 0) 1003])) in
  numbersBelowCounter w
  ∧ let run := createTicket standIn 5 "t3" complaint w in
    ticketCounter (fst run) = ticketCounter w + 1
    ∧ numbersBelowCounter (fst run)
    ∧ (∀ t, t ∈ tickets (db w) → ticketNumber t ≠ ticketCounter w)
    ∧ match analysisOf standIn complaint with
      | Return _ =>
          (∃ saved, snd run = Return saved
                    ∧ ticketNumber saved = ticketCounter w)
          ∧ ticketNumber <$> tickets (db (fst run))
            = (ticketNumber <$> tickets (db w)) ++ [ticketCounter w]
          ∧ (NoDup (ticketNumber <$> tickets (db w)) →
             NoDup (ticketNumber <$> tickets (db (fst run))))
      | Throw e => run = (numberTaken w, Throw e)
      end.
Proof.
  intros w.
  assert (H : numbersBelowCounter w).
  { intros t Ht. apply elem_of_cons in Ht as [->|Ht]; [by vm_compute|].
    apply list_elem_of_singleton in Ht as ->. by vm_compute. }
  split; [exact H|].
  apply (created_ticket_gets_a_new_number standIn 5 "t3" complaint w H).
Defined.

(** X19.  [createTicket] analyses the description before it stores
    anything, and extracts its keywords whatever the request carries.  So
    when the sentiment analysis throws, or the tokenizer does, the call
    throws that error, also for a request that names its category: the
    number is used up, nothing is stored and nothing is written. *)
Theorem creation_fails_with_the_packages (platform : Platform) (now : Z)
    (newId : string) (data : CreateTicketData) (w : World) (e : Error) :
  (analyze platform (data_description data) = Throw e
   ∨ (∃ score, analyze platform (data_description data) = Return score)
     ∧ tokenize platform (toLowerCase platform (data_description data))
       = Throw e) →
  createTicket platform now newId data w = (numberTaken w, Throw e)
  ∧ db (numberTaken w) = db w
  ∧ console (numberTaken w) = console w
  ∧ ticketCounter (numberTaken w) = ticketCounter w + 1.
Proof.
  intros H. split; [|done]. apply createTicket_throws.
  unfold analysisOf, analyzeSentiment, categorizeTicket, extractKeywords,
    tokenizeAndStem, andThen.
  destruct H as [->|((score & ->) & ->)]; [reflexivity|].
  by destruct (data_category data).
Qed.

Lemma creation_fails_with_the_packages_witness :
  let data := {| data_description := "The wifi is down";
                 data_category := Some IT_SUPPORT;
                 data_department := None;
                 data_assignedTo := None |} in
  (analyze brokenTokenizer (data_description data) = Throw TypeError
   ∨ (∃ score, analyze brokenTokenizer (data_description data) = Return score)
     ∧ tokenize brokenTokenizer
         (toLowerCase brokenTokenizer (data_description data))
       = Throw TypeError)
  ∧ createTicket brokenTokenizer 5 "t1" data emptyWorld
    = (numberTaken emptyWorld, Throw TypeError)
  ∧ db (numberTaken emptyWorld) = db emptyWorld
  ∧ console (numberTaken emptyWorld) = console emptyWorld
  ∧ ticketCounter (numberTaken emptyWorld) = ticketCounter emptyWorld + 1.
Proof.
  intros data.
  assert (H : analyze brokenTokenizer (data_description data) = Throw TypeError
              ∨ (∃ score, analyze brokenTokenizer (data_description data)
                          = Return score)
                ∧ tokenize brokenTokenizer
                    (toLowerCase brokenTokenizer (data_description data))
                  = Throw TypeError).
  { right. split; [by eexists|reflexivity]. }
  split; [exact H|].
  apply (creation_fails_with_the_packages brokenTokenizer 5 "t1" data
           emptyWorld TypeError H).
Defined.

(** ** The SLA calculation *)



(** ** Policies and ladders *)

Lemma list_find_filter_snd {A} (P Q : A → Prop) `{∀ x, Decision (P x)}
    `{∀ x, Decision (Q x)} (l : list A) :
  (∀ x, P x → Q x) →
  snd <$> list_find P (filter Q l) = snd <$> list_find P l.
Proof.
  intros HPQ. induction l as [|x l IH]; [done|].
  rewrite filter_cons. simpl.
  destruct (decide (Q x)) as [Hq|Hq]; simpl.
  - destruct (decide (P x)); [done|].
    destruct (list_find P (filter Q l)) as [[? ?]|],
             (list_find P l) as [[? ?]|]; simpl in *; congruence.
  - rewrite decide_False by (intros Hp; by apply Hq, HPQ).
    destruct (list_find P (filter Q l)) as [[? ?]|],
             (list_find P l) as [[? ?]|]; simpl in *; congruence.
Qed.

(** X21.  The policy a new ticket of a department gets is the policy of the
    first stored row of that department, wherever rows of ['default'] stand;
    with no row of the department, the policy of the first row of
    ['default']; with neither, the built-in policy of 2 hours to respond and
    24 hours to resolve. *)
Theorem policy_of_department_then_default (c : Collections) (dept : string) :
  getSLAConfig c dept
  = match list_find (λ r, configDepartment r = dept) (slaConfigs c) with
    | Some (_, r) => config r
    | None =>
        match list_find (λ r, configDepartment r = "default") (slaConfigs c)
        with
        | Some (_, r) => config r
        | None => getDefaultSLAConfig
        end
    end
  ∧ responseTimeHours getDefaultSLAConfig = ofZ 2
  ∧ resolutionTimeHours getDefaultSLAConfig = ofZ 24.
Proof.
  split; [|done]. unfold getSLAConfig.
  pose proof (list_find_filter_snd
                (λ r, configDepartment r = dept)
                (λ r, configDepartment r = dept ∨ configDepartment r = "default")
                (slaConfigs c) (λ _ Hd, or_introl Hd)) as H1.
  pose proof (list_find_filter_snd
                (λ r, configDepartment r = "default")
                (λ r, configDepartment r = dept ∨ configDepartment r = "default")
                (slaConfigs c) (λ _ Hd, or_intror Hd)) as H2.
  repeat match goal with
         | H : context [list_find ?P ?l] |- _ =>
             lazymatch l with
             | filter _ _ => fail
             | _ => destruct (list_find P l) as [[? ?]|]
             end
         end;
    repeat match goal with
           | H : context [list_find ?P (filter ?Q ?l)] |- _ =>
               destruct (list_find P (filter Q l)) as [[? ?]|]
           end;
    simpl in *; congruence.
Qed.

Lemma getEscalationRules_nonempty (c : Collections) (dept : string) :
  ∃ rule rest, getEscalationRules c dept = rule :: rest.
Proof.
  unfold getEscalationRules.
  destruct (filter _ (escalationRules c)) as [|r rs]; by eexists _, _.
Qed.

(** X22.  No ladder is empty: with no stored rule for the department or for
    ['default'] the ladder is the built-in one, manager then admin.  So
    escalating a stored ticket at level 0 never fails: it moves the ticket
    to level 1 and assigns it to the first entry of its ladder. *)
Theorem first_escalation_never_fails (now : Z) (i who why : string)
    (w : World) (t : Ticket) :
  findById (db w) i = Some t →
  escalationLevel t = 0 →
  ∃ w' t1 t' rule,
    ladderOf (db w) t !! 0%nat = Some rule
    ∧ escalateTicket now i who why w = (w', Return (Some t1))
    ∧ findById (db w') i = Some t'
    ∧ status t' = ESCALATED
    ∧ escalationLevel t' = 1
    ∧ assignedTo t' = Some (escalateTo rule)
    ∧ ((∀ r, r ∈ escalationRules (db w) →
             ruleDepartment r ≠ Some (department t)
             ∧ ruleDepartment r ≠ Some "default") →
       ladderOf (db w) t = fallbackRules ∧ escalateTo rule = "manager").
Proof.
  intros Hf Hl.
  destruct (getEscalationRules_nonempty (db w) (department t))
    as (rule & rest & Hrules).
  assert (Hrule : ruleAt (getEscalationRules (db w) (department t))
                    (escalationLevel t) = Some rule).
  { rewrite Hl, Hrules. reflexivity. }
  destruct (escalateTicket_found now i who why w t rule Hf Hrule)
    as (w' & t1 & t' & Hrun & Hf' & Hs & _ & Hlvl & Ha & _).
  exists w', t1, t', rule. unfold ladderOf. rewrite Hrules.
  split; [done|]. split; [done|]. split; [done|]. split; [done|].
  split; [by rewrite Hlvl, Hl|]. split; [done|].
  intros Hnone. rewrite <- Hrules. unfold getEscalationRules in *.
  assert (Hempty : filter (λ r, ruleDepartment r = Some (department t)
                               ∨ ruleDepartment r = Some "default")
                     (escalationRules (db w)) = []).
  { destruct (filter _ (escalationRules (db w))) as [|r rs] eqn:E; [done|].
    assert (Hr : r ∈ filter (λ r, ruleDepartment r = Some (department t)
                                  ∨ ruleDepartment r = Some "default")
                       (escalationRules (db w))) by (rewrite E; left).
    apply list_elem_of_filter in Hr as [Hr Hin].
    specialize (Hnone r Hin). tauto. }
  rewrite Hempty in *. split; [done|]. by inversion Hrules.
Qed.

Lemma first_escalation_never_fails_witness :
  let t := plainTicket "t1" OPEN 0 in
  let w := worldOf [t] in
  findById (db w) "t1" = Some t
  ∧ escalationLevel t = 0
  ∧ ∃ w' t1 t' rule,
      ladderOf (db w) t !! 0%nat = Some rule
      ∧ escalateTicket 5 "t1" "agent-1" "guest is upset" w
        = (w', Return (Some t1))
      ∧ findById (db w') "t1" = Some t'
      ∧ status t' = ESCALATED
      ∧ escalationLevel t' = 1
      ∧ assignedTo t' = Some (escalateTo rule)
      ∧ ((∀ r, r ∈ escalationRules (db w) →
               ruleDepartment r ≠ Some (department t)
               ∧ ruleDepartment r ≠ Some "default") →
         ladderOf (db w) t = fallbackRules ∧ escalateTo rule = "manager").
Proof.
  intros t w.
  assert (Hf : findById (db w) "t1" = Some t) by reflexivity.
  assert (Hl : escalationLevel t = 0) by reflexivity.
  split; [exact Hf|]. split; [exact Hl|].
  apply (first_escalation_never_fails 5 "t1" "agent-1" "guest is upset" w t
           Hf Hl).
Defined.

(** ** Creating and assigning tickets *)

Lemma findById_findIndex (c : Collections) (i : string) (t : Ticket) :
  findById c i = Some t → ∃ n, findIndex i (tickets c) = Some (n, t).
Proof.
  unfold findById. destruct (findIndex i (tickets c)) as [[n x]|]; [|done].
  simpl. intros H. inversion H. by exists n.
Qed.

Lemma addTicketResponse_run_found (now : Z) (i text who : string)
    (to : Audience) (ch : Channel) (automated : bool) (w : World) (n : nat)
    (t : Ticket) :
  findIndex i (tickets (db w)) = Some (n, t) →
  addTicketResponse now i text who to ch automated w
  = ({| db := withTickets (db w)
                (<[n := spread t
                          {| u_status := None; u_assignedTo := None;
                             u_internalNotes := None;
                             u_responses :=
                               Some (responses t ++
                                     [{| body := text; sentBy := who;
                                         sentTo := to; channel := ch;
                                         isAutomated := automated;
                                         sentAt := now |}]);
                             u_escalationHistory := None;
                             u_isEscalated := None; u_escalationLevel := None;
                             u_resolvedAt := None; u_closedAt := None;
                             u_id := None; u_ticketNumber := None; u_description := None;
                             u_category := None; u_department := None; u_slaConfig := None;
                             u_createdAt := None; u_updatedAt := None |} now]>
                   (tickets (db w)));
        ticketCounter := ticketCounter w;
        console :=
          if bool_decide (to = to_guest ∧ ch ≠ ch_internal)
          then console w ++ [GuestResponse (ticketNumber t) ch]
          else console w |},
     Return true).
Proof.
  intros H. unfold addTicketResponse.
  rewrite (bind_Return _ _ _ _ _ (getTicketById_run i w)).
  unfold findById. rewrite H. cbn [fmap option_fmap option_map snd].
  rewrite (bind_Return _ _ _ _ _ (dbUpdate_run_found w i _ now n t H)).
  unfold sendGuestResponse, when, bind, log, ret.
  by destruct (bool_decide _).
Qed.

Lemma findIndex_create (ts : list Ticket) (x : Ticket) :
  findIndex (id x) ts = None →
  findIndex (id x) (ts ++ [x]) = Some (length ts, x).
Proof.
  unfold findIndex. intros H. rewrite list_find_app_r by done.
  simpl. rewrite decide_True by done. simpl.
  by rewrite ?Nat.add_0_r.
Qed.

Lemma defaultAgent_is_active_agent (c : Collections) (dept a : string) :
  getDefaultAgentForDepartment c dept = Some a →
  ∃ u, u ∈ users c ∧ userId u = a ∧ userDepartment u = dept
       ∧ role u = AGENT ∧ isActive u = true.
Proof.
  unfold getDefaultAgentForDepartment.
  destruct (filter _ (users c)) as [|u us] eqn:E; [discriminate|].
  intros H. inversion H; subst a. exists u.
  assert (Hu : u ∈ filter (λ u, userDepartment u = dept ∧ role u = AGENT
                                ∧ isActive u = true) (users c))
    by (rewrite E; left).
  apply list_elem_of_filter in Hu. tauto.
Qed.

(** X23.  When the analysis of the description answers a category,
    creating a ticket under a fresh identifier returns a ticket that is
    OPEN, not escalated, at level 0, with no history and no closing
    timestamps, created at the time of the call, numbered by the counter, of
    the category the request gives or else the one the classifier answers,
    in the given department or else the department of its category, under
    that department's policy; when no assignee is given it is assigned to
    an active agent of that department or to nobody.  The returned ticket
    has no response: it is the row as first stored.  The stored ticket is
    that row with the automated reply as its one response. *)
Theorem created_ticket_is_open_and_answered (platform : Platform) (now : Z)
    (newId : string) (data : CreateTicketData) (w : World)
    (cat : TicketCategory) :
  analysisOf platform data = Return cat →
  findById (db w) newId = None →
  ∃ saved auto,
    snd (createTicket platform now newId data w) = Return saved
    ∧ (id saved = newId ∧ ticketNumber saved = ticketCounter w
       ∧ createdAt saved = now)
    ∧ (status saved = OPEN ∧ isEscalated saved = false
       ∧ escalationLevel saved = 0 ∧ escalationHistory saved = []
       ∧ resolvedAt saved = None ∧ closedAt saved = None)
    ∧ category saved = cat
    ∧ match data_category data with
      | Some given => cat = given
      | None => ∃ result,
          categorizeTicket platform (data_description data) = Return result
          ∧ bestCategory result = cat
      end
    ∧ department saved
      = default (getDepartmentByCategory (category saved))
          (truthy (data_department data))
    ∧ slaConfig saved = getSLAConfig (db w) (department saved)
    ∧ (truthy (data_assignedTo data) = None →
       ∀ a, assignedTo saved = Some a →
            ∃ u, u ∈ users (db w) ∧ userId u = a
                 ∧ userDepartment u = department saved
                 ∧ role u = AGENT ∧ isActive u = true)
    ∧ responses saved = []
    ∧ findById (db (fst (createTicket platform now newId data w))) newId
      = Some (withResponses saved [auto])
    ∧ (isAutomated auto = true ∧ sentBy auto = "system" ∧ sentAt auto = now
       ∧ sentTo auto = to_guest ∧ channel auto = ch_email).
Proof.
  intros Hanalysis Hfresh. analysed Hanalysis.
  rewrite (bind_Return getDb _ _ _ (db w)) by reflexivity.
  cbn [db create].
  match goal with |- context [bind (putDb ?c') ?k] =>
    rewrite (bind_Return (putDb c') k _ _ tt eq_refl) end.
  match goal with |- context [sendAutoResponse now ?s] => set (saved := s) end.
  assert (Hidx : findIndex newId (tickets (db w) ++ [saved])
                 = Some (length (tickets (db w)), saved)).
  { apply (findIndex_create (tickets (db w)) saved).
    unfold findById in Hfresh. cbn [id saved].
    by destruct (findIndex newId (tickets (db w))). }
  unfold sendAutoResponse.
  destruct (generateSmartReplies_nonempty (category saved) (description saved))
    as (first & rest & ->).
  cbv beta iota zeta.
  match goal with
  |- context [bind (bind (addTicketResponse now ?i first ?a ?b ?c ?d) _) _
                ?w2] =>
    rewrite (bind_Return _ _ _ _ _
               (bind_Return _ (λ _, ret tt) _ _ _
                  (addTicketResponse_run_found now i first a b c d w2 _ saved
                     Hidx)))
  end.
  rewrite bool_decide_eq_true_2 by (split; [done|discriminate]).
  set (stored := spread saved _ now).
  exists saved, {| body := first; sentBy := "system"; sentTo := to_guest;
                   channel := ch_email; isAutomated := true; sentAt := now |}.
  assert (Hlookup : ∀ w', db w' = withTickets (db w)
                     (<[length (tickets (db w)) := stored]>
                        (tickets (db w) ++ [saved])) →
                   findById (db w') newId
                   = Some (withResponses saved
                             [{| body := first; sentBy := "system";
                                 sentTo := to_guest; channel := ch_email;
                                 isAutomated := true; sentAt := now |}])).
  { intros w' ->. unfold findById. cbn [tickets withTickets].
    by rewrite (findIndex_insert_same newId _ _ saved stored Hidx eq_refl). }
  unfold notifyAssignment, bind, log, ret. cbv beta iota.
  set (notified := truthy match truthy (data_assignedTo data) with
                          | Some a => Some a
                          | None => _
                          end).
  split; [by destruct notified|].
  split; [done|]. split; [done|]. split; [done|]. split; [exact Hcat|].
  split; [done|]. split; [done|]. split.
  { intros Hnone a Ha. cbn [assignedTo saved] in Ha. rewrite Hnone in Ha.
    by apply defaultAgent_is_active_agent. }
  split; [done|]. split; [|done].
  apply Hlookup. by destruct notified.
Qed.

Lemma created_ticket_is_open_and_answered_witness :
  analysisOf standIn complaint = Return HOUSEKEEPING
  ∧ findById (db emptyWorld) "t1" = None
  ∧ ∃ saved auto,
      snd (createTicket standIn 5 "t1" complaint emptyWorld) = Return saved
      ∧ (id saved = "t1" ∧ ticketNumber saved = ticketCounter emptyWorld
         ∧ createdAt saved = 5)
      ∧ (status saved = OPEN ∧ isEscalated saved = false
         ∧ escalationLevel saved = 0 ∧ escalationHistory saved = []
         ∧ resolvedAt saved = None ∧ closedAt saved = None)
      ∧ category saved = HOUSEKEEPING
      ∧ match data_category complaint with
        | Some given => HOUSEKEEPING = given
        | None => ∃ result,
            categorizeTicket standIn (data_description complaint)
            = Return result
            ∧ bestCategory result = HOUSEKEEPING
        end
      ∧ department saved
        = default (getDepartmentByCategory (category saved))
            (truthy (data_department complaint))
      ∧ slaConfig saved = getSLAConfig (db emptyWorld) (department saved)
      ∧ (truthy (data_assignedTo complaint) = None →
         ∀ a, assignedTo saved = Some a →
              ∃ u, u ∈ users (db emptyWorld) ∧ userId u = a
                   ∧ userDepartment u = department saved
                   ∧ role u = AGENT ∧ isActive u = true)
      ∧ responses saved = []
      ∧ findById
          (db (fst (createTicket standIn 5 "t1" complaint emptyWorld))) "t1"
        = Some (withResponses saved [auto])
      ∧ (isAutomated auto = true ∧ sentBy auto = "system" ∧ sentAt auto = 5
         ∧ sentTo auto = to_guest ∧ channel auto = ch_email).
Proof.
  assert (Ha : analysisOf standIn complaint = Return HOUSEKEEPING)
    by (vm_compute; reflexivity).
  assert (H : findById (db emptyWorld) "t1" = None) by reflexivity.
  split; [exact Ha|]. split; [exact H|].
  apply (created_ticket_is_open_and_answered standIn 5 "t1" complaint
           emptyWorld HOUSEKEEPING Ha H).
Defined.

(** X24.  Assigning an existing ticket, whatever its status, stores it as
    IN_PROGRESS with the agent as assignee and one more internal note, by the
    assigner at the time of the call; its escalation flag, level and history,
    its responses and its resolution and closing timestamps are as before, so
    a closed ticket is back in progress with its closing time still set.  The
    agent is notified once.  The ticket returned is the row before the note
    was added. *)
Theorem assignment_puts_any_ticket_in_progress (now : Z)
    (i agent assigner : string) (w : World) (t : Ticket) :
  findById (db w) i = Some t →
  ∃ returned stored,
    snd (assignTicket now i agent assigner w) = Return (Some returned)
    ∧ findById (db (fst (assignTicket now i agent assigner w))) i
      = Some stored
    ∧ (status stored = IN_PROGRESS ∧ assignedTo stored = Some agent)
    ∧ internalNotes stored
      = internalNotes t ++ [{| content := AssignedToAgent agent;
                               addedBy := assigner; addedAt := now |}]
    ∧ internalNotes returned = internalNotes t
    ∧ (isEscalated stored = isEscalated t
       ∧ escalationLevel stored = escalationLevel t
       ∧ escalationHistory stored = escalationHistory t
       ∧ responses stored = responses t
       ∧ resolvedAt stored = resolvedAt t
       ∧ closedAt stored = closedAt t)
    ∧ console (fst (assignTicket now i agent assigner w))
      = console w ++ [NotifyAssignment (ticketNumber t) agent].
Proof.
  intros Hfound. destruct (findById_findIndex _ _ _ Hfound) as [n Hn].
  destruct (findIndex_Some _ _ _ _ Hn) as [_ Hid].
  unfold assignTicket.
  rewrite (bind_Return _ _ _ _ _ (dbUpdate_run_found w i _ now n t Hn)).
  set (assigned := spread t _ now).
  set (w1 := {| db := withTickets (db w) (<[n := assigned]> (tickets (db w)));
                ticketCounter := ticketCounter w; console := console w |}).
  assert (Hn1 : findIndex i (tickets (db w1)) = Some (n, assigned))
    by exact (findIndex_insert_same i _ n t assigned Hn Hid).
  rewrite (bind_Return _ _ _ _ _
             (bind_Return _ _ _ _ _
                (addInternalNote_run_found now i (AssignedToAgent agent)
                   assigner w1 n assigned Hn1))).
  set (noted := spread assigned _ now).
  exists assigned, noted.
  split; [done|]. split.
  { unfold findById.
    match goal with |- context [findIndex i ?ts] =>
      change ts with (<[n := noted]> (tickets (db w1))) end.
    by rewrite (findIndex_insert_same i _ n assigned noted Hn1 Hid). }
  done.
Qed.

Lemma assignment_puts_any_ticket_in_progress_witness :
  findById (db (worldOf [plainTicket "t1" CLOSED 0])) "t1"
  = Some (plainTicket "t1" CLOSED 0)
  ∧ ∃ returned stored,
      snd (assignTicket 5 "t1" "agent-2" "admin"
             (worldOf [plainTicket "t1" CLOSED 0]))
      = Return (Some returned)
      ∧ findById
          (db (fst (assignTicket 5 "t1" "agent-2" "admin"
                      (worldOf [plainTicket "t1" CLOSED 0])))) "t1"
        = Some stored
      ∧ (status stored = IN_PROGRESS ∧ assignedTo stored = Some "agent-2")
      ∧ internalNotes stored
        = internalNotes (plainTicket "t1" CLOSED 0)
          ++ [{| content := AssignedToAgent "agent-2";
                 addedBy := "admin"; addedAt := 5 |}]
      ∧ internalNotes returned = internalNotes (plainTicket "t1" CLOSED 0)
      ∧ (isEscalated stored = isEscalated (plainTicket "t1" CLOSED 0)
         ∧ escalationLevel stored
           = escalationLevel (plainTicket "t1" CLOSED 0)
         ∧ escalationHistory stored
           = escalationHistory (plainTicket "t1" CLOSED 0)
         ∧ responses stored = responses (plainTicket "t1" CLOSED 0)
         ∧ resolvedAt stored = resolvedAt (plainTicket "t1" CLOSED 0)
         ∧ closedAt stored = closedAt (plainTicket "t1" CLOSED 0))
      ∧ console (fst (assignTicket 5 "t1" "agent-2" "admin"
                        (worldOf [plainTicket "t1" CLOSED 0])))
        = console (worldOf [plainTicket "t1" CLOSED 0])
          ++ [NotifyAssignment (ticketNumber (plainTicket "t1" CLOSED 0))
                "agent-2"].
Proof.
  assert (H : findById (db (worldOf [plainTicket "t1" CLOSED 0])) "t1"
              = Some (plainTicket "t1" CLOSED 0)) by reflexivity.
  split; [exact H|].
  apply (assignment_puts_any_ticket_in_progress 5 "t1" "agent-2" "admin"
           (worldOf [plainTicket "t1" CLOSED 0]) (plainTicket "t1" CLOSED 0)
           H).
Defined.

(** ** The routes *)

Lemma tryCatch_Return {A} (m : M A) (h : Error → M A) (w w' : World) (a : A) :
  m w = (w', Return a) → tryCatch m h w = (w', Return a).
Proof. unfold tryCatch. by intros ->. Qed.

Lemma tryCatch_Throw {A} (m : M A) (h : Error → M A) (w w' : World)
    (e : Error) :
  m w = (w', Throw e) → tryCatch m h w = h e w'.
Proof. unfold tryCatch. by intros ->. Qed.

(** X25.  The status route always answers, and never with 500: 400 when the
    requested status is not one of the seven strings of the enumeration, 404
    when no ticket has the identifier, and in both cases the state is left
    as it was; otherwise 200 with the updated ticket, which is in the
    requested status whatever its status was, as is the stored one. *)
Theorem status_route_answers_400_404_or_200 (now : Z) (i : string)
    (requested why : option string) (user : string) (w : World) :
  ∃ r,
    snd (Routes.putStatus now i requested why user w) = Return r
    ∧ Routes.statusCode r ≠ 500
    ∧ Routes.logged r = None
    ∧ match requested ≫= Routes.statusOfString, findById (db w) i with
      | None, _ =>
          r = Routes.fail 400 (Routes.Literal "Invalid status") None
          ∧ fst (Routes.putStatus now i requested why user w) = w
      | Some _, None =>
          r = Routes.fail 404 (Routes.Literal "Ticket not found") None
          ∧ fst (Routes.putStatus now i requested why user w) = w
      | Some s, Some _ =>
          ∃ t1 t',
            r = Routes.ok t1 "Ticket status updated successfully"
            ∧ status t1 = s
            ∧ findById (db (fst (Routes.putStatus now i requested why user w)))
                i = Some t'
            ∧ status t' = s
      end.
Proof.
  unfold Routes.putStatus.
  destruct (requested ≫= Routes.statusOfString) as [s|].
  2:{ eexists. split; [reflexivity|]. by repeat split. }
  destruct (findById (db w) i) as [t|] eqn:E.
  - destruct (updateTicketStatus_found now i s user why w t E)
      as (w' & t1 & t' & Hrun & Hstored & Hs1 & Hs' & _).
    rewrite (tryCatch_Return _ _ w w'
               (Routes.ok t1 "Ticket status updated successfully"))
      by (by rewrite (bind_Return _ _ _ _ _ Hrun)).
    eexists. split; [reflexivity|].
    split; [done|]. split; [done|]. by exists t1, t'.
  - rewrite (tryCatch_Return _ _ w w
               (Routes.fail 404 (Routes.Literal "Ticket not found") None))
      by (by rewrite (bind_Return _ _ _ _ _
                        (updateTicketStatus_missing now i s user why w E))).
    eexists. split; [reflexivity|]. by repeat split.
Qed.

(** What [escalateTicket] answers for a stored ticket: the two errors leave
    the state as it was; otherwise the ticket returned is the row as the
    update left it, before the note was added. *)
Lemma escalateTicket_outcome (now : Z) (i who why : string) (w : World)
    (n : nat) (t : Ticket) :
  findIndex i (tickets (db w)) = Some (n, t) →
  if Z.of_nat (length (ladderOf (db w) t)) <? escalationLevel t + 1
  then escalateTicket now i who why w = (w, Throw MaxEscalationLevelReached)
  else match ruleAt (ladderOf (db w) t) (escalationLevel t + 1 - 1) with
       | None => escalateTicket now i who why w = (w, Throw TypeError)
       | Some rule =>
           ∃ t1, snd (escalateTicket now i who why w) = Return (Some t1)
                 ∧ status t1 = ESCALATED
                 ∧ escalationLevel t1 = escalationLevel t + 1
                 ∧ assignedTo t1 = Some (escalateTo rule)
                 ∧ internalNotes t1 = internalNotes t
       end.
Proof.
  intros Hf. unfold escalateTicket, ladderOf.
  rewrite (bind_Return _ _ _ _ _ (getTicketById_run i w)).
  unfold findById. rewrite Hf. cbn [fmap option_fmap option_map snd].
  rewrite (bind_Return getDb _ w w (db w)) by done.
  destruct (_ <? _); [done|].
  destruct (ruleAt _ _) as [rule|]; [|done].
  rewrite (bind_Return _ _ _ _ _ (dbUpdate_run_found w i _ now n t Hf)).
  match goal with |- context [ret (Some ?x)] => set (t1 := x) end.
  assert (Hid : id t1 = i) by (by apply (findIndex_Some i (tickets (db w)) n t)).
  exists t1. split; [|done].
  unfold sendEscalationNotifications, bind, log. cbv beta iota.
  match goal with |- context [addInternalNote now i ?c who ?w2] =>
    rewrite (addInternalNote_run_found now i c who w2 n t1
               (findIndex_insert_same i (tickets (db w)) n t t1 Hf Hid))
  end.
  reflexivity.
Qed.

(** X26.  The escalation route always answers: 400 when the reason is
    missing or empty, 404 when no ticket has the identifier, 500 with the
    text 'Maximum escalation level reached' when the ticket is at or above
    the top of its department's ladder, 500 with the engine's message when
    its level is negative; in these four cases the state is left as it was.
    Otherwise it answers 200 with the ticket ESCALATED one level up,
    whatever its status was. *)
Theorem escalate_route_answers (now : Z) (i : string) (why : option string)
    (user : string) (w : World) :
  ∃ r,
    snd (Routes.postEscalate now i why user w) = Return r
    ∧ match truthy why, findById (db w) i with
      | None, _ =>
          r = Routes.fail 400
                (Routes.Literal "Escalation reason is required") None
          ∧ fst (Routes.postEscalate now i why user w) = w
      | Some _, None =>
          r = Routes.fail 404 (Routes.Literal "Ticket not found") None
          ∧ fst (Routes.postEscalate now i why user w) = w
      | Some _, Some t =>
          if Z.of_nat (length (ladderOf (db w) t)) <=? escalationLevel t
          then r = Routes.fail 500
                     (Routes.Literal "Maximum escalation level reached")
                     (Some MaxEscalationLevelReached)
               ∧ fst (Routes.postEscalate now i why user w) = w
          else if escalationLevel t <? 0
          then r = Routes.fail 500 (Routes.EngineMessage TypeError)
                     (Some TypeError)
               ∧ fst (Routes.postEscalate now i why user w) = w
          else ∃ t1,
                 r = Routes.ok t1 "Ticket escalated successfully"
                 ∧ status t1 = ESCALATED
                 ∧ escalationLevel t1 = escalationLevel t + 1
      end.
Proof.
  unfold Routes.postEscalate.
  destruct (truthy why) as [reason|].
  2:{ eexists. split; [reflexivity|]. by split. }
  destruct (findById (db w) i) as [t|] eqn:E.
  2:{ assert (Hrun : escalateTicket now i user reason w = (w, Return None)).
      { unfold escalateTicket.
        rewrite (bind_Return _ _ _ _ _ (getTicketById_run i w)).
        by rewrite E. }
      rewrite (tryCatch_Return _ _ w w
                 (Routes.fail 404 (Routes.Literal "Ticket not found") None))
        by (by rewrite (bind_Return _ _ _ _ _ Hrun)).
      eexists. split; [reflexivity|]. by split. }
  destruct (findById_findIndex _ _ _ E) as [n Hn].
  pose proof (escalateTicket_outcome now i user reason w n t Hn) as Hout.
  destruct (Z.leb_spec (Z.of_nat (length (ladderOf (db w) t)))
              (escalationLevel t)) as [Htop|Hroom].
  - destruct (Z.ltb_spec (Z.of_nat (length (ladderOf (db w) t)))
                (escalationLevel t + 1)) as [_|?]; [|lia].
    rewrite (tryCatch_Throw _ _ w w MaxEscalationLevelReached)
      by (by rewrite (bind_Throw _ _ _ _ _ Hout)).
    eexists. split; [reflexivity|]. by split.
  - destruct (Z.ltb_spec (Z.of_nat (length (ladderOf (db w) t)))
                (escalationLevel t + 1)) as [?|_]; [lia|].
    replace (escalationLevel t + 1 - 1) with (escalationLevel t) in Hout
      by lia.
    unfold ruleAt in Hout.
    destruct (Z.ltb_spec (escalationLevel t) 0) as [Hneg|Hpos].
    + rewrite (tryCatch_Throw _ _ w w TypeError)
        by (by rewrite (bind_Throw _ _ _ _ _ Hout)).
      eexists. split; [reflexivity|]. by split.
    + destruct (lookup_lt_is_Some_2 (ladderOf (db w) t)
                  (Z.to_nat (escalationLevel t)) ltac:(lia)) as [rule Hrule].
      rewrite Hrule in Hout.
      destruct Hout as (t1 & Hret & Hs & Hl & _).
      destruct (escalateTicket now i user reason w) as [w' o] eqn:Hrun.
      simpl in Hret. subst o.
      rewrite (tryCatch_Return _ _ w w'
                 (Routes.ok t1 "Ticket escalated successfully"))
        by (by rewrite (bind_Return _ _ _ _ _ Hrun)).
      eexists. split; [reflexivity|]. by exists t1.
Qed.
